(** * The banking data generator of [create_banking_schema.py]

    A shallow embedding of the generator stages of [BankingDatabase]
    ([generate_banks] ... [generate_chat_history], [main]) and the properties
    of the records they write.

    - Python [float] values are kept behind the interface [Num], which has two
      instances: IEEE binary64 ([float], what the interpreter computes with)
      and exact rationals ([Q], the arithmetic the formulas are written in).
      Structural facts are proved for every instance.
    - The collaborators the script only calls ([random], [Faker], the wall
      clock, [hashlib], date formatting) are a record [extern] of arbitrary
      functions; the generator reads them through a position counter held in
      the [world], so every behaviour of the random source is covered.
    - The SQLite file is a [store] of row lists; the row id of an
      [INTEGER PRIMARY KEY] table is the 1-based position of the row.  The
      [UNIQUE] and [FOREIGN KEY] clauses of the schema are not part of the
      [store]; the last part of the file shows which of them the rows of a
      run respect.
    - A stage is a computation [M A] over the [world] that may raise. *)

From Stdlib Require Import ZArith QArith Qpower List String Ascii Bool Lia Lqa.
From Stdlib Require Import Permutation.
From Stdlib Require Import Floats.PrimFloat Floats.SpecFloat Floats.FloatOps Uint63.
From Stdlib Require DecimalString DecimalZ.
Import ListNotations.
Local Open Scope Z_scope.

Set Implicit Arguments.

(** ** Numbers *)

(** The operations the script applies to floats. [dec m k] is the decimal
    literal [m / 10^k] (so [dec 85 2] is [0.85]); [of_int] is [float(n)]. *)
Class Num (F : Type) : Type := {
  of_int : Z -> F;
  dec : Z -> nat -> F;
  fadd : F -> F -> F;
  fsub : F -> F -> F;
  fmul : F -> F -> F;
  fdiv : F -> F -> F;
  fpow : F -> Z -> F;
  fltb : F -> F -> bool;
  fleb : F -> F -> bool;
  to_int : F -> Z
}.

Declare Scope num_scope.
Delimit Scope num_scope with num.
Infix "+" := fadd : num_scope.
Infix "-" := fsub : num_scope.
Infix "*" := fmul : num_scope.
Infix "/" := fdiv : num_scope.
Infix "**" := fpow (at level 30, right associativity) : num_scope.
Infix "<?" := fltb : num_scope.
Infix "<=?" := fleb : num_scope.

(** Exact arithmetic. *)
Definition Q_lt_bool (x y : Q) : bool := negb (Qle_bool y x).

#[export] Instance Num_Q : Num Q := {
  of_int := inject_Z;
  dec m k := Qmake m (Z.to_pos (10 ^ Z.of_nat k));
  fadd := Qplus;
  fsub := Qminus;
  fmul := Qmult;
  fdiv := Qdiv;
  fpow := Qpower;
  fltb := Q_lt_bool;
  fleb := Qle_bool;
  to_int x := Z.quot (Qnum x) (Zpos (Qden x))
}.

(** Binary64.  [float_of_Z] is exact below [2^53]; a decimal literal is the
    correctly rounded quotient of two exactly represented integers, which is
    the value the Python parser produces for the literals of the script.
    Python evaluates [x ** n] with the C library's [pow]; the instance
    multiplies repeatedly, which is [pow] up to its last bits.  The theorems
    about every run hold for every instance of [Num]; of the concrete
    binary64 runs at the end, only the monthly payment of a loan goes
    through [float_pow]. *)
Definition float_of_Z (z : Z) : float :=
  if z <? 0 then PrimFloat.opp (PrimFloat.of_uint63 (Uint63.of_Z (- z)))
  else PrimFloat.of_uint63 (Uint63.of_Z z).

Definition float_dec (m : Z) (k : nat) : float :=
  if Nat.eqb k 0 then float_of_Z m
  else PrimFloat.div (float_of_Z m) (float_of_Z (10 ^ Z.of_nat k)).

(** [int(x)]: truncation toward zero of a finite float. *)
Definition float_to_Z (x : float) : Z :=
  match FloatOps.Prim2SF x with
  | SpecFloat.S754_finite s m e =>
      let mag := if e <? 0 then Z.pos m / 2 ^ (- e) else Z.pos m * 2 ^ e in
      if s then - mag else mag
  | _ => 0
  end.

Definition float_pow (x : float) (n : Z) : float :=
  let p := Z.iter (Z.abs n) (PrimFloat.mul x) PrimFloat.one in
  if n <? 0 then PrimFloat.div PrimFloat.one p else p.

#[export] Instance Num_float : Num float := {
  of_int := float_of_Z;
  dec := float_dec;
  fadd := PrimFloat.add;
  fsub := PrimFloat.sub;
  fmul := PrimFloat.mul;
  fdiv := PrimFloat.div;
  fpow := float_pow;
  fltb := PrimFloat.ltb;
  fleb := PrimFloat.leb;
  to_int := float_to_Z
}.

(** ** Text helpers *)

(** [str(n)] for an integer. *)
Definition str_Z (z : Z) : string :=
  DecimalString.NilZero.string_of_int (Z.to_int z).

Fixpoint zeros (n : nat) : string :=
  match n with O => EmptyString | S m => String "0" (zeros m) end.

(** [f'{i:06d}'] for [i >= 0]. *)
Definition pad6 (i : Z) : string :=
  let s := str_Z i in (zeros (6 - String.length s) ++ s)%string.

Definition lower_ascii (c : ascii) : ascii :=
  let n := nat_of_ascii c in
  if (Nat.leb 65 n && Nat.leb n 90)%bool then ascii_of_nat (n + 32) else c.

(** [s.lower()] on ASCII text. *)
Fixpoint lower (s : string) : string :=
  match s with
  | EmptyString => EmptyString
  | String c t => String (lower_ascii c) (lower t)
  end.

(** [x in xs] for integers. *)
Definition mem (x : Z) (xs : list Z) : bool := existsb (Z.eqb x) xs.

(** [range(n)]. *)
Definition range (n : Z) : list Z := map Z.of_nat (seq 0 (Z.to_nat n)).

(** [enumerate(xs)]. *)
Definition enumerate {A} (xs : list A) : list (Z * A) :=
  combine (range (Z.of_nat (List.length xs))) xs.

(** ** Data model: the enumerated columns and one record per table *)

Inductive risk := LOW | MEDIUM | HIGH.
Inductive employment := EMPLOYED | SELF_EMPLOYED | RETIRED | STUDENT | UNEMPLOYED.
Inductive account_type := CHECKING | SAVINGS | MONEY_MARKET | CD.
(** The values of the two [status] columns (accounts and loans). *)
Inductive status := ACTIVE | FROZEN | CLOSED | PAID_OFF | DEFAULTED | RESTRUCTURED.
Inductive relationship := PRIMARY | JOINT | BENEFICIARY.
Inductive txn_type := DEPOSIT | WITHDRAWAL | TRANSFER | FEE | INTEREST.
Inductive loan_type := PERSONAL | MORTGAGE | AUTO.
Inductive collateral := REAL_ESTATE | VEHICLE.
Inductive payment_method := AUTO_DEBIT | ONLINE | CHECK | CASH.
Inductive channel := WEB | MOBILE | PHONE | BRANCH.
Inductive topic := ACCOUNT_INQUIRY | DISPUTE | LOAN | TECHNICAL | COMPLAINT.
Inductive resolution := RESOLVED | ESCALATED | PENDING.


Definition status_eqb (a b : status) : bool :=
  match a, b with
  | ACTIVE, ACTIVE | FROZEN, FROZEN | CLOSED, CLOSED
  | PAID_OFF, PAID_OFF | DEFAULTED, DEFAULTED | RESTRUCTURED, RESTRUCTURED => true
  | _, _ => false
  end.

Definition relationship_eqb (a b : relationship) : bool :=
  match a, b with
  | PRIMARY, PRIMARY | JOINT, JOINT | BENEFICIARY, BENEFICIARY => true
  | _, _ => false
  end.

Definition txn_type_str (t : txn_type) : string :=
  match t with
  | DEPOSIT => "DEPOSIT" | WITHDRAWAL => "WITHDRAWAL" | TRANSFER => "TRANSFER"
  | FEE => "FEE" | INTEREST => "INTEREST"
  end.

(** Dates are day ordinals, timestamps are microseconds; both are [Z]. *)
Definition date := Z.
Definition datetime := Z.
Definition usec_per_minute : Z := 60000000.
Definition usec_per_hour : Z := 3600000000.
Definition usec_per_day : Z := 86400000000.
Arguments usec_per_minute : simpl never.
Arguments usec_per_hour : simpl never.
Arguments usec_per_day : simpl never.

Record bank := {
  b_bank_name : string;
  b_swift_code : string;
  b_country : string;
  b_headquarters_city : string;
  b_established_date : string
}.

Record customer (F : Type) := {
  c_first_name : string;
  c_last_name : string;
  c_date_of_birth : date;
  c_ssn_hash : string;
  c_email : string;
  c_phone : string;
  c_address : string;
  c_city : string;
  c_state : string;
  c_zip_code : string;
  c_customer_since : date;
  c_credit_score : Z;
  c_annual_income : F;
  c_employment_status : employment;
  c_is_pep : bool;
  c_risk_rating : risk
}.

Record user := {
  u_customer_id : Z;
  u_username : string;
  u_password_hash : string;
  u_created_at : datetime;
  u_last_login : datetime;
  u_is_active : bool;
  u_failed_login_attempts : Z;
  u_two_factor_enabled : bool
}.

Record account (F : Type) := {
  a_account_number : string;
  a_bank_id : Z;
  a_account_type : account_type;
  a_balance : F;
  a_currency : string;
  a_opened_date : date;
  a_closed_date : option date;
  a_status : status;
  a_interest_rate : F;
  a_overdraft_limit : Z
}.

Record ownership := {
  ac_account_id : Z;
  ac_customer_id : Z;
  ac_relationship_type : relationship;
  ac_added_date : date
}.

Record transaction (F : Type) := {
  t_account_id : Z;
  t_transaction_type : txn_type;
  t_amount : F;
  t_balance_after : F;
  t_transaction_date : datetime;
  t_description : string;
  t_category : string;
  t_merchant_name : string;
  t_reference_number : string;
  t_related_transaction_id : option Z;
  t_location : string;
  t_ip_address : string;
  t_device_id : string;
  t_is_flagged : bool
}.

Record loan (F : Type) := {
  l_customer_id : Z;
  l_bank_id : Z;
  l_loan_type : loan_type;
  l_principal_amount : F;
  l_interest_rate : F;
  l_term_months : Z;
  l_monthly_payment : F;
  l_remaining_balance : F;
  l_origination_date : date;
  l_maturity_date : date;
  l_status : status;
  l_collateral_value : option F;
  l_collateral_type : option collateral;
  l_delinquency_days : Z
}.

Record payment (F : Type) := {
  p_loan_id : Z;
  p_payment_date : date;
  p_scheduled_date : date;
  p_amount : F;
  p_principal_paid : F;
  p_interest_paid : F;
  p_late_fee : F;
  p_payment_method : payment_method;
  p_transaction_id : option Z;
  p_is_reversed : bool;
  p_reversal_reason : option string
}.

Record chat (F : Type) := {
  ch_customer_id : Z;
  ch_user_id : option Z;
  ch_session_start : datetime;
  ch_session_end : datetime;
  ch_channel : channel;
  ch_agent_id : string;
  ch_topic : topic;
  ch_sentiment_score : F;
  ch_resolution_status : resolution;
  ch_transcript : string
}.

(** The database: one row list per table, in insertion order.  The tables
    with an [INTEGER PRIMARY KEY] never lose a row, so the key of a row is its
    1-based position. *)
Record store (F : Type) := {
  banks : list bank;
  customers : list (customer F);
  users : list user;
  accounts : list (account F);
  account_customers : list ownership;
  transactions : list (transaction F);
  loans : list (loan F);
  payments : list (payment F);
  chat_history : list (chat F)
}.

Definition empty_store (F : Type) : store F :=
  {| banks := []; customers := []; users := []; accounts := [];
     account_customers := []; transactions := []; loans := [];
     payments := []; chat_history := [] |}.

(** [SELECT <key> FROM <table>] on a table keyed by position. *)
Definition row_ids {A} (rows : list A) : list Z :=
  map Z.of_nat (seq 1 (List.length rows)).

(** The rows of a table paired with their keys. *)
Definition keyed {A} (rows : list A) : list (Z * A) := combine (row_ids rows) rows.

(** ** Collaborators and the world *)

(** What the script calls and does not define.  [mt_word s k] is the [k]-th
    raw output of the [random] module after [random.seed(s)]; [fk_text] and
    [fk_num] read the [k]-th draw of Faker's shared generator after
    [Faker.seed(s)] as text or as a number; [wall_clock k] is the [k]-th
    reading of [datetime.now()]. *)
Record extern := {
  mt_word : Z -> N -> Z;
  fk_text : Z -> N -> string;
  fk_num : Z -> N -> Z;
  wall_clock : N -> datetime;
  sha256_hex : string -> string;
  strftime_Ymd : datetime -> string;
  str_datetime : datetime -> string
}.

(** A seeded generator: the seed and how many outputs were taken. *)
Record rng := { seed_of : Z; taken : N }.

Record world (F : Type) := {
  rnd : rng;
  fk : rng;
  ticks : N;
  db : store F
}.

Inductive exn := IndexError | ValueError | NameError | ZeroDivisionError.

Inductive result (A : Type) := Ok (a : A) | Raise (e : exn).
Arguments Raise {A} e.

(** ** The generator monad: world passing with exceptions *)

Definition M (F A : Type) : Type := world F -> result (A * world F).

Definition ret {F A} (a : A) : M F A := fun w => Ok (a, w).

Definition bind {F A B} (c : M F A) (k : A -> M F B) : M F B :=
  fun w => match c w with
           | Ok (a, w') => k a w'
           | Raise e => Raise e
           end.

Definition raise {F A} (e : exn) : M F A := fun _ => Raise e.

Declare Scope gen_scope.
Delimit Scope gen_scope with gen.
Notation "x <- c ;; k" := (bind c (fun x => k))
  (at level 61, c at next level, right associativity) : gen_scope.
Notation "' p <- c ;; k" := (bind c (fun x => match x with p => k end))
  (at level 61, p pattern, c at next level, right associativity) : gen_scope.
Notation "c ;;; k" := (bind c (fun _ => k))
  (at level 61, right associativity) : gen_scope.
Local Open Scope gen_scope.

(** A [for] loop whose body updates the loop-carried variables [s]. *)
Fixpoint foldM {F A S} (body : S -> A -> M F S) (xs : list A) (s : S) : M F S :=
  match xs with
  | [] => ret s
  | x :: rest => s' <- body s x ;; foldM body rest s'
  end.

(** [xs[i]], raising [IndexError] out of range. *)
Definition index {F A} (xs : list A) (i : Z) : M F A :=
  if i <? 0 then raise IndexError
  else match nth_error xs (Z.to_nat i) with
       | Some x => ret x
       | None => raise IndexError
       end.

Definition get_db {F} : M F (store F) := fun w => Ok (db w, w).

Definition set_db {F} (s : store F) : M F unit :=
  fun w => Ok (tt, {| rnd := rnd w; fk := fk w; ticks := ticks w; db := s |}).

(** [list(accumulate(ws))]. *)
Fixpoint accumulate_from (acc : Z) (ws : list Z) : list Z :=
  match ws with
  | [] => []
  | w :: rest => (acc + w) :: accumulate_from (acc + w) rest
  end.

Definition accumulate (ws : list Z) : list Z := accumulate_from 0 ws.

(** [pool[j] = v]. *)
Fixpoint set_nth {A} (j : nat) (v : A) (pool : list A) : list A :=
  match pool, j with
  | [], _ => []
  | _ :: t, O => v :: t
  | x :: t, S j' => x :: set_nth j' v t
  end.

Section Generator.

Context {F : Type} {NF : Num F}.
Variable E : extern.

Local Open Scope num_scope.

(** *** The [random] module *)

(** [random.seed(s)]. *)
Definition random_seed (s : Z) : M F unit :=
  fun w => Ok (tt, {| rnd := {| seed_of := s; taken := 0%N |}; fk := fk w;
                      ticks := ticks w; db := db w |}).

(** The next raw output of the generator. *)
Definition next_word : M F Z :=
  fun w => Ok (mt_word E (seed_of (rnd w)) (taken (rnd w)),
               {| rnd := {| seed_of := seed_of (rnd w); taken := N.succ (taken (rnd w)) |};
                  fk := fk w; ticks := ticks w; db := db w |}).

(** [random.random()]: a multiple of [2^-53] in [[0, 1)]. *)
Definition random : M F F :=
  k <- next_word ;;
  ret (of_int (k mod 2 ^ 53)%Z / of_int (2 ^ 53)%Z).

(** [_randbelow(n)] for [n > 0]. *)
Definition randbelow (n : Z) : M F Z :=
  k <- next_word ;; ret (k mod n)%Z.

(** [random.randint(a, b)]. *)
Definition randint (a b : Z) : M F Z :=
  r <- randbelow (b - a + 1)%Z ;; ret (a + r)%Z.

(** [random.uniform(a, b)], that is [a + (b - a) * random()]. *)
Definition uniform (a b : F) : M F F :=
  u <- random ;; ret (a + (b - a) * u).

(** [random.choice(xs)]. *)
Definition choice {A} (xs : list A) : M F A :=
  match xs with
  | [] => raise IndexError
  | _ => r <- randbelow (Z.of_nat (List.length xs)) ;; index xs r
  end.

(** [bisect(cum, x, 0, hi)] on a sorted [cum]. *)
Fixpoint bisect (cum : list Z) (x : F) (hi : nat) : nat :=
  match hi, cum with
  | S h, c :: rest => if x <? of_int c then O else S (bisect rest x h)
  | _, _ => O
  end.

(** [random.choices(population, weights=ws)[0]]. *)
Definition choices {A} (population : list A) (ws : list Z) : M F A :=
  let cum := accumulate ws in
  let total := last cum 0%Z in
  if negb (Nat.eqb (List.length cum) (List.length population)) then raise ValueError
  else if (total <=? 0)%Z then raise ValueError
  else
    u <- random ;;
    index population
      (Z.of_nat (bisect cum (u * of_int total) (List.length population - 1))).

(** The selection loop of [random.sample] over a pool (the branch CPython
    takes for the population sizes of the script). *)
Fixpoint sample_pool {A} (pool : list A) (k : nat) : M F (list A) :=
  match k with
  | O => ret []
  | S k' =>
      j <- randbelow (Z.of_nat (List.length pool)) ;;
      picked <- index pool j ;;
      moved <- index pool (Z.of_nat (List.length pool) - 1)%Z ;;
      rest <- sample_pool (removelast (set_nth (Z.to_nat j) moved pool)) k' ;;
      ret (picked :: rest)
  end.

(** [random.sample(population, k)]. *)
Definition sample {A} (population : list A) (k : Z) : M F (list A) :=
  if ((k <? 0) || (Z.of_nat (List.length population) <? k))%Z%bool
  then raise ValueError
  else sample_pool population (Z.to_nat k).

(** *** Faker *)

(** [Faker.seed(s)]. *)
Definition Faker_seed (s : Z) : M F unit :=
  fun w => Ok (tt, {| rnd := rnd w; fk := {| seed_of := s; taken := 0%N |};
                      ticks := ticks w; db := db w |}).

Definition advance_fk (w : world F) : world F :=
  {| rnd := rnd w; fk := {| seed_of := seed_of (fk w); taken := N.succ (taken (fk w)) |};
     ticks := ticks w; db := db w |}.

(** A provider call that returns text ([fake.last_name()], [fake.city()],
    [fake.ssn()], [fake.ipv4()], ...). *)
Definition fake_text : M F string :=
  fun w => Ok (fk_text E (seed_of (fk w)) (taken (fk w)), advance_fk w).

(** A provider call that returns a date or a timestamp
    ([fake.date_between(...)], [fake.date_time_between(...)],
    [fake.date_of_birth(...)]); the bounds passed by the script are not
    interpreted, the draw is any value the provider may return. *)
Definition fake_when : M F Z :=
  fun w => Ok (fk_num E (seed_of (fk w)) (taken (fk w)), advance_fk w).

(** *** The clock *)

(** [datetime.datetime.now()]. *)
Definition now : M F datetime :=
  fun w => Ok (wall_clock E (ticks w),
               {| rnd := rnd w; fk := fk w; ticks := N.succ (ticks w); db := db w |}).

(** [datetime.date.today()]. *)
Definition today : M F date :=
  t <- now ;; ret (t / usec_per_day)%Z.

(** [reset_seeds()]. *)
Definition reset_seeds : M F unit :=
  Faker_seed 42 ;;; random_seed 42.


(** *** Stage 2: [generate_banks] *)

Definition bank_rows : list bank :=
  [ {| b_bank_name := "First National Bank"; b_swift_code := "FNBAUS33";
       b_country := "USA"; b_headquarters_city := "New York";
       b_established_date := "1863-06-03" |};
    {| b_bank_name := "Global Trust Bank"; b_swift_code := "GTBKUS44";
       b_country := "USA"; b_headquarters_city := "San Francisco";
       b_established_date := "1985-04-15" |};
    {| b_bank_name := "Community Savings Bank"; b_swift_code := "CSBKUS66";
       b_country := "USA"; b_headquarters_city := "Chicago";
       b_established_date := "1924-11-20" |};
    {| b_bank_name := "Digital First Bank"; b_swift_code := "DFBKUS77";
       b_country := "USA"; b_headquarters_city := "Austin";
       b_established_date := "2018-01-10" |};
    {| b_bank_name := "Metropolitan Bank & Trust"; b_swift_code := "MBTCUS22";
       b_country := "USA"; b_headquarters_city := "Los Angeles";
       b_established_date := "1962-07-08" |} ].

(** [INSERT OR IGNORE INTO banks]: a row whose [swift_code] is already
    present is dropped. *)
Definition insert_bank (tbl : list bank) (b : bank) : list bank :=
  if existsb (fun r => String.eqb (b_swift_code r) (b_swift_code b)) tbl
  then tbl else tbl ++ [b].

Definition add_banks (s : store F) (rows : list bank) : store F :=
  {| banks := fold_left insert_bank rows (banks s);
     customers := customers s; users := users s; accounts := accounts s;
     account_customers := account_customers s;
     transactions := transactions s; loans := loans s;
     payments := payments s; chat_history := chat_history s |}.

Definition generate_banks : M F unit :=
  s <- get_db ;; set_db (add_banks s bank_rows).

(** *** Stage 3: [generate_customers] *)

(** One iteration of the loop over [range(count)]: the record of ordinal [i]. *)
Definition customer_row (i : Z) : M F (customer F) :=
  ' (last_name, city, state, address, zip_code) <-
    (if mem i [101; 102; 103]%Z then
       n <- randint 100 105 ;;
       ret ("Johnson", "Miami", "FL", str_Z n ++ " Oak Street", "33101")%string
     else
       last_name <- fake_text ;;
       city <- fake_text ;;
       state <- fake_text ;;
       address <- fake_text ;;
       zip_code <- fake_text ;;
       ret (last_name, city, state, address, zip_code)) ;;
  ' (is_pep, risk_rating, annual_income) <-
    (if (i =? 249)%Z then ret (true, HIGH, of_int 15000000)
     else
       is_pep <- choice (repeat false 99 ++ [true]) ;;
       risk_rating <- choice (repeat LOW 70 ++ repeat MEDIUM 25 ++ repeat HIGH 5) ;;
       annual_income <- uniform (of_int 25000) (of_int 250000) ;;
       ret (is_pep, risk_rating, annual_income)) ;;
  ssn <- fake_text ;;
  let ssn_hash := sha256_hex E (ssn ++ "-" ++ str_Z i)%string in
  first_name <- fake_text ;;
  date_of_birth <- fake_when ;;
  suffix <- randint 100 999 ;;
  domain <- fake_text ;;
  phone <- fake_text ;;
  customer_since <- fake_when ;;
  credit_score <- randint 300 850 ;;
  employment_status <-
    choice [EMPLOYED; SELF_EMPLOYED; RETIRED; STUDENT; UNEMPLOYED] ;;
  ret {| c_first_name := first_name;
         c_last_name := last_name;
         c_date_of_birth := date_of_birth;
         c_ssn_hash := ssn_hash;
         c_email := (lower first_name ++ "." ++ lower last_name ++ str_Z i
                     ++ str_Z suffix ++ "@" ++ domain)%string;
         c_phone := phone;
         c_address := address;
         c_city := city;
         c_state := state;
         c_zip_code := zip_code;
         c_customer_since := customer_since;
         c_credit_score := credit_score;
         c_annual_income := annual_income;
         c_employment_status := employment_status;
         c_is_pep := is_pep;
         c_risk_rating := risk_rating |}.

Definition add_customers (s : store F) (rows : list (customer F)) : store F :=
  {| banks := banks s; customers := customers s ++ rows;
            users := users s; accounts := accounts s;
            account_customers := account_customers s;
            transactions := transactions s; loans := loans s;
            payments := payments s; chat_history := chat_history s |}.

Definition insert_customers (rows : list (customer F)) : M F unit :=
  s <- get_db ;; set_db (add_customers s rows).

Definition generate_customers (count : Z) : M F unit :=
  Faker_seed (42 + count) ;;;
  rows <- foldM (fun rows i => c <- customer_row i ;; ret (rows ++ [c]))
                (range count) [] ;;
  insert_customers rows.

(** *** Stage 4: [generate_users] *)

Definition user_row (customer_id : Z) : M F user :=
  created_at <- fake_when ;;
  last_login <- fake_when ;;
  ' (failed_attempts, is_active) <-
    (if (customer_id =? 250)%Z then ret (47%Z, false)
     else
       n <- choice (repeat 0%Z 80 ++ repeat 1%Z 15 ++ repeat 2%Z 4 ++ [3%Z]) ;;
       ret (n, true)) ;;
  two_factor <- choice [false; false; false; true] ;;
  ret {| u_customer_id := customer_id;
         u_username := ("user" ++ str_Z customer_id)%string;
         u_password_hash := sha256_hex E ("password" ++ str_Z customer_id)%string;
         u_created_at := created_at;
         u_last_login := last_login;
         u_is_active := is_active;
         u_failed_login_attempts := failed_attempts;
         u_two_factor_enabled := two_factor |}.

Definition add_users (s : store F) (rows : list user) : store F :=
  {| banks := banks s; customers := customers s;
            users := users s ++ rows; accounts := accounts s;
            account_customers := account_customers s;
            transactions := transactions s; loans := loans s;
            payments := payments s; chat_history := chat_history s |}.

Definition insert_users (rows : list user) : M F unit :=
  s <- get_db ;; set_db (add_users s rows).

Definition generate_users : M F unit :=
  s <- get_db ;;
  let customer_ids := row_ids (customers s) in
  chosen <- sample customer_ids
              (to_int (of_int (Z.of_nat (List.length customer_ids)) * dec 8 1)) ;;
  rows <- foldM (fun rows customer_id => u <- user_row customer_id ;; ret (rows ++ [u]))
                chosen [] ;;
  insert_users rows.

(** *** Stage 5: [generate_accounts] *)

(** One iteration of the inner loop: account [j] of the customer at
    position [i] of [customer_ids]. *)
Definition account_row (bank_ids : list Z) (i customer_id j : Z) : M F (account F) :=
  bank_id <- choice bank_ids ;;
  account_type <- choice [CHECKING; SAVINGS; MONEY_MARKET; CD] ;;
  balance <-
    (if (customer_id =? 250)%Z then
       if (j =? 0)%Z then ret (of_int 5000000)
       else uniform (of_int 1000) (of_int 50000)
     else uniform (of_int 100) (of_int 100000)) ;;
  opened_date <- fake_when ;;
  interest_rate <-
    match account_type with
    | SAVINGS => uniform (dec 1 2) (dec 5 2)
    | MONEY_MARKET => uniform (dec 2 2) (dec 6 2)
    | CD => uniform (dec 3 2) (dec 7 2)
    | CHECKING => ret (of_int 0)
    end ;;
  overdraft_limit <-
    match account_type with
    | CHECKING => choice [0; 500; 1000]%Z
    | _ => ret 0%Z
    end ;;
  ret {| a_account_number := str_Z (1000000000 + i * 10 + j);
         a_bank_id := bank_id;
         a_account_type := account_type;
         a_balance := balance;
         a_currency := "USD";
         a_opened_date := opened_date;
         a_closed_date := None;
         a_status := ACTIVE;
         a_interest_rate := interest_rate;
         a_overdraft_limit := overdraft_limit |}.

(** The body of the loop over [enumerate(customer_ids)]. *)
Definition customer_accounts (bank_ids : list Z) (rows : list (account F))
    (ic : Z * Z) : M F (list (account F)) :=
  let '(i, customer_id) := ic in
  num_accounts <- choices [1; 2; 3; 4]%Z [40; 35; 20; 5]%Z ;;
  foldM (fun rows j => a <- account_row bank_ids i customer_id j ;; ret (rows ++ [a]))
        (range num_accounts) rows.

Definition add_accounts (s : store F) (rows : list (account F)) : store F :=
  {| banks := banks s; customers := customers s; users := users s;
            accounts := accounts s ++ rows;
            account_customers := account_customers s;
            transactions := transactions s; loans := loans s;
            payments := payments s; chat_history := chat_history s |}.

Definition insert_accounts (rows : list (account F)) : M F unit :=
  s <- get_db ;; set_db (add_accounts s rows).

(** The PRIMARY row of the account at position [i] of [account_ids]. *)
Definition primary_row (customer_ids : list Z) (rows : list ownership)
    (ia : Z * Z) : M F (list ownership) :=
  let '(i, account_id) := ia in
  if Nat.eqb (List.length customer_ids) 0 then raise ZeroDivisionError
  else
    customer_id <- index customer_ids (i mod Z.of_nat (List.length customer_ids))%Z ;;
    added_date <- fake_when ;;
    ret (rows ++ [ {| ac_account_id := account_id;
                      ac_customer_id := customer_id;
                      ac_relationship_type := PRIMARY;
                      ac_added_date := added_date |} ]).

(** A JOINT row on [joint_account_id]. *)
Definition joint_row (joint_account_id : Z) (rows : list ownership)
    (cust_id : Z) : M F (list ownership) :=
  added_date <- fake_when ;;
  ret (rows ++ [ {| ac_account_id := joint_account_id;
                    ac_customer_id := cust_id;
                    ac_relationship_type := JOINT;
                    ac_added_date := added_date |} ]).

Definition same_key (r1 r2 : ownership) : bool :=
  ((ac_account_id r1 =? ac_account_id r2) && (ac_customer_id r1 =? ac_customer_id r2))%Z%bool.

(** [INSERT OR IGNORE INTO account_customers]: a row whose composite key
    [(account_id, customer_id)] is already present is dropped. *)
Definition insert_ownership (tbl : list ownership) (r : ownership) : list ownership :=
  if existsb (same_key r) tbl then tbl else tbl ++ [r].

Definition add_account_customers (s : store F) (rows : list ownership) : store F :=
  {| banks := banks s; customers := customers s; users := users s;
            accounts := accounts s;
            account_customers := fold_left insert_ownership rows (account_customers s);
            transactions := transactions s; loans := loans s;
            payments := payments s; chat_history := chat_history s |}.

Definition insert_account_customers (rows : list ownership) : M F unit :=
  s <- get_db ;; set_db (add_account_customers s rows).

Definition johnson_customers : list Z := [101; 102; 103].

Definition generate_accounts : M F unit :=
  s <- get_db ;;
  let customer_ids := row_ids (customers s) in
  let bank_ids := row_ids (banks s) in
  rows <- foldM (customer_accounts bank_ids) (enumerate customer_ids) [] ;;
  insert_accounts rows ;;;
  s <- get_db ;;
  let account_ids := row_ids (accounts s) in
  owners <- foldM (primary_row customer_ids) (enumerate account_ids) [] ;;
  joint_account_id <- index account_ids 150 ;;
  owners <- foldM (joint_row joint_account_id) johnson_customers owners ;;
  insert_account_customers owners.

(** *** Stage 6: [generate_transactions] *)

Definition categories : list (string * list string) :=
  [ ("GROCERIES", ["Whole Foods"; "Kroger"; "Safeway"; "Trader Joes"]);
    ("UTILITIES", ["Electric Company"; "Water Department"; "Gas Company";
                   "Internet Provider"]);
    ("ENTERTAINMENT", ["Netflix"; "Spotify"; "AMC Theaters"; "Live Nation"]);
    ("DINING", ["Starbucks"; "McDonalds"; "Chipotle"; "Local Restaurant"]);
    ("SHOPPING", ["Amazon"; "Target"; "Walmart"; "Best Buy"]);
    ("TRANSPORTATION", ["Uber"; "Shell Gas"; "Chevron"; "Public Transit"]);
    ("HEALTHCARE", ["CVS Pharmacy"; "Walgreens"; "Medical Center"; "Dental Office"]);
    ("EDUCATION", ["University"; "Online Course Platform"; "Bookstore"]);
    ("TRAVEL", ["Delta Airlines"; "Marriott Hotels"; "Airbnb"; "Expedia"]);
    ("FINANCIAL", ["ATM Withdrawal"; "Wire Transfer"; "Investment Transfer"]) ]%string.

(** [SELECT account_id, balance FROM accounts WHERE status = "ACTIVE"]. *)
Definition select_active_accounts (s : store F) : list (Z * F) :=
  map (fun ka => (fst ka, a_balance (snd ka)))
      (filter (fun ka => status_eqb (a_status (snd ka)) ACTIVE) (keyed (accounts s))).

(** The join of [accounts] and [account_customers] restricted to customer
    250: the account ids of that customer's ownership rows, in row order. *)
Definition select_customer_250_accounts (s : store F) : list Z :=
  map ac_account_id
      (filter (fun r => ((ac_customer_id r =? 250)
                         && (1 <=? ac_account_id r)
                         && (ac_account_id r <=? Z.of_nat (List.length (accounts s))))%Z%bool)
              (account_customers s)).

(** The guard [i >= 2000 and i <= 2050 and customer_250_accounts]. *)
Definition in_window (i : Z) (customer_250_accounts : list Z) : bool :=
  ((2000 <=? i)%Z && (i <=? 2050)%Z
   && negb (Nat.eqb (List.length customer_250_accounts) 0))%bool.

(** The account selection at the top of the loop body.  [carried] holds
    [account_id, current_balance] as the previous iteration left them: the
    search loop assigns them only when it finds the account. *)
Definition select_account (accts : list (Z * F)) (customer_250_accounts : list Z)
    (carried : option (Z * F)) (i : Z) : M F (option (Z * F)) :=
  if in_window i customer_250_accounts then
    match find (fun p => (fst p =? hd 0 customer_250_accounts)%Z) accts with
    | Some p => ret (Some p)
    | None => ret carried
    end
  else p <- choice accts ;; ret (Some p).

(** [balance_after] from the balance the iteration selected. *)
Definition balance_after_of (transaction_type : txn_type) (current_balance amount : F) : F :=
  match transaction_type with
  | DEPOSIT | INTEREST => current_balance + amount
  | _ => current_balance - amount
  end.

(** The fields the two branches of the loop body decide:
    type, amount, date, category, merchant, location, flag. *)
Definition txn_details (accts : list (Z * F)) (customer_250_accounts : list Z)
    (account_id : Z) (i : Z)
  : M F (txn_type * F * datetime * string * string * string * bool) :=
  if (in_window i customer_250_accounts
      && (account_id =? hd 0 customer_250_accounts)%Z)%bool then
    amount <- uniform (of_int 495) (of_int 499) ;;
    t <- now ;;
    location <- choice ["Miami, FL"; "New York, NY"; "Los Angeles, CA"]%string ;;
    ret (WITHDRAWAL, amount, (t - (30 * usec_per_day + (i - 2000) * usec_per_hour))%Z,
         "FINANCIAL", "ATM Withdrawal", location, true)%string
  else
    transaction_type <-
      choices [DEPOSIT; WITHDRAWAL; TRANSFER; FEE; INTEREST] [15; 60; 20; 3; 2]%Z ;;
    ' (amount, category, merchant) <-
      match transaction_type with
      | DEPOSIT =>
          amount <- uniform (of_int 500) (of_int 5000) ;;
          ret (amount, "FINANCIAL", "Direct Deposit")%string
      | WITHDRAWAL =>
          amount <- uniform (of_int 10) (of_int 500) ;;
          cm <- choice categories ;;
          merchant <- choice (snd cm) ;;
          ret (amount, fst cm, merchant)
      | TRANSFER =>
          amount <- uniform (of_int 100) (of_int 2000) ;;
          ret (amount, "FINANCIAL", "Internal Transfer")%string
      | FEE =>
          fee <- choice [5; 10; 15; 25; 35]%Z ;;
          ret (of_int fee, "FINANCIAL", "Bank Fee")%string
      | INTEREST =>
          amount <- uniform (dec 1 2) (of_int 50) ;;
          ret (amount, "FINANCIAL", "Interest Payment")%string
      end ;;
    transaction_date <- fake_when ;;
    city <- fake_text ;;
    state <- fake_text ;;
    ret (transaction_type, amount, transaction_date, category, merchant,
         (city ++ ", " ++ state)%string, false).

(** The loop body: the carried variables and the rows so far, then index [i]. *)
Definition txn_step (accts : list (Z * F)) (customer_250_accounts : list Z)
    (st : option (Z * F) * list (transaction F)) (i : Z)
  : M F (option (Z * F) * list (transaction F)) :=
  let '(carried, rows) := st in
  sel <- select_account accts customer_250_accounts carried i ;;
  match sel with
  | None => raise NameError
  | Some (account_id, current_balance) =>
      ' (transaction_type, amount, transaction_date, category, merchant,
         location, is_flagged) <-
        txn_details accts customer_250_accounts account_id i ;;
      let balance_after := balance_after_of transaction_type current_balance amount in
      t <- now ;;
      let reference_number := ("TXN" ++ strftime_Ymd E t ++ pad6 i)%string in
      ip_address <- fake_text ;;
      device <- randint 1000 9999 ;;
      ret (sel,
           rows ++ [ {| t_account_id := account_id;
                        t_transaction_type := transaction_type;
                        t_amount := amount;
                        t_balance_after := balance_after;
                        t_transaction_date := transaction_date;
                        t_description :=
                          (txn_type_str transaction_type ++ " - " ++ merchant)%string;
                        t_category := category;
                        t_merchant_name := merchant;
                        t_reference_number := reference_number;
                        t_related_transaction_id := None;
                        t_location := location;
                        t_ip_address := ip_address;
                        t_device_id := ("DEVICE_" ++ str_Z device)%string;
                        t_is_flagged := is_flagged |} ])
  end.

Definition add_transactions (s : store F) (rows : list (transaction F)) : store F :=
  {| banks := banks s; customers := customers s; users := users s;
            accounts := accounts s; account_customers := account_customers s;
            transactions := transactions s ++ rows; loans := loans s;
            payments := payments s; chat_history := chat_history s |}.

Definition insert_transactions (rows : list (transaction F)) : M F unit :=
  s <- get_db ;; set_db (add_transactions s rows).

Definition generate_transactions (count : Z) : M F unit :=
  s <- get_db ;;
  let accts := select_active_accounts s in
  let customer_250_accounts := select_customer_250_accounts s in
  st <- foldM (txn_step accts customer_250_accounts) (range count) (None, []) ;;
  insert_transactions (snd st).

(** *** Stage 7: [generate_loans] *)

(** The amortization expression of the script, with [monthly_rate] already
    divided out of the annual rate. *)
Definition amortized_payment (principal monthly_rate : F) (term_months : Z) : F :=
  (principal * monthly_rate * (of_int 1 + monthly_rate) ** term_months)
  / ((of_int 1 + monthly_rate) ** term_months - of_int 1).

(** [min(a, b)] as Python evaluates it: [b] only when [b < a]. *)
Definition py_min (a b : F) : F := if b <? a then b else a.

(** One iteration of the loop over the sampled customers. *)
Definition loan_row (bank_ids : list Z) (c : Z * Z * F) : M F (loan F) :=
  let '(customer_id, credit_score, annual_income) := c in
  let '(loan_types, interest_rate_base) :=
    if (750 <=? credit_score)%Z then ([MORTGAGE; AUTO; PERSONAL], dec 3 2)
    else if (650 <=? credit_score)%Z then ([AUTO; PERSONAL], dec 5 2)
    else ([PERSONAL], dec 8 2) in
  loan_type <- choice loan_types ;;
  bank_id <- choice bank_ids ;;
  ' (principal, term_months, interest_rate) <-
    match loan_type with
    | MORTGAGE =>
        principal <- uniform (of_int 150000) (of_int 1000000) ;;
        term_months <- choice [180; 360]%Z ;;
        extra <- uniform (of_int 0) (dec 2 2) ;;
        ret (principal, term_months, interest_rate_base + extra)
    | AUTO =>
        principal <- uniform (of_int 15000) (of_int 75000) ;;
        term_months <- choice [36; 48; 60; 72]%Z ;;
        extra <- uniform (dec 1 2) (dec 3 2) ;;
        ret (principal, term_months, interest_rate_base + extra)
    | PERSONAL =>
        principal <- uniform (of_int 5000) (of_int 50000) ;;
        term_months <- choice [12; 24; 36; 48; 60]%Z ;;
        extra <- uniform (dec 2 2) (dec 5 2) ;;
        ret (principal, term_months, interest_rate_base + extra)
    end ;;
  let monthly_rate := interest_rate / of_int 12 in
  let monthly_payment := amortized_payment principal monthly_rate term_months in
  origination_date <- fake_when ;;
  let maturity_date := (origination_date + term_months * 30)%Z in
  ' (delinquency_days, status, remaining_balance) <-
    (if mem customer_id [101; 102; 103]%Z then
       delinquency_days <- randint 30 90 ;;
       ret (delinquency_days,
            if (60 <? delinquency_days)%Z then DEFAULTED else ACTIVE,
            principal * dec 85 2)
     else
       delinquency_days <- choices [0; 0; 0; 0; 15; 30]%Z [70; 10; 10; 5; 3; 2]%Z ;;
       d <- today ;;
       let months_elapsed := ((d - origination_date) / 30)%Z in
       ret (delinquency_days,
            if (delinquency_days <? 60)%Z then ACTIVE else DEFAULTED,
            if (0 <? months_elapsed)%Z then
              let payments_made :=
                py_min (of_int months_elapsed) (of_int term_months * dec 3 1) in
              principal * (of_int 1 - payments_made / of_int term_months)
            else principal)) ;;
  ret {| l_customer_id := customer_id;
         l_bank_id := bank_id;
         l_loan_type := loan_type;
         l_principal_amount := principal;
         l_interest_rate := interest_rate;
         l_term_months := term_months;
         l_monthly_payment := monthly_payment;
         l_remaining_balance := remaining_balance;
         l_origination_date := origination_date;
         l_maturity_date := maturity_date;
         l_status := status;
         l_collateral_value :=
           match loan_type with
           | MORTGAGE | AUTO => Some (principal * dec 12 1)
           | PERSONAL => None
           end;
         l_collateral_type :=
           match loan_type with
           | MORTGAGE => Some REAL_ESTATE
           | AUTO => Some VEHICLE
           | PERSONAL => None
           end;
         l_delinquency_days := delinquency_days |}.

Definition add_loans (s : store F) (rows : list (loan F)) : store F :=
  {| banks := banks s; customers := customers s; users := users s;
            accounts := accounts s; account_customers := account_customers s;
            transactions := transactions s; loans := loans s ++ rows;
            payments := payments s; chat_history := chat_history s |}.

Definition insert_loans (rows : list (loan F)) : M F unit :=
  s <- get_db ;; set_db (add_loans s rows).

(** [SELECT customer_id, credit_score, annual_income FROM customers]. *)
Definition select_customer_scores (s : store F) : list (Z * Z * F) :=
  map (fun kc => (fst kc, c_credit_score (snd kc), c_annual_income (snd kc)))
      (keyed (customers s)).

Definition generate_loans : M F unit :=
  s <- get_db ;;
  let bank_ids := row_ids (banks s) in
  chosen <- sample (select_customer_scores s) 200 ;;
  rows <- foldM (fun rows c => l <- loan_row bank_ids c ;; ret (rows ++ [l]))
                chosen [] ;;
  insert_loans rows.

(** *** Stage 8: [generate_payments] *)

(** The body of the loop over the months of one loan: [None] is the
    [continue] of a skipped payment. *)
Definition payment_row (loan_id : Z) (monthly_payment : F) (origination_date : date)
    (customer_id : Z) (month : Z) : M F (option (payment F)) :=
  let scheduled_date := (origination_date + month * 30)%Z in
  irregular <-
    (if (mem customer_id [101; 102; 103]%Z && (12 <? month)%Z)%bool then
       u <- random ;;
       if dec 5 1 <? u then ret None
       else
         late <- randint 15 45 ;;
         factor <- uniform (dec 5 1) (dec 8 1) ;;
         ret (Some ((scheduled_date + late)%Z, monthly_payment * factor, dec 5000 2))
     else
       days_late <- choices [0; 0; 0; 3; 7; 15]%Z [70; 10; 10; 5; 3; 2]%Z ;;
       ret (Some ((scheduled_date + days_late)%Z, monthly_payment,
                  if (5 <? days_late)%Z then dec 2500 2 else of_int 0))) ;;
  match irregular with
  | None => ret None
  | Some (payment_date, amount, late_fee) =>
      let interest_paid := amount * dec 3 1 in
      let principal_paid := amount * dec 7 1 - late_fee in
      let '(is_reversed, reversal_reason) :=
        if ((loan_id =? 150)%Z && (month =? 15)%Z)%bool
        then (true, Some "Insufficient funds - payment reversed after 3 days"%string)
        else (false, None) in
      method <- choice [AUTO_DEBIT; ONLINE; CHECK; CASH] ;;
      ret (Some {| p_loan_id := loan_id;
                   p_payment_date := payment_date;
                   p_scheduled_date := scheduled_date;
                   p_amount := amount;
                   p_principal_paid := principal_paid;
                   p_interest_paid := interest_paid;
                   p_late_fee := late_fee;
                   p_payment_method := method;
                   p_transaction_id := None;
                   p_is_reversed := is_reversed;
                   p_reversal_reason := reversal_reason |})
  end.

(** The body of the loop over the selected loans. *)
Definition loan_payments (rows : list (payment F)) (kl : Z * loan F)
  : M F (list (payment F)) :=
  let '(loan_id, l) := kl in
  d <- today ;;
  let months_since_origination := ((d - l_origination_date l) / 30)%Z in
  foldM (fun rows month =>
           p <- payment_row loan_id (l_monthly_payment l) (l_origination_date l)
                            (l_customer_id l) month ;;
           ret (match p with Some r => rows ++ [r] | None => rows end))
        (range (Z.min months_since_origination 36)) rows.

Definition add_payments (s : store F) (rows : list (payment F)) : store F :=
  {| banks := banks s; customers := customers s; users := users s;
            accounts := accounts s; account_customers := account_customers s;
            transactions := transactions s; loans := loans s;
            payments := payments s ++ rows; chat_history := chat_history s |}.

Definition insert_payments (rows : list (payment F)) : M F unit :=
  s <- get_db ;; set_db (add_payments s rows).

(** [SELECT ... FROM loans WHERE status IN ('ACTIVE', 'DEFAULTED')]. *)
Definition select_open_loans (s : store F) : list (Z * loan F) :=
  filter (fun kl => (status_eqb (l_status (snd kl)) ACTIVE
                     || status_eqb (l_status (snd kl)) DEFAULTED)%bool)
         (keyed (loans s)).

Definition generate_payments : M F unit :=
  s <- get_db ;;
  rows <- foldM loan_payments (select_open_loans s) [] ;;
  insert_payments rows.

(** *** Stage 9: [generate_chat_history] *)

Definition chat_topics : list (topic * list string) :=
  [ (ACCOUNT_INQUIRY, ["I need to check my balance"; "Why was I charged a fee?";
                       "Can you explain this transaction?";
                       "I want to open a new account"]);
    (DISPUTE, ["This transaction wasn't mine"; "I was charged twice";
               "Fraudulent activity on my account"; "Unauthorized withdrawal"]);
    (LOAN, ["I need information about my loan"; "Can I refinance?";
            "Payment didn't go through"; "Late payment fee dispute"]);
    (TECHNICAL, ["Can't log into online banking"; "App keeps crashing";
                 "Two-factor authentication issues"; "Password reset needed"]);
    (COMPLAINT, ["Terrible service at branch"; "Been on hold for an hour";
                 "Account frozen without notice"; "Discrimination complaint"]) ]%string.

Definition topic_eqb (a b : topic) : bool :=
  match a, b with
  | ACCOUNT_INQUIRY, ACCOUNT_INQUIRY | DISPUTE, DISPUTE | LOAN, LOAN
  | TECHNICAL, TECHNICAL | COMPLAINT, COMPLAINT => true
  | _, _ => false
  end.

(** [chat_topics[topic]]. *)
Definition topic_messages (t : topic) : list string :=
  match find (fun p => topic_eqb (fst p) t) chat_topics with
  | Some p => snd p
  | None => []
  end.

(** [user_mappings.get(customer_id)] for the dictionary built from
    [SELECT user_id, customer_id FROM users]: the last row of the customer. *)
Definition user_of_customer (s : store F) (customer_id : Z) : option Z :=
  fold_left (fun found ku => if (u_customer_id (snd ku) =? customer_id)%Z
                             then Some (fst ku) else found)
            (keyed (users s)) None.

Definition dq : string := String (ascii_of_nat 34) EmptyString.

(** One message object of the transcript, as [json.dumps] prints it. *)
Definition json_message (role content timestamp : string) : string :=
  ("{" ++ dq ++ "role" ++ dq ++ ": " ++ dq ++ role ++ dq ++ ", "
       ++ dq ++ "content" ++ dq ++ ": " ++ dq ++ content ++ dq ++ ", "
       ++ dq ++ "timestamp" ++ dq ++ ": " ++ dq ++ timestamp ++ dq ++ "}")%string.

Definition transcript_of (message : string) (session_start : datetime) : string :=
  ("{" ++ dq ++ "messages" ++ dq ++ ": ["
   ++ json_message "customer" message (str_datetime E session_start) ++ ", "
   ++ json_message "agent" "I understand your concern. Let me help you with that."
        (str_datetime E (session_start + usec_per_minute)%Z) ++ ", "
   ++ json_message "customer" "Thank you for looking into this."
        (str_datetime E (session_start + 2 * usec_per_minute)%Z)
   ++ "]}")%string.

(** One iteration of the loop over [range(1000)]. *)
Definition chat_row (s : store F) (customer_ids : list Z) : M F (chat F) :=
  customer_id <- choice customer_ids ;;
  let user_id := user_of_customer s customer_id in
  drawn_topic <- choice (map fst chat_topics) ;;
  ' (topic, sentiment_score, resolution_status) <-
    (if mem customer_id [101; 102; 103]%Z then
       topic <- choices [COMPLAINT; DISPUTE; LOAN; ACCOUNT_INQUIRY] [40; 30; 20; 10]%Z ;;
       sentiment_score <- uniform (dec (-8) 1) (dec (-3) 1) ;;
       resolution_status <- choice [ESCALATED; PENDING] ;;
       ret (topic, sentiment_score, resolution_status)
     else
       match drawn_topic with
       | COMPLAINT =>
           sentiment_score <- uniform (dec (-9) 1) (dec (-3) 1) ;;
           resolution_status <- choice [ESCALATED; RESOLVED; PENDING] ;;
           ret (drawn_topic, sentiment_score, resolution_status)
       | DISPUTE =>
           sentiment_score <- uniform (dec (-5) 1) (dec 2 1) ;;
           resolution_status <- choice [RESOLVED; PENDING; ESCALATED] ;;
           ret (drawn_topic, sentiment_score, resolution_status)
       | _ =>
           sentiment_score <- uniform (dec (-2) 1) (dec 9 1) ;;
           resolution_status <- choice [RESOLVED; RESOLVED; PENDING] ;;
           ret (drawn_topic, sentiment_score, resolution_status)
       end) ;;
  session_start <- fake_when ;;
  session_duration <- randint 5 120 ;;
  let session_end := (session_start + session_duration * usec_per_minute)%Z in
  message <- choice (topic_messages topic) ;;
  let transcript := transcript_of message session_start in
  chan <- choice [WEB; MOBILE; PHONE; BRANCH] ;;
  agent <- randint 100 999 ;;
  ret {| ch_customer_id := customer_id;
         ch_user_id := user_id;
         ch_session_start := session_start;
         ch_session_end := session_end;
         ch_channel := chan;
         ch_agent_id := ("AGENT_" ++ str_Z agent)%string;
         ch_topic := topic;
         ch_sentiment_score := sentiment_score;
         ch_resolution_status := resolution_status;
         ch_transcript := transcript |}.

Definition add_chats (s : store F) (rows : list (chat F)) : store F :=
  {| banks := banks s; customers := customers s; users := users s;
            accounts := accounts s; account_customers := account_customers s;
            transactions := transactions s; loans := loans s;
            payments := payments s; chat_history := chat_history s ++ rows |}.

Definition insert_chats (rows : list (chat F)) : M F unit :=
  s <- get_db ;; set_db (add_chats s rows).

Definition generate_chat_history : M F unit :=
  s <- get_db ;;
  let customer_ids := row_ids (customers s) in
  rows <- foldM (fun rows (_ : Z) => c <- chat_row s customer_ids ;; ret (rows ++ [c]))
                (range 1000) [] ;;
  insert_chats rows.

(** *** The run: [main]

    The old database file is removed and the schema is created on an empty
    file, so the stages start from [empty_store]. *)
Definition main : M F unit :=
  reset_seeds ;;;
  set_db (empty_store F) ;;;
  generate_banks ;;;
  generate_customers 500 ;;;
  generate_users ;;;
  generate_accounts ;;;
  generate_transactions 5000 ;;;
  generate_loans ;;;
  generate_payments ;;;
  generate_chat_history.

End Generator.
(** ** Reasoning about stages *)

(** [wp c Q w]: from [w] the computation [c] returns, and its result and
    final world satisfy [Q]. *)
Definition wp {F A} (c : M F A) (Q : A -> world F -> Prop) (w : world F) : Prop :=
  match c w with
  | Ok (a, w') => Q a w'
  | Raise _ => False
  end.

(** [draws c P]: [c] returns from every world, leaves the database as it
    is, and its result satisfies [P]. *)
Definition draws {F A} (c : M F A) (P : A -> Prop) : Prop :=
  forall w, wp c (fun a w' => db w' = db w /\ P a) w.

Section Rules.

Context {F : Type}.

Lemma wp_ret A (a : A) (Q : A -> world F -> Prop) w : Q a w -> wp (ret a) Q w.
Proof. exact (fun H => H). Qed.

Lemma wp_bind A B (c : M F A) (k : A -> M F B) (Q : B -> world F -> Prop) w :
  wp c (fun a w' => wp (k a) Q w') w -> wp (bind c k) Q w.
Proof.
  unfold wp, bind. destruct (c w) as [[a w']|e]; auto.
Qed.

Lemma wp_bind_inv A B (c : M F A) (k : A -> M F B) (Q : B -> world F -> Prop) w :
  wp (bind c k) Q w -> wp c (fun a w' => wp (k a) Q w') w.
Proof.
  unfold wp, bind. destruct (c w) as [[a w']|e]; auto.
Qed.

Lemma wp_mono A (c : M F A) (Q Q' : A -> world F -> Prop) w :
  (forall a w', Q a w' -> Q' a w') -> wp c Q w -> wp c Q' w.
Proof.
  unfold wp. intros H. destruct (c w) as [[a w']|e]; auto.
Qed.

Lemma wp_conj A (c : M F A) (Q Q' : A -> world F -> Prop) w :
  wp c Q w -> wp c Q' w -> wp c (fun a w' => Q a w' /\ Q' a w') w.
Proof.
  unfold wp. destruct (c w) as [[a w']|e]; auto.
Qed.

Lemma wp_draws A (c : M F A) (P : A -> Prop) (Q : A -> world F -> Prop) w :
  draws c P -> (forall a w', db w' = db w -> P a -> Q a w') -> wp c Q w.
Proof.
  intros Hc HQ. eapply wp_mono; [|apply Hc]. intros a w' [H1 H2]. auto.
Qed.

Lemma wp_get_db (Q : store F -> world F -> Prop) w : Q (db w) w -> wp get_db Q w.
Proof. exact (fun H => H). Qed.

Lemma draws_ret A (a : A) (P : A -> Prop) : P a -> draws (ret (F:=F) a) P.
Proof. intros H w. split; [reflexivity | exact H]. Qed.

Lemma draws_bind A B (c : M F A) (k : A -> M F B) (P : A -> Prop) (Q : B -> Prop) :
  draws c P -> (forall a, P a -> draws (k a) Q) -> draws (bind c k) Q.
Proof.
  intros Hc Hk w. apply wp_bind. eapply wp_mono; [|apply Hc].
  intros a w' [Hdb Ha]. eapply wp_mono; [|apply (Hk a Ha)].
  intros b w'' [Hdb' Hb]. split; [congruence | exact Hb].
Qed.

Lemma draws_mono A (c : M F A) (P P' : A -> Prop) :
  (forall a, P a -> P' a) -> draws c P -> draws c P'.
Proof.
  intros H Hc w. eapply wp_mono; [|apply Hc]. intros a w' [H1 H2]. auto.
Qed.

Lemma draws_index A (xs : list A) (i : Z) :
  0 <= i < Z.of_nat (List.length xs) ->
  draws (index (F:=F) xs i) (fun x => nth_error xs (Z.to_nat i) = Some x).
Proof.
  intros Hi w. unfold index, wp.
  destruct (Z.ltb_spec i 0); [lia|].
  destruct (nth_error xs (Z.to_nat i)) eqn:Hn.
  - split; reflexivity.
  - apply nth_error_None in Hn. lia.
Qed.

Lemma draws_bind_assoc A B C (c : M F A) (k1 : A -> M F B) (k2 : B -> M F C)
    (Q : C -> Prop) :
  draws (bind c (fun a => bind (k1 a) k2)) Q -> draws (bind (bind c k1) k2) Q.
Proof.
  intros H w. specialize (H w). unfold wp, bind in *.
  destruct (c w) as [[a w']|e]; auto.
Qed.

Lemma draws_ret_bind A B (a : A) (k : A -> M F B) (Q : B -> Prop) :
  draws (k a) Q -> draws (bind (ret a) k) Q.
Proof. exact (fun H => H). Qed.

(** The loop rule: an invariant of the prefix already iterated over and the
    loop-carried variables. *)
Lemma draws_foldM A S (body : S -> A -> M F S) :
  forall xs (I : list A -> S -> Prop) s,
    I [] s ->
    (forall pre x s, In x xs -> I pre s -> draws (body s x) (I (pre ++ [x]))) ->
    draws (foldM body xs s) (I xs).
Proof.
  induction xs as [|x rest IH]; intros I s Hs Hbody.
  - apply draws_ret. exact Hs.
  - simpl. eapply draws_bind.
    + apply (Hbody [] x s); [left; reflexivity | exact Hs].
    + intros s' Hs'. apply (IH (fun pre => I (x :: pre))); [exact Hs'|].
      intros pre y s0 Hy Hpre. apply (Hbody (x :: pre) y s0); [right; exact Hy | exact Hpre].
Qed.

End Rules.

(** An append loop: every element of [xs] contributes the row [f x]. *)
Lemma draws_foldM_app {F A R} (f : A -> M F R) (P : A -> R -> Prop) :
  forall xs rows,
    (forall x, In x xs -> draws (f x) (P x)) ->
    draws (foldM (fun rows x => r <- f x ;; ret (rows ++ [r])) xs rows)
          (fun out => exists new, out = rows ++ new /\ Forall2 P xs new).
Proof.
  induction xs as [|x rest IH]; intros rows Hf.
  - apply draws_ret. exists []. split; [symmetry; apply app_nil_r | constructor].
  - simpl. eapply draws_bind.
    + eapply draws_bind; [apply Hf; left; reflexivity|].
      intros r Hr. apply draws_ret with (P := fun out => exists r, out = rows ++ [r] /\ P x r).
      exists r. split; [reflexivity | exact Hr].
    + intros s' [r [-> Hr]].
      eapply draws_mono; [|apply IH; intros y Hy; apply Hf; right; exact Hy].
      intros out [new [-> Hnew]]. exists (r :: new). split.
      * rewrite <- app_assoc. reflexivity.
      * constructor; assumption.
Qed.

Lemma set_nth_length A (j : nat) (v : A) (pool : list A) :
  List.length (set_nth j v pool) = List.length pool.
Proof.
  revert j. induction pool as [|x t IH]; intros [|j]; simpl; auto.
Qed.

Lemma set_nth_In A (j : nat) (v x : A) (pool : list A) :
  In x (set_nth j v pool) -> x = v \/ In x pool.
Proof.
  revert j. induction pool as [|y t IH]; intros [|j]; simpl; auto.
  - intros [H|H]; auto.
  - intros [H|H]; auto. destruct (IH _ H); auto.
Qed.

Lemma removelast_In A (x : A) (l : list A) : In x (removelast l) -> In x l.
Proof.
  induction l as [|y t IH]; simpl; auto.
  destruct t as [|z t']; [intros []|].
  intros [H|H]; auto.
Qed.

Lemma removelast_len A (l : list A) :
  List.length (removelast l) = (List.length l - 1)%nat.
Proof.
  induction l as [|y t IH]; simpl; auto.
  destruct t as [|z t']; [reflexivity|].
  simpl in *. rewrite IH. lia.
Qed.

Section Primitives.

Context {F : Type} {NF : Num F}.
Variable E : extern.

(** The values [random.random()] can return. *)
Definition unit_variate (u : F) : Prop :=
  exists k, 0 <= k < 2 ^ 53 /\ u = (of_int k / of_int (2 ^ 53))%num.

Lemma draws_next_word : draws (next_word (F:=F) E) (fun _ => True).
Proof. intros w. split; [reflexivity | exact I]. Qed.

Lemma draws_random : draws (random E) unit_variate.
Proof.
  intros w. split; [reflexivity|].
  eexists. split; [|reflexivity]. apply Z.mod_pos_bound. lia.
Qed.

Lemma draws_randbelow n :
  0 < n -> draws (randbelow (F:=F) E n) (fun r => 0 <= r < n).
Proof.
  intros Hn w. split; [reflexivity|]. apply Z.mod_pos_bound. exact Hn.
Qed.

Lemma draws_randint a b :
  a <= b -> draws (randint (F:=F) E a b) (fun r => a <= r <= b).
Proof.
  intros Hab. unfold randint. eapply draws_bind.
  - apply draws_randbelow. lia.
  - intros r Hr. cbv beta in Hr. apply draws_ret. lia.
Qed.

(** The values [random.uniform(a, b)] can return. *)
Definition uniform_value (a b x : F) : Prop :=
  exists u, unit_variate u /\ x = (a + (b - a) * u)%num.

Lemma draws_uniform a b : draws (uniform E a b) (uniform_value a b).
Proof.
  unfold uniform. eapply draws_bind; [apply draws_random|].
  intros u Hu. apply draws_ret. exists u. split; [exact Hu | reflexivity].
Qed.

Lemma draws_choice A (xs : list A) :
  xs <> [] -> draws (choice (F:=F) E xs) (fun x => In x xs).
Proof.
  intros Hxs. destruct xs as [|x0 rest]; [congruence|].
  unfold choice. eapply draws_bind.
  - apply draws_randbelow. change (0 < Z.of_nat (S (List.length rest))). lia.
  - intros r Hr. cbv beta in Hr. eapply draws_mono; [|apply draws_index; exact Hr].
    intros x Hx. eapply nth_error_In; exact Hx.
Qed.

Lemma bisect_le cum (x : F) hi : (bisect cum x hi <= hi)%nat.
Proof.
  revert cum. induction hi as [|h IH]; intros [|c rest]; simpl; try lia.
  destruct (x <? of_int c)%num; [lia|]. specialize (IH rest). lia.
Qed.

Lemma draws_choices A (population : list A) (ws : list Z) :
  List.length (accumulate ws) = List.length population ->
  0 < last (accumulate ws) 0 ->
  population <> [] ->
  draws (choices E population ws) (fun x => In x population).
Proof.
  intros Hlen Htot Hpop. unfold choices.
  rewrite Hlen, Nat.eqb_refl. simpl negb. cbv iota.
  destruct (Z.leb_spec (last (accumulate ws) 0) 0); [lia|].
  eapply draws_bind; [apply draws_random|].
  intros u _.
  assert (Hb := bisect_le (accumulate ws) (u * of_int (last (accumulate ws) 0))%num
                          (List.length population - 1)).
  assert (0 < List.length population)%nat
    by (destruct population; [congruence | simpl; lia]).
  eapply draws_mono; [|apply draws_index; lia].
  intros x Hx. eapply nth_error_In; exact Hx.
Qed.

Lemma draws_sample_pool A (population : list A) :
  forall k pool,
    (k <= List.length pool)%nat ->
    (forall x, In x pool -> In x population) ->
    draws (sample_pool (F:=F) E pool k)
          (fun l => List.length l = k /\ forall x, In x l -> In x population).
Proof.
  induction k as [|k IH]; intros pool Hk Hin.
  - apply draws_ret. split; [reflexivity | intros x []].
  - simpl. eapply draws_bind; [apply draws_randbelow; lia|].
    intros j Hj. cbv beta in Hj. eapply draws_bind; [apply draws_index; exact Hj|].
    intros picked Hpicked. cbv beta in Hpicked. eapply draws_bind; [apply draws_index; lia|].
    intros moved Hmoved. cbv beta in Hmoved. eapply draws_bind.
    + apply IH.
      * rewrite removelast_len, set_nth_length. lia.
      * intros x Hx. apply removelast_In, set_nth_In in Hx.
        destruct Hx as [->|Hx]; [|auto].
        apply Hin. eapply nth_error_In; exact Hmoved.
    + intros rest [Hlen Hrest]. apply draws_ret. split.
      * simpl. rewrite Hlen. reflexivity.
      * intros x [<-|Hx]; [|auto].
        apply Hin. eapply nth_error_In; exact Hpicked.
Qed.

Lemma draws_sample A (population : list A) (k : Z) :
  0 <= k <= Z.of_nat (List.length population) ->
  draws (sample (F:=F) E population k)
        (fun l => List.length l = Z.to_nat k /\ forall x, In x l -> In x population).
Proof.
  intros Hk. unfold sample.
  destruct (Z.ltb_spec k 0); [lia|].
  destruct (Z.ltb_spec (Z.of_nat (List.length population)) k); [lia|].
  simpl. apply draws_sample_pool; [lia | auto].
Qed.

Lemma draws_fake_text : draws (fake_text (F:=F) E) (fun _ => True).
Proof. intros w. split; [reflexivity | exact I]. Qed.

Lemma draws_fake_when : draws (fake_when (F:=F) E) (fun _ => True).
Proof. intros w. split; [reflexivity | exact I]. Qed.

Lemma draws_now : draws (now (F:=F) E) (fun t => exists k, t = wall_clock E k).
Proof. intros w. split; [reflexivity | eexists; reflexivity]. Qed.

Lemma draws_today : draws (today (F:=F) E) (fun _ => True).
Proof.
  unfold today. eapply draws_bind; [apply draws_now|].
  intros t _. apply draws_ret. exact I.
Qed.

End Primitives.

(** *** Loops that extend a list of rows *)

(** Every iteration appends a block of rows described by [P]. *)
Lemma draws_foldM_ext {F A R} (body : list R -> A -> M F (list R))
    (P : A -> list R -> Prop) :
  forall xs rows,
    (forall rows x, In x xs ->
       draws (body rows x) (fun out => exists new, out = rows ++ new /\ P x new)) ->
    draws (foldM body xs rows)
          (fun out => exists news, out = rows ++ List.concat news /\ Forall2 P xs news).
Proof.
  induction xs as [|x rest IH]; intros rows Hbody.
  - apply draws_ret. exists []. split; [symmetry; apply app_nil_r | constructor].
  - simpl. eapply draws_bind; [apply Hbody; left; reflexivity|].
    intros s' [new [-> Hnew]].
    eapply draws_mono; [|apply IH; intros rows' y Hy; apply Hbody; right; exact Hy].
    intros out [news [-> Hnews]]. exists (new :: news). split.
    + simpl. rewrite app_assoc. reflexivity.
    + constructor; assumption.
Qed.

(** Every iteration appends exactly one row described by [P]. *)
Lemma draws_foldM_snoc {F A R} (body : list R -> A -> M F (list R))
    (P : A -> R -> Prop) :
  forall xs rows,
    (forall rows x, In x xs ->
       draws (body rows x) (fun out => exists r, out = rows ++ [r] /\ P x r)) ->
    draws (foldM body xs rows)
          (fun out => exists new, out = rows ++ new /\ Forall2 P xs new).
Proof.
  induction xs as [|x rest IH]; intros rows Hbody.
  - apply draws_ret. exists []. split; [symmetry; apply app_nil_r | constructor].
  - simpl. eapply draws_bind; [apply Hbody; left; reflexivity|].
    intros s' [r [-> Hr]].
    eapply draws_mono; [|apply IH; intros rows' y Hy; apply Hbody; right; exact Hy].
    intros out [new [-> Hnew]]. exists (r :: new). split.
    + rewrite <- app_assoc. reflexivity.
    + constructor; assumption.
Qed.

(** *** Lists, ranges and row keys *)

Lemma Forall2_const_r A B (P : B -> Prop) (xs : list A) (ys : list B) :
  Forall2 (fun _ y => P y) xs ys -> Forall P ys.
Proof. induction 1; constructor; auto. Qed.

Lemma Forall2_map_eq A B C (f : A -> C) (g : B -> C) (xs : list A) (ys : list B) :
  Forall2 (fun x y => g y = f x) xs ys -> map g ys = map f xs.
Proof. induction 1; simpl; congruence. Qed.

Lemma Forall2_weaken A B (P Q : A -> B -> Prop) (xs : list A) (ys : list B) :
  (forall x y, In x xs -> P x y -> Q x y) -> Forall2 P xs ys -> Forall2 Q xs ys.
Proof.
  intros H HF. induction HF; constructor.
  - apply H; [left; reflexivity | assumption].
  - apply IHHF. intros a b Ha. apply H. right. exact Ha.
Qed.


Lemma Forall2_nth_error_r A B (P : A -> B -> Prop) (xs : list A) (ys : list B) n y :
  Forall2 P xs ys -> nth_error ys n = Some y ->
  exists x, nth_error xs n = Some x /\ P x y.
Proof.
  intros HF. revert n. induction HF; intros [|n] Hn; simpl in *; try discriminate.
  - inversion Hn; subst. eauto.
  - eauto.
Qed.

Lemma Forall_concat A (P : A -> Prop) (ls : list (list A)) :
  Forall (Forall P) ls -> Forall P (List.concat ls).
Proof.
  induction 1; simpl; [constructor | apply Forall_app; split; assumption].
Qed.

Lemma concat_length_ge A (ls : list (list A)) :
  Forall (fun l => (1 <= List.length l)%nat) ls ->
  (List.length ls <= List.length (List.concat ls))%nat.
Proof.
  induction 1; simpl; [lia | rewrite length_app; lia].
Qed.

Lemma range_length n : List.length (range n) = Z.to_nat n.
Proof. unfold range. rewrite length_map, length_seq. reflexivity. Qed.

Lemma range_In i n : In i (range n) <-> 0 <= i < n.
Proof.
  unfold range. rewrite in_map_iff. split.
  - intros [k [<- Hk]]. apply in_seq in Hk. lia.
  - intros Hi. exists (Z.to_nat i). split; [lia | apply in_seq; lia].
Qed.


Lemma row_ids_length A (rows : list A) : List.length (row_ids rows) = List.length rows.
Proof. unfold row_ids. rewrite length_map, length_seq. reflexivity. Qed.

Lemma row_ids_nth_error A (rows : list A) k :
  (k < List.length rows)%nat -> nth_error (row_ids rows) k = Some (Z.of_nat k + 1).
Proof.
  intros Hk. unfold row_ids. rewrite nth_error_map, nth_error_seq.
  destruct (Nat.ltb_spec k (List.length rows)); [simpl; f_equal; lia | lia].
Qed.

Lemma row_ids_In A (rows : list A) i :
  In i (row_ids rows) <-> 1 <= i <= Z.of_nat (List.length rows).
Proof.
  unfold row_ids. rewrite in_map_iff. split.
  - intros [k [<- Hk]]. apply in_seq in Hk. lia.
  - intros Hi. exists (Z.to_nat i). split; [lia | apply in_seq; lia].
Qed.


(** Symbolic execution of a row computation, one bind at a time. *)
Ltac draw_one E :=
  lazymatch goal with
  | |- draws (random _) _ => apply (draws_random E)
  | |- draws (uniform _ _ _) _ => apply (draws_uniform E)
  | |- draws (fake_text _) _ => apply (draws_fake_text E)
  | |- draws (fake_when _) _ => apply (draws_fake_when E)
  | |- draws (now _) _ => apply (draws_now E)
  | |- draws (today _) _ => apply (draws_today E)
  | |- draws (randint _ _ _) _ => apply (draws_randint E); lia
  | |- draws (choice _ _) _ => apply (draws_choice E); first [discriminate | assumption]
  | |- draws (choices _ _ _) _ =>
      apply (draws_choices E); [reflexivity | reflexivity | discriminate]
  end.

Ltac draw_step E :=
  lazymatch goal with
  | |- draws (bind (bind _ _) _) _ => apply draws_bind_assoc
  | |- draws (bind (ret _) _) _ => apply draws_ret_bind; cbv beta iota
  | |- draws (bind (if ?b then _ else _) _) _ => destruct b eqn:?
  | |- draws (bind (match ?x with _ => _ end) _) _ => destruct x eqn:?
  | |- draws (if ?b then _ else _) _ => destruct b eqn:?
  | |- draws (match ?x with _ => _ end) _ => destruct x eqn:?
  | |- draws (bind _ _) _ =>
      eapply draws_bind; [draw_one E | intros ? ?; cbv beta in *]
  | |- draws (ret _) _ => apply draws_ret
  end.

Section Rows.

Context {F : Type} {NF : Num F}.
Variable E : extern.

(** *** Customers *)

(** What the loop body fixes about the record of ordinal [i]. *)
Definition customer_post (i : Z) (c : customer F) : Prop :=
  (i = 249 -> c_is_pep c = true /\ c_risk_rating c = HIGH)
  /\ (mem i [101; 102; 103] = true ->
      c_last_name c = "Johnson"%string /\ c_city c = "Miami"%string
      /\ c_zip_code c = "33101"%string).

Lemma customer_row_spec i : draws (customer_row E i) (customer_post i).
Proof.
  unfold customer_row.
  repeat draw_step E.
  all: split;
    [ intros ->; try (split; reflexivity);
      match goal with H : (249 =? 249) = false |- _ => discriminate H end
    | intros Hm; try (repeat split; reflexivity); simpl in *; congruence ].
Qed.

(** *** Users *)

Lemma user_row_spec customer_id :
  draws (user_row (F:=F) E customer_id) (fun u => u_customer_id u = customer_id).
Proof.
  unfold user_row. repeat draw_step E. all: reflexivity.
Qed.

(** *** Accounts *)

Definition account_post (a : account F) : Prop :=
  a_status a = ACTIVE /\ a_closed_date a = None.

Lemma account_row_spec bank_ids i customer_id j :
  bank_ids <> [] ->
  draws (account_row E bank_ids i customer_id j) account_post.
Proof.
  intros Hb. unfold account_row. repeat draw_step E.
  all: split; reflexivity.
Qed.

(** The block of accounts of one customer: between one and four rows. *)
Lemma customer_accounts_spec bank_ids rows ic :
  bank_ids <> [] ->
  draws (customer_accounts E bank_ids rows ic)
        (fun out => exists new, out = rows ++ new
                                /\ ((1 <= List.length new)%nat /\ Forall account_post new)).
Proof.
  intros Hb. destruct ic as [i customer_id]. unfold customer_accounts.
  eapply draws_bind; [draw_one E|]. intros n Hn. cbv beta in Hn.
  eapply draws_mono; [|apply draws_foldM_app with (P := fun _ a => account_post a)].
  - intros out [new [-> Hnew]]. exists new. split; [reflexivity|]. split.
    + rewrite <- (Forall2_length Hnew), range_length.
      simpl in Hn. destruct Hn as [<-|[<-|[<-|[<-|[]]]]]; simpl; lia.
    + eapply Forall2_const_r; exact Hnew.
  - intros j _. apply account_row_spec; exact Hb.
Qed.

(** *** Ownership *)

Definition own_key (r : ownership) : Z * Z * relationship :=
  (ac_account_id r, ac_customer_id r, ac_relationship_type r).

Lemma primary_row_spec A (cs : list A) rows i account_id :
  cs <> [] -> 0 <= i ->
  draws (primary_row (F:=F) E (row_ids cs) rows (i, account_id))
        (fun out => exists r, out = rows ++ [r]
           /\ own_key r = (account_id, i mod Z.of_nat (List.length cs) + 1, PRIMARY)).
Proof.
  intros Hcs Hi. unfold primary_row. rewrite row_ids_length.
  assert (0 < List.length cs)%nat by (destruct cs; [congruence | simpl; lia]).
  destruct (Nat.eqb_spec (List.length cs) 0); [lia|].
  assert (Hm : 0 <= i mod Z.of_nat (List.length cs) < Z.of_nat (List.length cs))
    by (apply Z.mod_pos_bound; lia).
  eapply draws_bind.
  - apply draws_index. rewrite row_ids_length. exact Hm.
  - intros c Hc. cbv beta in Hc. rewrite row_ids_nth_error in Hc by lia.
    inversion Hc; subst c. draw_step E. draw_step E.
    eexists. split; [reflexivity|]. unfold own_key. simpl.
    rewrite Z2Nat.id by lia. reflexivity.
Qed.

Lemma joint_row_spec joint_account_id rows cust_id :
  draws (joint_row (F:=F) E joint_account_id rows cust_id)
        (fun out => exists r, out = rows ++ [r]
           /\ own_key r = (joint_account_id, cust_id, JOINT)).
Proof.
  unfold joint_row. draw_step E. draw_step E.
  eexists. split; reflexivity.
Qed.

End Rows.

(** ** The stages *)

Section Stages.

Context {F : Type} {NF : Num F}.
Variable E : extern.

Lemma wp_bind_draws A B (c : M F A) (k : A -> M F B) (P : A -> Prop)
    (Q : B -> world F -> Prop) w :
  draws c P ->
  (forall a w', db w' = db w -> P a -> wp (k a) Q w') ->
  wp (bind c k) Q w.
Proof.
  intros Hc Hk. apply wp_bind. eapply wp_draws; [exact Hc | exact Hk].
Qed.

Lemma wp_bind_get_db B (k : store F -> M F B) (Q : B -> world F -> Prop) w :
  wp (k (db w)) Q w -> wp (bind get_db k) Q w.
Proof. exact (fun H => H). Qed.

Lemma wp_set_db (s : store F) (Q : unit -> world F -> Prop) w :
  Q tt {| rnd := rnd w; fk := fk w; ticks := ticks w; db := s |} ->
  wp (set_db s) Q w.
Proof. exact (fun H => H). Qed.

Lemma draws_Faker_seed s : draws (Faker_seed (F:=F) s) (fun _ => True).
Proof. intros w. split; [reflexivity | exact I]. Qed.

Lemma draws_random_seed s : draws (random_seed (F:=F) s) (fun _ => True).
Proof. intros w. split; [reflexivity | exact I]. Qed.

Lemma generate_banks_spec w :
  wp (generate_banks (F:=F)) (fun _ w' => db w' = add_banks (db w) bank_rows) w.
Proof. reflexivity. Qed.

Lemma generate_customers_spec count w :
  wp (generate_customers E count)
     (fun _ w' => exists rows, db w' = add_customers (db w) rows
                               /\ Forall2 customer_post (range count) rows) w.
Proof.
  unfold generate_customers.
  eapply wp_bind_draws; [apply draws_Faker_seed|]. intros _ w1 Hw1 _.
  eapply wp_bind_draws.
  - apply draws_foldM_app with (P := customer_post).
    intros i _. apply customer_row_spec.
  - intros rows w2 Hw2 [new [-> Hnew]]. unfold insert_customers.
    apply wp_bind_get_db, wp_set_db. simpl.
    exists new. split; [congruence | exact Hnew].
Qed.

Lemma generate_users_spec w :
  0 <= to_int (of_int (Z.of_nat (List.length (customers (db w)))) * dec 8 1)%num
    <= Z.of_nat (List.length (customers (db w))) ->
  wp (generate_users E) (fun _ w' => exists rows, db w' = add_users (db w) rows) w.
Proof.
  intros Hk. unfold generate_users. apply wp_bind_get_db.
  rewrite row_ids_length.
  eapply wp_bind_draws.
  - apply draws_sample. rewrite row_ids_length. exact Hk.
  - intros chosen w1 Hw1 _. eapply wp_bind_draws.
    + apply draws_foldM_app with (P := fun c u => u_customer_id u = c).
      intros c _. apply user_row_spec.
    + intros rows w2 Hw2 [new [-> _]]. unfold insert_users.
      apply wp_bind_get_db, wp_set_db. simpl.
      exists new. congruence.
Qed.

(** The keys of the PRIMARY rows of [n] accounts over [N] customers, and of
    the three JOINT rows. *)
Definition primary_keys (n N : nat) : list (Z * Z * relationship) :=
  map (fun k => (Z.of_nat k + 1, Z.of_nat k mod Z.of_nat N + 1, PRIMARY)) (seq 0 n).

Definition joint_keys (joint_account_id : Z) : list (Z * Z * relationship) :=
  map (fun c => (joint_account_id, c, JOINT)) johnson_customers.

Lemma combine_seq_succ a n :
  combine (map Z.of_nat (seq a n)) (map Z.of_nat (seq (S a) n))
  = map (fun k => (Z.of_nat k, Z.of_nat k + 1)) (seq a n).
Proof.
  revert a. induction n as [|n IH]; intros a; simpl; [reflexivity|].
  rewrite IH. f_equal. f_equal. lia.
Qed.

Lemma enumerate_row_ids A (rows : list A) :
  enumerate (row_ids rows)
  = map (fun k => (Z.of_nat k, Z.of_nat k + 1)) (seq 0 (List.length rows)).
Proof.
  unfold enumerate, range. rewrite row_ids_length, Nat2Z.id.
  unfold row_ids. apply combine_seq_succ.
Qed.

Lemma generate_accounts_spec w :
  banks (db w) <> [] ->
  accounts (db w) = [] ->
  (150 < List.length (customers (db w)))%nat ->
  wp (generate_accounts E)
     (fun _ w' => exists accs owners,
        db w' = add_account_customers (add_accounts (db w) accs) owners
        /\ Forall account_post accs
        /\ (List.length (customers (db w)) <= List.length accs)%nat
        /\ map own_key owners
           = primary_keys (List.length accs) (List.length (customers (db w)))
             ++ joint_keys 151) w.
Proof.
  intros Hbanks Haccs HN. unfold generate_accounts. apply wp_bind_get_db.
  assert (Hbids : row_ids (banks (db w)) <> []).
  { intros Hnil. apply (f_equal (@List.length Z)) in Hnil.
    rewrite row_ids_length in Hnil. destruct (banks (db w)); [congruence | discriminate]. }
  eapply wp_bind_draws.
  { apply draws_foldM_ext
      with (P := fun _ new => (1 <= List.length new)%nat /\ Forall account_post new).
    intros rows ic _. apply customer_accounts_spec. exact Hbids. }
  intros rows w1 Hw1 [news [-> Hnews]]. simpl app.
  unfold insert_accounts.
  apply wp_bind, wp_bind_get_db, wp_set_db. apply wp_bind_get_db.
  cbn [db accounts add_accounts]. rewrite Hw1, Haccs. simpl app.
  set (accs := List.concat news).
  assert (Hlen : (List.length (customers (db w)) <= List.length accs)%nat).
  { apply Forall2_length in Hnews as Hl.
    unfold enumerate in Hl. rewrite length_combine, range_length, Nat2Z.id,
      row_ids_length, Nat.min_id in Hl.
    rewrite Hl. apply concat_length_ge.
    eapply Forall_impl; [|eapply Forall2_const_r; exact Hnews].
    intros l [H1 _]. exact H1. }
  assert (Hpost : Forall account_post accs).
  { apply Forall_concat. eapply Forall_impl; [|eapply Forall2_const_r; exact Hnews].
    intros l [_ H2]. exact H2. }
  assert (Hcs : customers (db w) <> []) by (destruct (customers (db w)); [simpl in HN; lia | discriminate]).
  eapply wp_bind_draws.
  { apply draws_foldM_snoc
      with (P := fun ia r => own_key r
                 = (snd ia, fst ia mod Z.of_nat (List.length (customers (db w))) + 1, PRIMARY)).
    intros rows [i aid] Hin. apply primary_row_spec; [exact Hcs|].
    simpl. unfold enumerate in Hin. apply in_combine_l in Hin.
    apply range_In in Hin. lia. }
  intros prim w2 Hw2 [new [-> Hprim]]. simpl app.
  eapply wp_bind_draws.
  { apply draws_index. rewrite row_ids_length. lia. }
  intros joint w3 Hw3 Hjoint. rewrite row_ids_nth_error in Hjoint by lia.
  inversion Hjoint; subst joint. clear Hjoint.
  eapply wp_bind_draws.
  { apply draws_foldM_snoc with (P := fun c r => own_key r = (151, c, JOINT)).
    intros rows c _. apply joint_row_spec. }
  intros owners w4 Hw4 [joints [-> Hjoints]].
  unfold insert_account_customers. apply wp_bind_get_db, wp_set_db. simpl.
  exists accs, (new ++ joints). split; [|split; [|split]].
  - rewrite Hw4, Hw3, Hw2. reflexivity.
  - exact Hpost.
  - exact Hlen.
  - rewrite map_app. f_equal.
    + rewrite (@Forall2_map_eq _ _ _
                 (fun ia : Z * Z =>
                    (snd ia, fst ia mod Z.of_nat (List.length (customers (db w))) + 1,
                     PRIMARY)) own_key _ _ Hprim).
      rewrite enumerate_row_ids, map_map. reflexivity.
    + apply (@Forall2_map_eq _ _ _ (fun c : Z => (151, c, JOINT)) own_key _ _ Hjoints).
Qed.

End Stages.

(** ** Transactions *)

Section Transactions.

Context {F : Type} {NF : Num F}.
Variable E : extern.

(** The time stamp the structuring branch gives to index [i]: a reading of
    the clock moved back by 30 days and [i - 2000] hours. *)
Definition structuring_stamp (i : Z) (d : datetime) : Prop :=
  exists k, d = wall_clock E k - (30 * usec_per_day + (i - 2000) * usec_per_hour).

Definition details_post (i : Z) (forced : bool)
    (d : txn_type * F * datetime * string * string * string * bool) : Prop :=
  let '(transaction_type, amount, transaction_date, _, _, _, is_flagged) := d in
  if forced then
    transaction_type = WITHDRAWAL /\ is_flagged = true
    /\ uniform_value (of_int 495) (of_int 499) amount
    /\ structuring_stamp i transaction_date
  else is_flagged = false.

Lemma txn_details_spec accts customer_250_accounts account_id i :
  draws (txn_details E accts customer_250_accounts account_id i)
        (details_post i (in_window i customer_250_accounts
                         && (account_id =? hd 0 customer_250_accounts))%bool).
Proof.
  unfold txn_details.
  destruct (in_window i customer_250_accounts
            && (account_id =? hd 0 customer_250_accounts))%bool.
  - repeat draw_step E. unfold details_post. repeat split; try assumption.
    destruct H0 as [k ->]. exists k. reflexivity.
  - repeat draw_step E. all: try reflexivity.
    match goal with
    | Hc : In _ categories |- _ =>
        unfold categories in Hc; simpl in Hc; decompose [or] Hc; clear Hc; subst
    end.
    all: try contradiction.
    all: repeat draw_step E; reflexivity.
Qed.

(** What the loop fixes about the row of index [i], given the account list
    [accts] read at the start of the pass and the first account [first] of
    customer 250. *)
Definition txn_post (accts : list (Z * F)) (first : Z) (i : Z) (t : transaction F) : Prop :=
  (exists bal, In (t_account_id t, bal) accts
               /\ t_balance_after t
                  = balance_after_of (t_transaction_type t) bal (t_amount t))
  /\ (2000 <= i <= 2050 ->
      t_account_id t = first /\ t_transaction_type t = WITHDRAWAL
      /\ t_is_flagged t = true
      /\ uniform_value (of_int 495) (of_int 499) (t_amount t)
      /\ structuring_stamp i (t_transaction_date t))
  /\ (~ 2000 <= i <= 2050 -> t_is_flagged t = false)
  /\ (exists k, t_reference_number t
                = ("TXN" ++ strftime_Ymd E (wall_clock E k) ++ pad6 i)%string).

Lemma in_window_spec i first rest :
  in_window i (first :: rest) = true <-> 2000 <= i <= 2050.
Proof.
  unfold in_window. simpl. rewrite andb_true_r, andb_true_iff, !Z.leb_le. tauto.
Qed.

Lemma txn_step_spec accts first rest carried rows i :
  accts <> [] ->
  (exists p, find (fun p => fst p =? first) accts = Some p) ->
  draws (txn_step E accts (first :: rest) (carried, rows) i)
        (fun st => exists t, snd st = rows ++ [t] /\ txn_post accts first i t).
Proof.
  intros Hne [p Hp]. unfold txn_step, select_account.
  destruct (in_window i (first :: rest)) eqn:Hw.
  - simpl hd. rewrite Hp. apply draws_ret_bind. cbv beta iota.
    destruct p as [account_id current_balance].
    apply find_some in Hp. destruct Hp as [Hin Heq]. simpl in Heq.
    apply Z.eqb_eq in Heq. subst account_id.
    eapply draws_bind; [apply txn_details_spec|].
    intros [[[[[[ty amount] date] cat] merch] loc] flag] Hd.
    rewrite Hw in Hd. simpl hd in Hd. rewrite Z.eqb_refl in Hd.
    unfold details_post in Hd. cbn [andb] in Hd.
    destruct Hd as [-> [-> [Hamt Hstamp]]].
    repeat draw_step E. eexists. split; [reflexivity|].
    destruct H as [k ->].
    unfold txn_post. cbn [t_account_id t_balance_after t_transaction_type t_amount
                          t_is_flagged t_transaction_date t_reference_number].
    split; [|split; [|split]].
    + exists current_balance. split; [exact Hin | reflexivity].
    + intros _. repeat split; assumption.
    + intros Hout. apply (proj1 (in_window_spec i first rest)) in Hw. contradiction.
    + exists k. reflexivity.
  - apply draws_bind_assoc. eapply draws_bind; [apply draws_choice; exact Hne|].
    intros [account_id current_balance] Hin. cbv beta in Hin.
    apply draws_ret_bind. cbv beta iota.
    eapply draws_bind; [apply txn_details_spec|].
    intros [[[[[[ty amount] date] cat] merch] loc] flag] Hd.
    rewrite Hw in Hd. unfold details_post in Hd. cbn [andb] in Hd. subst flag.
    repeat draw_step E. eexists. split; [reflexivity|].
    destruct H as [k ->].
    unfold txn_post. cbn [t_account_id t_balance_after t_transaction_type t_amount
                          t_is_flagged t_transaction_date t_reference_number].
    split; [|split; [|split]].
    + exists current_balance. split; [exact Hin | reflexivity].
    + intros Hin'. apply (proj2 (in_window_spec i first rest)) in Hin'. congruence.
    + reflexivity.
    + exists k. reflexivity.
Qed.

Lemma generate_transactions_spec count first rest w :
  select_active_accounts (db w) <> [] ->
  select_customer_250_accounts (db w) = first :: rest ->
  (exists p, find (fun p => fst p =? first) (select_active_accounts (db w)) = Some p) ->
  wp (generate_transactions E count)
     (fun _ w' => exists rows,
        db w' = add_transactions (db w) rows
        /\ Forall2 (txn_post (select_active_accounts (db w)) first) (range count) rows) w.
Proof.
  intros Hne Hc Hfind. unfold generate_transactions. apply wp_bind_get_db.
  rewrite Hc.
  eapply wp_bind_draws.
  - apply draws_foldM
      with (I := fun pre (st : option (Z * F) * list (transaction F)) =>
                   Forall2 (txn_post (select_active_accounts (db w)) first) pre (snd st)).
    + constructor.
    + intros pre i [carried rows] _ Hpre. simpl in Hpre.
      eapply draws_mono; [|apply txn_step_spec; assumption].
      intros [sel out] [t [Hout Ht]]. simpl in *. subst out.
      apply Forall2_app; [exact Hpre | constructor; [exact Ht | constructor]].
  - intros [sel rows] w1 Hw1 Hrows. simpl in *.
    unfold insert_transactions. apply wp_bind_get_db, wp_set_db. simpl.
    exists rows. split; [congruence | exact Hrows].
Qed.

End Transactions.

(** ** Loans *)

Section Loans.

Context {F : Type} {NF : Num F}.
Variable E : extern.

(** What the loop body fixes about a loan row. *)
Definition loan_post (l : loan F) : Prop :=
  l_monthly_payment l
  = amortized_payment (l_principal_amount l)
                      (l_interest_rate l / of_int 12)%num (l_term_months l)
  /\ l_status l = (if 60 <? l_delinquency_days l then DEFAULTED else ACTIVE)
  /\ (if mem (l_customer_id l) [101; 102; 103]
      then 30 <= l_delinquency_days l <= 90
      else In (l_delinquency_days l) [0; 15; 30]).

Lemma loan_row_spec bank_ids c :
  bank_ids <> [] ->
  draws (loan_row E bank_ids c) (fun l => loan_post l /\ l_customer_id l = fst (fst c)).
Proof.
  intros Hb. destruct c as [[customer_id credit_score] annual_income].
  unfold loan_row.
  destruct (750 <=? credit_score); [|destruct (650 <=? credit_score)].
  all: repeat draw_step E.
  all: unfold loan_post;
    cbn [l_monthly_payment l_principal_amount l_interest_rate l_term_months
         l_status l_delinquency_days l_customer_id fst];
    (split; [split; [reflexivity | split] | reflexivity]).
  all: match goal with
       | Hm : mem _ _ = _ |- _ => rewrite ?Hm
       end.
  all: try assumption.
  all: try reflexivity.
  all: try (match goal with
            | Hd : In _ [0; 0; 0; 0; 15; 30] |- _ =>
                simpl in Hd; decompose [or] Hd; subst; try contradiction;
                first [reflexivity | simpl; tauto]
            end).
Qed.

Lemma generate_loans_spec w :
  banks (db w) <> [] ->
  (200 <= List.length (customers (db w)))%nat ->
  wp (generate_loans E)
     (fun _ w' => exists rows,
        db w' = add_loans (db w) rows
        /\ List.length rows = 200%nat
        /\ Forall loan_post rows) w.
Proof.
  intros Hbanks HN. unfold generate_loans. apply wp_bind_get_db.
  assert (Hbids : row_ids (banks (db w)) <> []).
  { intros Hnil. apply (f_equal (@List.length Z)) in Hnil.
    rewrite row_ids_length in Hnil. destruct (banks (db w)); [congruence | discriminate]. }
  eapply wp_bind_draws.
  { apply draws_sample. unfold select_customer_scores, keyed.
    rewrite length_map, length_combine, row_ids_length, Nat.min_id. lia. }
  intros chosen w1 Hw1 [Hlen _].
  eapply wp_bind_draws.
  { apply draws_foldM_app with (P := fun c l => loan_post l /\ l_customer_id l = fst (fst c)).
    intros c _. apply loan_row_spec. exact Hbids. }
  intros rows w2 Hw2 [new [-> Hnew]]. simpl app.
  unfold insert_loans. apply wp_bind_get_db, wp_set_db. simpl.
  exists new. split; [congruence|]. split.
  - rewrite <- (Forall2_length Hnew). exact Hlen.
  - eapply Forall_impl; [|eapply Forall2_const_r with (P := fun l => loan_post l /\ True)].
    + intros l [Hl _]. exact Hl.
    + eapply Forall2_weaken; [|exact Hnew]. intros c l _ [Hl _]. split; [exact Hl | exact I].
Qed.

End Loans.

(** ** Payments *)

(** *** Counting the rows that satisfy a test *)

Lemma filter_nil_none A (f : A -> bool) (l : list A) :
  (forall x, In x l -> f x = false) -> filter f l = [].
Proof.
  induction l as [|a t IH]; intros H; simpl; [reflexivity|].
  rewrite (H a (or_introl eq_refl)). apply IH. intros x Hx. apply H. right. exact Hx.
Qed.

Lemma count_key_le_1 A (key : A -> Z) (k : Z) (l : list A) :
  NoDup (map key l) -> (List.length (filter (fun x => (key x =? k)%Z) l) <= 1)%nat.
Proof.
  induction l as [|a t IH]; intros Hnd; simpl; [lia|].
  inversion Hnd as [|? ? Hnotin Hnd']; subst.
  destruct (Z.eqb_spec (key a) k) as [Hk|Hk].
  - rewrite filter_nil_none; [simpl; lia|].
    intros x Hx. apply Z.eqb_neq. intros Hxk. apply Hnotin.
    rewrite Hk, <- Hxk. apply in_map. exact Hx.
  - apply IH. exact Hnd'.
Qed.

Lemma NoDup_map_filter A B (g : A -> B) (f : A -> bool) (l : list A) :
  NoDup (map g l) -> NoDup (map g (filter f l)).
Proof.
  induction l as [|a t IH]; intros Hnd; simpl; [constructor|].
  inversion Hnd as [|? ? Hnotin Hnd']; subst.
  destruct (f a); [|auto]. simpl. constructor; [|auto].
  intros Hin. apply Hnotin. apply in_map_iff in Hin. destruct Hin as [x [Hx Hin]].
  apply filter_In in Hin. rewrite <- Hx. apply in_map. tauto.
Qed.

Lemma NoDup_map_of_nat (l : list nat) : NoDup l -> NoDup (map Z.of_nat l).
Proof.
  induction 1 as [|a t Hnotin Hnd IH]; simpl; constructor; [|exact IH].
  intros Hin. apply in_map_iff in Hin. destruct Hin as [b [Hb Hin]].
  apply Nat2Z.inj in Hb. subst b. contradiction.
Qed.

Lemma range_NoDup n : NoDup (range n).
Proof. unfold range. apply NoDup_map_of_nat, seq_NoDup. Qed.

Lemma row_ids_NoDup A (rows : list A) : NoDup (row_ids rows).
Proof. unfold row_ids. apply NoDup_map_of_nat, seq_NoDup. Qed.

Lemma keyed_fst A (rows : list A) : map fst (keyed rows) = row_ids rows.
Proof.
  unfold keyed. assert (H : List.length (row_ids rows) = List.length rows)
    by apply row_ids_length.
  revert H. generalize (row_ids rows). intros ids. revert rows.
  induction ids as [|i ids IH]; intros [|r rows] H; simpl in *; try discriminate;
    [reflexivity|]. f_equal. apply IH. lia.
Qed.

Lemma combine_seq_In A (rows : list A) a k x :
  In (k, x) (combine (map Z.of_nat (seq a (List.length rows))) rows) ->
  Z.of_nat a <= k /\ nth_error rows (Z.to_nat k - a) = Some x.
Proof.
  revert a. induction rows as [|r rows IH]; intros a Hin; simpl in *; [contradiction|].
  destruct Hin as [Heq|Hin].
  - inversion Heq; subst. split; [lia|].
    rewrite Nat2Z.id, Nat.sub_diag. reflexivity.
  - apply IH in Hin. destruct Hin as [Hle Hn]. split; [lia|].
    replace (Z.to_nat k - a)%nat with (S (Z.to_nat k - S a)) by lia. exact Hn.
Qed.

Lemma keyed_In A (rows : list A) k x :
  In (k, x) (keyed rows) -> 1 <= k /\ nth_error rows (Z.to_nat (k - 1)) = Some x.
Proof.
  unfold keyed, row_ids. intros Hin. apply combine_seq_In in Hin.
  destruct Hin as [Hle Hn]. split; [lia|].
  replace (Z.to_nat (k - 1)) with (Z.to_nat k - 1)%nat by lia. exact Hn.
Qed.

Lemma count_concat_le A B (f : B -> bool) (g : A -> bool) (xs : list A)
    (news : list (list B)) :
  Forall2 (fun x new => (List.length (filter f new) <= (if g x then 1 else 0))%nat)
          xs news ->
  (List.length (filter f (List.concat news)) <= List.length (filter g xs))%nat.
Proof.
  induction 1 as [|x new xs news Hx HF IH]; simpl; [lia|].
  rewrite filter_app, length_app. destruct (g x); simpl; lia.
Qed.

Section Payments.

Context {F : Type} {NF : Num F}.
Variable E : extern.

Definition reversal_text : string :=
  "Insufficient funds - payment reversed after 3 days".

(** What the loop body fixes about the payment of [month] on a loan. *)
Definition payment_post (loan_id : Z) (monthly_payment : F) (origination_date : date)
    (customer_id month : Z) (p : payment F) : Prop :=
  p_loan_id p = loan_id
  /\ p_scheduled_date p = origination_date + month * 30
  /\ p_interest_paid p = (p_amount p * dec 3 1)%num
  /\ p_principal_paid p = (p_amount p * dec 7 1 - p_late_fee p)%num
  /\ p_is_reversed p = ((loan_id =? 150) && (month =? 15))%bool
  /\ p_reversal_reason p = (if p_is_reversed p then Some reversal_text else None)
  /\ (if (mem customer_id [101; 102; 103] && (12 <? month))%bool
      then p_late_fee p = dec 5000 2
           /\ exists factor, uniform_value (dec 5 1) (dec 8 1) factor
                             /\ p_amount p = (monthly_payment * factor)%num
      else p_amount p = monthly_payment
           /\ (p_late_fee p = dec 2500 2 \/ p_late_fee p = of_int 0)).

Lemma payment_row_spec loan_id monthly_payment origination_date customer_id month :
  draws (payment_row E loan_id monthly_payment origination_date customer_id month)
        (fun o => match o with
                  | Some p => payment_post loan_id monthly_payment origination_date
                                           customer_id month p
                  | None => True
                  end).
Proof.
  unfold payment_row.
  destruct ((loan_id =? 150) && (month =? 15))%bool eqn:Hrev;
  destruct (mem customer_id [101; 102; 103] && (12 <? month))%bool eqn:Hirr.
  all: repeat draw_step E; try exact I.
  all: unfold payment_post;
    cbn [p_loan_id p_scheduled_date p_interest_paid p_amount p_principal_paid
         p_late_fee p_is_reversed p_reversal_reason];
    rewrite Hirr, Hrev;
    repeat (split; try reflexivity).
  all: first [ eexists; split; [eassumption | reflexivity]
             | destruct (5 <? _)%Z; [left | right]; reflexivity ].
Qed.

(** The properties of a payment row that do not mention its loop indices. *)
Definition payment_ok (p : payment F) : Prop :=
  p_interest_paid p = (p_amount p * dec 3 1)%num
  /\ p_principal_paid p = (p_amount p * dec 7 1 - p_late_fee p)%num
  /\ p_reversal_reason p = (if p_is_reversed p then Some reversal_text else None)
  /\ (p_is_reversed p = true -> p_loan_id p = 150).

(** A reversed row is the month-15 payment of the loan with id 150. *)
Definition reversal_of (loan_rows : list (loan F)) (p : payment F) : Prop :=
  p_is_reversed p = true ->
  exists l, nth_error loan_rows 149 = Some l
            /\ p_scheduled_date p = l_origination_date l + 15 * 30.

Lemma loan_payments_spec rows loan_id l :
  draws (loan_payments E rows (loan_id, l))
        (fun out => exists new, out = rows ++ new
           /\ (Forall (fun p => payment_ok p
                                /\ (p_is_reversed p = true ->
                                    loan_id = 150
                                    /\ p_scheduled_date p = l_origination_date l + 15 * 30))
                      new
               /\ (List.length (filter (@p_is_reversed F) new)
                   <= (if (loan_id =? 150)%Z then 1 else 0))%nat)).
Proof.
  unfold loan_payments. eapply draws_bind; [draw_one E|]. intros d _.
  set (months := range (Z.min ((d - l_origination_date l) / 30) 36)).
  eapply draws_mono.
  2: { apply draws_foldM_ext
         with (P := fun month new =>
                      Forall (payment_post loan_id (l_monthly_payment l)
                                (l_origination_date l) (l_customer_id l) month) new
                      /\ (List.length new <= 1)%nat).
       intros rows' month _. eapply draws_bind; [apply payment_row_spec|].
       intros [p|] Hp; apply draws_ret.
       - exists [p]. split; [reflexivity|]. split; [constructor; [exact Hp | constructor] | simpl; lia].
       - exists []. split; [symmetry; apply app_nil_r|]. split; [constructor | simpl; lia]. }
  intros out [news [-> Hnews]]. exists (List.concat news). split; [reflexivity|]. split.
  - apply Forall_concat.
    clear - Hnews. induction Hnews as [|month new ms news [Hpost _] _ IH]; constructor; [|exact IH].
    eapply Forall_impl; [|exact Hpost].
    intros p (Hid & Hsched & Hint & Hprin & Hrev & Hreason & _).
    split; [repeat split; try assumption|].
    + intros Hr. rewrite Hr in Hrev. symmetry in Hrev.
      apply andb_true_iff in Hrev. destruct Hrev as [H150 _].
      apply Z.eqb_eq in H150. congruence.
    + intros Hr. rewrite Hr in Hrev. symmetry in Hrev.
      apply andb_true_iff in Hrev. destruct Hrev as [H150 H15].
      apply Z.eqb_eq in H150, H15. split; [exact H150 | rewrite H15 in Hsched; exact Hsched].
  - etransitivity.
    + apply count_concat_le
        with (g := fun month => ((loan_id =? 150) && (month =? 15))%bool).
      eapply Forall2_weaken; [|exact Hnews].
      intros month new _ [Hpost Hlen]. cbv beta.
      destruct ((loan_id =? 150) && (month =? 15))%bool eqn:Hflag.
      * etransitivity; [apply filter_length_le | exact Hlen].
      * rewrite filter_nil_none; [simpl; lia|].
        intros p Hp. rewrite Forall_forall in Hpost.
        destruct (Hpost p Hp) as (_ & _ & _ & _ & Hrev & _). congruence.
    + destruct (loan_id =? 150); simpl.
      * apply (count_key_le_1 (fun m : Z => m) 15). rewrite map_id. apply range_NoDup.
      * rewrite filter_nil_none; [simpl; lia | reflexivity].
Qed.

Lemma generate_payments_spec w :
  wp (generate_payments E)
     (fun _ w' => exists rows,
        db w' = add_payments (db w) rows
        /\ Forall payment_ok rows
        /\ Forall (reversal_of (loans (db w))) rows
        /\ (List.length (filter (@p_is_reversed F) rows) <= 1)%nat) w.
Proof.
  unfold generate_payments. apply wp_bind_get_db.
  eapply wp_bind_draws.
  { apply draws_foldM_ext
      with (P := fun (kl : Z * loan F) new =>
                   Forall (fun p => payment_ok p
                                    /\ (p_is_reversed p = true ->
                                        fst kl = 150
                                        /\ p_scheduled_date p
                                           = l_origination_date (snd kl) + 15 * 30)) new
                   /\ (List.length (filter (@p_is_reversed F) new)
                       <= (if (fst kl =? 150)%Z then 1 else 0))%nat).
    intros rows [loan_id l] _. apply loan_payments_spec. }
  intros rows w1 Hw1 [news [-> Hnews]]. simpl app.
  unfold insert_payments. apply wp_bind_get_db, wp_set_db. simpl.
  exists (List.concat news). split; [congruence|].
  assert (Hall : Forall (fun p => payment_ok p /\ reversal_of (loans (db w)) p)
                        (List.concat news)).
  { apply Forall_concat.
    assert (Hsub : forall kl, In kl (select_open_loans (db w)) -> In kl (keyed (loans (db w))))
      by (intros kl Hkl; apply filter_In in Hkl; tauto).
    revert Hsub. clear - Hnews.
    induction Hnews as [|kl new kls news [Hpost _] _ IH]; intros Hsub; constructor.
    - eapply Forall_impl; [|exact Hpost]. intros p [Hok Hrev]. split; [exact Hok|].
      intros Hr. destruct (Hrev Hr) as [H150 Hsched].
      destruct kl as [loan_id l]. simpl in *. subst loan_id.
      destruct (keyed_In _ _ _ (Hsub _ (or_introl eq_refl))) as [_ Hn].
      exists l. split; [exact Hn | exact Hsched].
    - apply IH. intros kl' Hkl'. apply Hsub. right. exact Hkl'. }
  split; [|split].
  - eapply Forall_impl; [|exact Hall]. intros p [H _]. exact H.
  - eapply Forall_impl; [|exact Hall]. intros p [_ H]. exact H.
  - etransitivity.
    + apply count_concat_le with (g := fun kl : Z * loan F => fst kl =? 150).
      eapply Forall2_weaken; [|exact Hnews]. intros kl new _ [_ H]. exact H.
    + apply count_key_le_1. unfold select_open_loans.
      apply NoDup_map_filter. rewrite keyed_fst. apply row_ids_NoDup.
Qed.

End Payments.

(** ** Service sessions *)

Section Chats.

Context {F : Type} {NF : Num F}.
Variable E : extern.

Lemma topic_messages_nonempty t : topic_messages t <> [].
Proof. destruct t; discriminate. Qed.

Lemma chat_row_spec s customer_ids :
  customer_ids <> [] ->
  draws (chat_row E s customer_ids) (fun _ => True).
Proof.
  intros Hc. unfold chat_row.
  eapply draws_bind; [apply draws_choice; exact Hc|]. intros customer_id _.
  eapply draws_bind; [apply draws_choice; discriminate|]. intros drawn_topic _.
  eapply draws_bind with (P := fun _ => True).
  - destruct (mem customer_id [101; 102; 103]); [|destruct drawn_topic];
      repeat draw_step E; exact I.
  - intros [[topic sentiment_score] resolution_status] _.
    draw_step E. draw_step E.
    eapply draws_bind; [apply draws_choice; apply topic_messages_nonempty|].
    intros message _. repeat draw_step E. exact I.
Qed.

Lemma generate_chat_history_spec w :
  customers (db w) <> [] ->
  wp (generate_chat_history E) (fun _ w' => exists rows, db w' = add_chats (db w) rows) w.
Proof.
  intros Hc. unfold generate_chat_history. apply wp_bind_get_db.
  assert (Hids : row_ids (customers (db w)) <> []).
  { intros Hnil. apply (f_equal (@List.length Z)) in Hnil.
    rewrite row_ids_length in Hnil. destruct (customers (db w)); [congruence | discriminate]. }
  eapply wp_bind_draws.
  - apply draws_foldM_app with (P := fun _ _ => True).
    intros i _. apply chat_row_spec. exact Hids.
  - intros rows w1 Hw1 [new [-> _]]. simpl app.
    unfold insert_chats. apply wp_bind_get_db, wp_set_db. simpl.
    exists new. congruence.
Qed.

End Chats.

(** ** The ownership table after [generate_accounts] *)

Definition own_key2 (r : ownership) : Z * Z := (ac_account_id r, ac_customer_id r).

Lemma existsb_same_key r tbl :
  existsb (same_key r) tbl = true -> In (own_key2 r) (map own_key2 tbl).
Proof.
  intros H. apply existsb_exists in H. destruct H as [x [Hx Hk]].
  unfold same_key in Hk. apply andb_true_iff in Hk. destruct Hk as [H1 H2].
  apply Z.eqb_eq in H1, H2. apply in_map_iff. exists x. split; [|exact Hx].
  unfold own_key2. congruence.
Qed.

(** Rows with pairwise distinct keys are all kept by [INSERT OR IGNORE]. *)
Lemma insert_ownership_fresh rows :
  forall tbl, NoDup (map own_key2 (tbl ++ rows)) ->
              fold_left insert_ownership rows tbl = tbl ++ rows.
Proof.
  induction rows as [|r rows IH]; intros tbl Hnd; simpl.
  - symmetry. apply app_nil_r.
  - unfold insert_ownership at 2.
    destruct (existsb (same_key r) tbl) eqn:Hex.
    + exfalso. apply existsb_same_key in Hex.
      rewrite map_app in Hnd. simpl in Hnd. apply NoDup_remove_2 in Hnd.
      apply Hnd. apply in_or_app. left. exact Hex.
    + rewrite IH; rewrite <- app_assoc; [reflexivity | exact Hnd].
Qed.

Lemma filter_all A (f : A -> bool) (l : list A) :
  Forall (fun x => f x = true) l -> filter f l = l.
Proof. induction 1 as [|x t Hx _ IH]; simpl; [reflexivity | rewrite Hx, IH; reflexivity]. Qed.

Lemma filter_map_comm A B (h : A -> B) (g : B -> bool) (l : list A) :
  filter g (map h l) = map h (filter (fun x => g (h x)) l).
Proof.
  induction l as [|a t IH]; simpl; [reflexivity|].
  destruct (g (h a)); simpl; rewrite IH; reflexivity.
Qed.

Lemma find_exists A (f : A -> bool) (l : list A) x :
  In x l -> f x = true -> exists p, find f l = Some p.
Proof.
  intros Hin Hf. destruct (find f l) eqn:Hfind; [eauto|].
  rewrite (find_none _ _ Hfind _ Hin) in Hf. discriminate.
Qed.

Definition drop_rel (k : Z * Z * relationship) : Z * Z := fst k.

Lemma primary_keys_fst n N :
  map (fun k => fst (drop_rel k)) (primary_keys n N) = map (fun k => Z.of_nat k + 1) (seq 0 n).
Proof. unfold primary_keys. rewrite map_map. reflexivity. Qed.

Lemma primary_keys_In n N a c r :
  In (a, c, r) (primary_keys n N) ->
  1 <= a <= Z.of_nat n /\ c = (a - 1) mod Z.of_nat N + 1 /\ r = PRIMARY.
Proof.
  unfold primary_keys. intros H. apply in_map_iff in H. destruct H as [k [Hk Hin]].
  inversion Hk; subst. apply in_seq in Hin. split; [lia|]. split; [|reflexivity].
  replace (Z.of_nat k + 1 - 1) with (Z.of_nat k) by lia. reflexivity.
Qed.

Lemma primary_keys_NoDup n N : NoDup (map drop_rel (primary_keys n N)).
Proof.
  apply (NoDup_map_inv fst). rewrite map_map.
  change (fun x => fst (drop_rel x)) with (fun k : Z * Z * relationship => fst (drop_rel k)).
  rewrite primary_keys_fst.
  replace (map (fun k => Z.of_nat k + 1) (seq 0 n)) with (map Z.of_nat (seq 1 n)).
  - apply NoDup_map_of_nat, seq_NoDup.
  - rewrite <- seq_shift, map_map. apply map_ext. intros k. lia.
Qed.

(** With 500 customers, no key of the generated list repeats. *)
Lemma generated_keys_NoDup n :
  NoDup (map drop_rel (primary_keys n 500 ++ joint_keys 151)).
Proof.
  rewrite map_app. apply NoDup_app.
  - apply primary_keys_NoDup.
  - repeat constructor; simpl; intuition discriminate.
  - intros [a c] Hin Hjoint.
    apply in_map_iff in Hin. destruct Hin as [[[a' c'] r] [Heq Hin]].
    unfold drop_rel in Heq. simpl in Heq. inversion Heq; subst a' c'.
    apply primary_keys_In in Hin. destruct Hin as [_ [Hc _]].
    simpl in Hjoint.
    destruct Hjoint as [H|[H|[H|[]]]]; injection H as Ha Hc';
      rewrite <- Ha, <- Hc' in Hc; vm_compute in Hc; discriminate Hc.
Qed.

(** The first ownership row of customer 250 is on account 250. *)
Lemma customer_250_first n :
  (500 <= n)%nat ->
  exists rest,
    map (fun k => fst (fst k))
        (filter (fun k : Z * Z * relationship =>
                   ((snd (fst k) =? 250) && (1 <=? fst (fst k))
                    && (fst (fst k) <=? Z.of_nat n))%bool)
                (primary_keys n 500 ++ joint_keys 151))
    = 250 :: rest.
Proof.
  intros Hn. unfold primary_keys.
  assert (Hs : seq 0 n = seq 0 249 ++ [249%nat] ++ seq 250 (n - 250)).
  { replace n with (249 + (1 + (n - 250)))%nat at 1 by lia.
    rewrite !seq_app. reflexivity. }
  rewrite Hs, !map_app, !filter_app, !map_app.
  rewrite filter_nil_none.
  - cbn [map filter app fst snd].
    change (Z.of_nat 249 mod Z.of_nat 500 + 1 =? 250) with true.
    change (1 <=? Z.of_nat 249 + 1) with true. cbn [andb].
    destruct (Z.leb_spec (Z.of_nat 249 + 1) (Z.of_nat n)); [|lia].
    cbn [map app fst]. eexists. reflexivity.
  - intros [[a c] r] Hin. apply in_map_iff in Hin. destruct Hin as [k [Hk Hin]].
    inversion Hk; subst. apply in_seq in Hin. cbn [fst snd].
    rewrite Z.mod_small by lia.
    destruct (Z.eqb_spec (Z.of_nat k + 1) 250); [lia | reflexivity].
Qed.

(** ** The whole run *)

Section Run.

Context {F : Type} {NF : Num F}.
Variable E : extern.

(** [int(500 * 0.8)], the size of the credential sample, fits the
    population.  It is 400 in both instances of [Num]. *)
Definition sample_fits : Prop :=
  0 <= to_int (of_int 500 * dec 8 1)%num <= 500.

(** [SELECT account_id, balance FROM accounts] on the generated accounts. *)
Definition balances (accs : list (account F)) : list (Z * F) :=
  map (fun ka => (fst ka, a_balance (snd ka))) (keyed accs).

Definition built (cs : list (customer F)) (us : list user) (accs : list (account F))
    (owners : list ownership) (ts : list (transaction F)) (ls : list (loan F))
    (ps : list (payment F)) (chs : list (chat F)) : store F :=
  {| banks := bank_rows; customers := cs; users := us; accounts := accs;
     account_customers := owners; transactions := ts; loans := ls;
     payments := ps; chat_history := chs |}.

(** What every run of [main] leaves in the database. *)
Definition generated (s : store F) : Prop :=
  exists cs us accs owners ts ls ps chs,
    s = built cs us accs owners ts ls ps chs
    /\ Forall2 customer_post (range 500) cs
    /\ Forall account_post accs
    /\ (500 <= List.length accs)%nat
    /\ map own_key owners = primary_keys (List.length accs) 500 ++ joint_keys 151
    /\ Forall2 (txn_post E (balances accs) 250) (range 5000) ts
    /\ List.length ls = 200%nat
    /\ Forall loan_post ls
    /\ Forall payment_ok ps
    /\ Forall (reversal_of ls) ps
    /\ (List.length (filter (@p_is_reversed F) ps) <= 1)%nat.

Lemma draws_reset_seeds : draws (reset_seeds (F:=F)) (fun _ => True).
Proof.
  unfold reset_seeds. eapply draws_bind; [apply draws_Faker_seed|].
  intros _ _. apply draws_random_seed.
Qed.

Lemma select_active_all (s : store F) :
  Forall account_post (accounts s) -> select_active_accounts s = balances (accounts s).
Proof.
  intros Hall. unfold select_active_accounts, balances. f_equal.
  apply filter_all. unfold keyed.
  apply Forall_forall. intros [k a] Hin. apply in_combine_r in Hin.
  rewrite Forall_forall in Hall. destruct (Hall a Hin) as [Hs _].
  simpl. rewrite Hs. reflexivity.
Qed.

Lemma balances_fst accs : map fst (balances accs) = row_ids accs.
Proof. unfold balances. rewrite map_map. simpl. apply keyed_fst. Qed.

Lemma select_customer_250_keys (s : store F) :
  select_customer_250_accounts s
  = map (fun k => fst (fst k))
        (filter (fun k : Z * Z * relationship =>
                   ((snd (fst k) =? 250) && (1 <=? fst (fst k))
                    && (fst (fst k) <=? Z.of_nat (List.length (accounts s))))%bool)
                (map own_key (account_customers s))).
Proof.
  unfold select_customer_250_accounts. rewrite filter_map_comm, map_map. reflexivity.
Qed.

Theorem main_run w :
  sample_fits -> wp (main E) (fun _ w' => generated (db w')) w.
Proof.
  intros Hfit. unfold main.
  eapply wp_bind_draws; [apply draws_reset_seeds|]. intros _ w0 _ _.
  apply wp_bind, wp_set_db.
  apply wp_bind. eapply wp_mono; [|apply generate_banks_spec].
  intros ? w1 H1. cbn [db] in H1.
  apply wp_bind. eapply wp_mono; [|apply generate_customers_spec].
  intros ? w2 [cs [H2 Hcs]]. rewrite H1 in H2.
  assert (Hlen_cs : List.length cs = 500%nat).
  { rewrite <- (Forall2_length Hcs), range_length. reflexivity. }
  apply wp_bind. eapply wp_mono; [|apply generate_users_spec].
  2: { rewrite H2. cbn [customers add_customers add_banks empty_store app].
       rewrite Hlen_cs. exact Hfit. }
  intros ? w3 [us H3]. rewrite H2 in H3.
  apply wp_bind. eapply wp_mono; [|apply generate_accounts_spec].
  2: { rewrite H3. discriminate. }
  2: { rewrite H3. reflexivity. }
  2: { rewrite H3. cbn [customers add_users add_customers add_banks empty_store app].
       rewrite Hlen_cs. lia. }
  intros ? w4 (accs & owners & H4 & Haccs & Hn & Hkeys). rewrite H3 in H4, Hn, Hkeys.
  cbn [customers add_users add_customers add_banks empty_store app] in Hn, Hkeys.
  rewrite Hlen_cs in Hn, Hkeys.
  assert (Hown : fold_left insert_ownership owners [] = owners).
  { apply (insert_ownership_fresh owners []). simpl app.
    replace (map own_key2 owners) with (map drop_rel (map own_key owners))
      by (rewrite map_map; reflexivity).
    rewrite Hkeys. apply generated_keys_NoDup. }
  assert (H4' : db w4 = built cs us accs owners [] [] [] []).
  { rewrite H4. unfold built, add_account_customers, add_accounts, add_users,
      add_customers, add_banks, empty_store. cbn. rewrite Hown. reflexivity. }
  clear H4.
  assert (Hactive : select_active_accounts (db w4) = balances accs).
  { rewrite H4'. apply select_active_all. exact Haccs. }
  destruct (customer_250_first Hn) as [rest Hrest].
  assert (H250 : select_customer_250_accounts (db w4) = 250 :: rest).
  { rewrite select_customer_250_keys, H4'. cbn [accounts account_customers built].
    rewrite Hkeys. exact Hrest. }
  apply wp_bind. eapply wp_mono; [|apply generate_transactions_spec with (first := 250) (rest := rest)].
  2: { rewrite Hactive. intros Hnil. apply (f_equal (map fst)) in Hnil.
       rewrite balances_fst in Hnil. apply (f_equal (@List.length Z)) in Hnil.
       rewrite row_ids_length in Hnil. simpl in Hnil. lia. }
  2: exact H250.
  2: { rewrite Hactive.
       assert (Hin : In 250 (map fst (balances accs)))
         by (rewrite balances_fst; apply row_ids_In; lia).
       apply in_map_iff in Hin. destruct Hin as [p [Hp Hin]].
       apply (find_exists _ _ p Hin). rewrite Hp. reflexivity. }
  intros ? w5 (ts & H5 & Hts). rewrite Hactive, H4' in *.
  apply wp_bind. eapply wp_mono; [|apply generate_loans_spec].
  2: { rewrite H5. discriminate. }
  2: { rewrite H5. cbn. rewrite Hlen_cs. lia. }
  intros ? w6 (ls & H6 & Hls_len & Hls). rewrite H5 in H6.
  apply wp_bind. eapply wp_mono; [|apply generate_payments_spec].
  intros ? w7 (ps & H7 & Hps & Hrev & Hcount). rewrite H6 in H7, Hrev.
  cbn [loans add_loans add_transactions built app] in Hrev.
  eapply wp_mono; [|apply generate_chat_history_spec].
  2: { rewrite H7. cbn. intros Hnil. rewrite Hnil in Hlen_cs. discriminate. }
  intros ? w8 (chs & H8). rewrite H7 in H8.
  exists cs, us, accs, owners, ts, ls, ps, chs.
  split; [exact H8|].
  repeat (split; [assumption|]). assumption.
Qed.

End Run.

(** ** Exact arithmetic *)

(** A value of [random.random()] lies in [[0, 1)]. *)
Lemma unit_variate_Q (u : Q) : unit_variate u -> (0 <= u)%Q /\ (u < 1)%Q.
Proof.
  intros (k & Hk & ->).
  change (2 ^ 53) with 9007199254740992 in *.
  cbv [of_int Num_Q fdiv Qdiv Qinv Qmult inject_Z Qnum Qden Qle Qlt].
  split; lia.
Qed.

(** A value of [random.uniform(a, b)] with [a < b] lies in [[a, b)]. *)
Lemma uniform_Q_range (a b x : Q) :
  (a < b)%Q -> uniform_value a b x -> (a <= x)%Q /\ (x < b)%Q.
Proof.
  intros Hab (u & Hu & ->). apply unit_variate_Q in Hu. destruct Hu as [H0 H1].
  cbn [fadd fsub fmul Num_Q].
  assert (Hd : (0 < b - a)%Q) by lra.
  assert (Hm0 : (0 <= (b - a) * u)%Q) by (apply Qmult_le_0_compat; lra).
  assert (Hm1 : ((b - a) * u < (b - a) * 1)%Q) by (apply Qmult_lt_l; assumption).
  split; lra.
Qed.

(** Both instances of [Num] evaluate [int(500 * 0.8)] to 400. *)
Lemma sample_fits_Q : sample_fits (F:=Q).
Proof. unfold sample_fits. vm_compute. split; discriminate. Qed.

Lemma sample_fits_float : sample_fits (F:=float).
Proof. unfold sample_fits. vm_compute. split; discriminate. Qed.

(** ** Properties of every run *)

(** The database a run leaves, if it returns. *)
Definition result_db {F} (r : result (unit * world F)) : option (store F) :=
  match r with
  | Ok (_, w') => Some (db w')
  | Raise _ => None
  end.

Lemma Forall2_exists_l A B (P : A -> B -> Prop) (xs : list A) (ys : list B) :
  Forall2 P xs ys -> Forall (fun y => exists x, P x y) ys.
Proof. induction 1; constructor; eauto. Qed.

Section Claims.

Context {F : Type} {NF : Num F}.
Variable E : extern.

Ltac from_run Hfit :=
  eapply wp_mono; [|apply (main_run E); exact Hfit];
  intros ? ? (cs & us & accs & owners & ts & ls & ps & chs & -> & Hcs & Haccs & Hn
              & Hkeys & Hts & Hls_len & Hls & Hps & Hrev & Hcount);
  cbn [built banks customers users accounts account_customers transactions loans
       payments chat_history].

(** *** Accounts (C10) *)

(** Every account is ACTIVE with no closed date, and the ACTIVE filter of
    the transaction generator returns one entry per account. *)
Definition every_account_active (s : store F) : Prop :=
  Forall (fun a => a_status a = ACTIVE /\ a_closed_date a = None) (accounts s)
  /\ select_active_accounts s = balances (accounts s)
  /\ List.length (select_active_accounts s) = List.length (accounts s).

(** C10. Every generated account has status ACTIVE and a null closed date,
    so the ACTIVE filter of the transaction generator selects the whole
    account population. *)
Theorem C10_every_account_active w :
  sample_fits -> wp (main E) (fun _ w' => every_account_active (db w')) w.
Proof.
  intros Hfit. from_run Hfit. unfold every_account_active.
  cbn [built accounts].
  assert (Hsel : select_active_accounts (built cs us accs owners ts ls ps chs)
                 = balances accs) by (apply select_active_all; exact Haccs).
  split; [exact Haccs|]. split; [exact Hsel|].
  rewrite Hsel. unfold balances, keyed.
  rewrite length_map, length_combine, row_ids_length. apply Nat.min_id.
Qed.

(** *** Loans (C8, C3) *)

(** The status of every loan is DEFAULTED exactly when its delinquency days
    exceed 60, and ACTIVE otherwise. *)
Definition status_follows_delinquency (s : store F) : Prop :=
  Forall (fun l => (l_status l = DEFAULTED <-> 60 < l_delinquency_days l)
                   /\ (~ 60 < l_delinquency_days l -> l_status l = ACTIVE))
         (loans s).

(** C8. For every generated loan, in the identity cluster or not, the
    stored status is DEFAULTED if and only if the stored delinquency days
    exceed 60, and ACTIVE otherwise. *)
Theorem C8_defaulted_iff_over_60 w :
  sample_fits -> wp (main E) (fun _ w' => status_follows_delinquency (db w')) w.
Proof.
  intros Hfit. from_run Hfit. unfold status_follows_delinquency. cbn [built loans].
  eapply Forall_impl; [|exact Hls]. intros l (_ & Hstatus & _).
  rewrite Hstatus. destruct (Z.ltb_spec 60 (l_delinquency_days l)).
  - split; [tauto | intros Hno; contradiction].
  - split; [split; [discriminate | lia] | reflexivity].
Qed.

(** The stored monthly payment of every loan is the amortization value of
    its stored principal [P], term [n] and monthly rate [r = R/12]. *)
Definition payments_amortized (s : store F) : Prop :=
  Forall (fun l =>
            let P := l_principal_amount l in
            let r := (l_interest_rate l / of_int 12)%num in
            let n := l_term_months l in
            l_monthly_payment l
            = ((P * r * (of_int 1 + r) ** n) / ((of_int 1 + r) ** n - of_int 1))%num)
         (loans s).

(** C3. For every generated loan the stored monthly payment equals
    [P r (1+r)^n / ((1+r)^n - 1)] with [r = R/12]; and a principal of 300000
    at an annual rate of 0.045 over 360 months gives, in exact arithmetic, a
    payment within 0.01 of 1520.06. *)
Theorem C3_monthly_payment_is_amortized w :
  sample_fits ->
  wp (main E) (fun _ w' => payments_amortized (db w')) w
  /\ (let M := amortized_payment (F:=Q) (of_int 300000)
                 (dec 45 3 / of_int 12)%num 360 in
      (152005 # 100 <= M)%Q /\ (M <= 152007 # 100)%Q).
Proof.
  intros Hfit. split.
  - from_run Hfit. unfold payments_amortized. cbn [built loans].
    eapply Forall_impl; [|exact Hls]. intros l (Hpay & _). exact Hpay.
  - split; vm_compute; discriminate.
Qed.

(** *** Customers (C5) *)





(** *** Ownership (C6) *)



(** *** Payments (C7) *)




(** *** Transactions (C1, C2) *)

(** The chronologically last transaction of an account (the later row wins
    between equal time stamps). *)
Definition last_txn_of (account_id : Z) (ts : list (transaction F))
  : option (transaction F) :=
  fold_left (fun best t =>
               if t_account_id t =? account_id then
                 match best with
                 | Some b => if t_transaction_date t <? t_transaction_date b
                             then best else Some t
                 | None => Some t
                 end
               else best)
            ts None.

(** The claim as stated: the last transaction of every account that has
    one ends on the account's stored balance. *)
Definition balance_consistent (s : store F) : Prop :=
  forall k a, nth_error (accounts s) k = Some a ->
    match last_txn_of (Z.of_nat k + 1) (transactions s) with
    | Some t => t_balance_after t = a_balance a
    | None => True
    end.

(** What the code does: [balance_after] is the stored balance of the
    account plus the amount for DEPOSIT and INTEREST, minus the amount
    otherwise. *)
Definition balance_after_from_stored (s : store F) : Prop :=
  Forall (fun t =>
            exists a, 1 <= t_account_id t
                      /\ nth_error (accounts s) (Z.to_nat (t_account_id t - 1)) = Some a
                      /\ t_balance_after t
                         = match t_transaction_type t with
                           | DEPOSIT | INTEREST => (a_balance a + t_amount t)%num
                           | _ => (a_balance a - t_amount t)%num
                           end)
         (transactions s).

Lemma balances_In (accs : list (account F)) id bal :
  In (id, bal) (balances accs) ->
  exists a, 1 <= id /\ nth_error accs (Z.to_nat (id - 1)) = Some a /\ bal = a_balance a.
Proof.
  unfold balances. intros Hin. apply in_map_iff in Hin.
  destruct Hin as [[k a] [Heq Hin]]. simpl in Heq. inversion Heq; subst.
  apply keyed_In in Hin. destruct Hin as [Hk Hn]. exists a. auto.
Qed.

(** C1, as amended. In every run the [balance_after] of each transaction
    is computed from the stored balance of its account, the one the accounts
    table holds before and after the pass: the balance is not carried from
    one transaction to the next and no account row is updated. *)
Theorem C1_balance_after_from_stored_balance w :
  sample_fits -> wp (main E) (fun _ w' => balance_after_from_stored (db w')) w.
Proof.
  intros Hfit. from_run Hfit. unfold balance_after_from_stored.
  cbn [built transactions accounts].
  apply Forall2_exists_l in Hts.
  eapply Forall_impl; [|exact Hts].
  intros t (i & (bal & Hin & Hbal) & _).
  apply balances_In in Hin. destruct Hin as (acct & H1 & Hacct & ->).
  exists acct. split; [exact H1|]. split; [exact Hacct | exact Hbal].
Qed.





(** *** Reproducibility (C4) *)

(** C4, as amended. Two runs that start at the same position of the wall
    clock return, and leave the same records in every table, whatever the
    random generators and the database held before: [main] re-seeds both
    generators and starts from an empty database.  (The time stamps of the
    structuring rows and all reference numbers are read from the clock.) *)
Theorem C4_same_clock_same_records (w1 w2 : world F) :
  sample_fits -> ticks w1 = ticks w2 ->
  exists s, result_db (main E w1) = Some s /\ result_db (main E w2) = Some s.
Proof.
  intros Hfit Hticks.
  assert (Heq : main E w1 = main E w2).
  { unfold main.
    set (rest := bind (set_db (empty_store F)) _).
    unfold bind, reset_seeds, bind, Faker_seed, random_seed. cbn [rnd fk ticks db].
    unfold rest, bind, set_db. cbn [rnd fk ticks db]. rewrite Hticks. reflexivity. }
  pose proof (main_run E w1 Hfit) as Hrun. unfold wp in Hrun.
  rewrite <- Heq. destruct (main E w1) as [[u w']|e]; [|contradiction].
  exists (db w'). split; reflexivity.
Qed.

End Claims.

(** ** Payment components (C9) *)




(** ** Concrete runs *)

(** A random source whose outputs vary with the position. *)
Definition demo_words (s : Z) (k : N) : Z :=
  (s + Z.of_N k * 2654435761 + Z.of_N k * Z.of_N k * 40503) mod 4294967296 * 2097152
  + Z.of_N k.


(** Collaborators for the concrete runs: the clock starts on day 20000 and
    advances by a microsecond per reading; every date Faker returns is day
    19700; dates print as the day number. *)
Definition demo_extern (words : Z -> N -> Z) : extern :=
  {| mt_word := words;
     fk_text := fun _ _ => "x"%string;
     fk_num := fun _ _ => 19700;
     wall_clock := fun k => 20000 * usec_per_day + Z.of_N k;
     sha256_hex := fun s => s;
     strftime_Ymd := fun t => str_Z (t / usec_per_day);
     str_datetime := fun t => str_Z t |}.

(** The world of a fresh process whose clock stands at position [t]. *)
Definition fresh_world (F : Type) (t : N) : world F :=
  {| rnd := {| seed_of := 42; taken := 0 |};
     fk := {| seed_of := 42; taken := 0 |};
     ticks := t;
     db := empty_store F |}.

(** *** Witnesses: the hypotheses of the theorems hold in binary64 *)

Lemma C10_witness :
  sample_fits (F:=float)
  /\ wp (main (demo_extern demo_words))
        (fun _ w' => every_account_active (db w')) (fresh_world float 0).
Proof.
  exact (conj sample_fits_float (C10_every_account_active (demo_extern demo_words) (fresh_world float 0) sample_fits_float)).
Defined.

Lemma C8_witness :
  sample_fits (F:=float)
  /\ wp (main (demo_extern demo_words))
        (fun _ w' => status_follows_delinquency (db w')) (fresh_world float 0).
Proof.
  exact (conj sample_fits_float (C8_defaulted_iff_over_60 (demo_extern demo_words) (fresh_world float 0) sample_fits_float)).
Defined.

Lemma C3_witness :
  sample_fits (F:=float)
  /\ wp (main (demo_extern demo_words))
        (fun _ w' => payments_amortized (db w')) (fresh_world float 0).
Proof.
  exact (conj sample_fits_float (proj1 (C3_monthly_payment_is_amortized (demo_extern demo_words) (fresh_world float 0) sample_fits_float))).
Defined.




Lemma C1_witness :
  sample_fits (F:=float)
  /\ wp (main (demo_extern demo_words))
        (fun _ w' => balance_after_from_stored (db w')) (fresh_world float 0).
Proof.
  exact (conj sample_fits_float (C1_balance_after_from_stored_balance (demo_extern demo_words) (fresh_world float 0) sample_fits_float)).
Defined.


(** Two worlds with the same clock position and different histories. *)
Definition used_world : world float :=
  {| rnd := {| seed_of := 7; taken := 12 |};
     fk := {| seed_of := 9; taken := 3 |};
     ticks := 0;
     db := add_banks (empty_store float) bank_rows |}.

Lemma C4_witness :
  (sample_fits (F:=float) /\ ticks (fresh_world float 0) = ticks used_world)
  /\ exists s, result_db (main (demo_extern demo_words) (fresh_world float 0)) = Some s
               /\ result_db (main (demo_extern demo_words) used_world) = Some s.
Proof.
  exact (conj (conj sample_fits_float eq_refl)
           (C4_same_clock_same_records (demo_extern demo_words)
              (fresh_world float 0) used_world sample_fits_float eq_refl)).
Defined.


(** *** Observations of concrete runs in binary64 *)

#[local] Set Warnings "-inexact-float".

(** [x] and [y] compare as different. *)
Definition disagree (x y : float) : bool :=
  (PrimFloat.ltb x y || PrimFloat.ltb y x)%bool.

Definition unreconciled (p : payment float) : bool :=
  disagree (p_principal_paid p + p_interest_paid p + p_late_fee p)%num (p_amount p).

(** What [f] reads off the database of a run, if the run returns. *)
Definition observed {T} (f : store float -> T) (r : result (unit * world float))
  : option T :=
  match r with
  | Ok (_, w') => Some (f (db w'))
  | Raise _ => None
  end.

Lemma observed_returns T (f : store float -> T) r v :
  observed f r = Some v -> exists w', r = Ok (tt, w') /\ f (db w') = v.
Proof.
  destruct r as [[[] w']|e]; simpl; intros H; [|discriminate H].
  injection H as H. exists w'. split; [reflexivity | exact H].
Qed.

(** Read off a run: the number of reversed payments; the components of
    the first payment that does not add up; the stored balance of account
    250 and the [balance_after] of its last transaction; the first reference
    number. *)
Definition payments_and_balances (s : store float)
  : nat * option (float * float * float * float) * option float * option float
    * option string :=
  (List.length (filter (@p_is_reversed float) (payments s)),
   option_map (fun p => (p_amount p, p_principal_paid p, p_interest_paid p,
                         p_late_fee p))
              (find unreconciled (payments s)),
   option_map (@a_balance float) (nth_error (accounts s) 249),
   option_map (@t_balance_after float) (last_txn_of 250 (transactions s)),
   option_map (@t_reference_number float) (nth_error (transactions s) 0)).

(** The run over [demo_words] started at clock position 0. *)
Lemma varied_run_observed :
  exists w', main (demo_extern demo_words) (fresh_world float 0) = Ok (tt, w')
             /\ payments_and_balances (db w')
                = (0%nat,
                   Some (1331.3818665934298, 931.96730661540073,
                         399.41455997802893, 0)%float,
                   Some 27955.647994264382%float,
                   Some 27457.390009916733%float,
                   Some "TXN20000000000"%string).
Proof. apply (observed_returns payments_and_balances). vm_compute. reflexivity. Qed.

Definition first_reference (s : store float) : option string :=
  option_map (@t_reference_number float) (nth_error (transactions s) 0).

(** The same run started two days later on the clock. *)
Lemma later_run_observed :
  exists w', main (demo_extern demo_words) (fresh_world float 172800000000)
             = Ok (tt, w')
             /\ first_reference (db w') = Some "TXN20002000000"%string.
Proof. apply (observed_returns first_reference). vm_compute. reflexivity. Qed.



(** *** Counterexamples to the claims as stated *)

(** C1 fails: in this run account 250 stores the balance
    27955.647994264382 and its last transaction ends on
    27457.390009916733. *)
Lemma C1_counterexample :
  exists w', main (demo_extern demo_words) (fresh_world float 0) = Ok (tt, w')
             /\ ~ balance_consistent (db w').
Proof.
  destruct varied_run_observed as (w' & Hrun & Hobs).
  unfold payments_and_balances in Hobs.
  apply pair_equal_spec in Hobs; destruct Hobs as [Hobs Href].
  apply pair_equal_spec in Hobs; destruct Hobs as [Hobs Hlast].
  apply pair_equal_spec in Hobs; destruct Hobs as [Hobs Hbal].
  apply pair_equal_spec in Hobs; destruct Hobs as [Hrev Hun].
  exists w'. split; [exact Hrun|]. intros Hclaim.
  revert Hbal.
  destruct (nth_error (accounts (db w')) 249) as [a|] eqn:Ha;
    cbn [option_map]; intros Hbal; [|discriminate Hbal].
  specialize (Hclaim 249%nat a Ha).
  change (Z.of_nat 249 + 1) with 250 in Hclaim.
  revert Hlast Hclaim.
  destruct (last_txn_of 250 (transactions (db w'))) as [t|];
    cbn [option_map]; intros Hlast Hclaim; [|discriminate Hlast].
  injection Hbal as Hbal. injection Hlast as Hlast.
  rewrite Hbal, Hlast in Hclaim.
  apply (f_equal (fun z => PrimFloat.ltb z 27955.647994264382%float)) in Hclaim.
  vm_compute in Hclaim. discriminate Hclaim.
Qed.


(** C4 fails: the same seeds, the same parameters and the same empty
    database, started two days apart on the wall clock, give different
    transaction reference numbers. *)
Lemma C4_counterexample :
  (rnd (fresh_world float 0) = rnd (fresh_world float 172800000000)
   /\ fk (fresh_world float 0) = fk (fresh_world float 172800000000)
   /\ db (fresh_world float 0) = db (fresh_world float 172800000000))
  /\ result_db (main (demo_extern demo_words) (fresh_world float 0))
     <> result_db (main (demo_extern demo_words) (fresh_world float 172800000000)).
Proof.
  split; [repeat split; reflexivity|].
  destruct varied_run_observed as (w1 & Hrun1 & Hobs).
  unfold payments_and_balances in Hobs.
  apply pair_equal_spec in Hobs; destruct Hobs as [_ HA].
  destruct later_run_observed as (w2 & Hrun2 & HB).
  rewrite Hrun1, Hrun2. cbn [result_db]. intros Heq. injection Heq as Heq.
  unfold first_reference in HB. rewrite Heq, HB in HA. discriminate HA.
Qed.




(** ** Further properties of the stages *)

(** *** Sampling without replacement *)

Lemma last_removelast_perm A (t : list A) moved :
  nth_error t (List.length t - 1) = Some moved ->
  Permutation (moved :: removelast t) t.
Proof.
  induction t as [|x t IH]; intros H.
  - discriminate H.
  - destruct t as [|y t'].
    + simpl in H. inversion H; subst. apply Permutation_refl.
    + change (removelast (x :: y :: t')) with (x :: removelast (y :: t')).
      replace (List.length (x :: y :: t') - 1)%nat
        with (S (List.length (y :: t') - 1)) in H by (simpl; lia).
      simpl nth_error in H.
      eapply perm_trans; [apply perm_swap|]. apply perm_skip. apply IH. exact H.
Qed.

Lemma set_nth_nonempty A (j : nat) (v : A) (pool : list A) :
  pool <> [] -> set_nth j v pool <> [].
Proof. destruct pool, j; simpl; congruence. Qed.

Lemma set_nth_last A (j : nat) (v : A) (pool : list A) :
  nth_error pool (List.length pool - 1) = Some v ->
  nth_error (set_nth j v pool) (List.length pool - 1) = Some v.
Proof.
  revert j. induction pool as [|x t IH]; intros j H; [discriminate H|].
  destruct t as [|y t'].
  - destruct j; simpl in *; [reflexivity | exact H].
  - replace (List.length (x :: y :: t') - 1)%nat
      with (S (List.length (y :: t') - 1)) in * by (simpl; lia).
    destruct j as [|j]; [exact H|].
    change (set_nth (S j) v (x :: y :: t')) with (x :: set_nth j v (y :: t')).
    simpl nth_error in *. apply IH. exact H.
Qed.

(** One step of the selection loop: the element picked and the pool left
    are the pool before, rearranged. *)
Lemma pick_and_shrink A (pool : list A) :
  forall j picked moved,
    nth_error pool j = Some picked ->
    nth_error pool (List.length pool - 1) = Some moved ->
    Permutation (picked :: removelast (set_nth j moved pool)) pool.
Proof.
  induction pool as [|x t IH]; intros j picked moved Hj Hlast.
  - destruct j; discriminate Hj.
  - destruct j as [|j].
    + simpl in Hj. inversion Hj; subst picked.
      destruct t as [|y t'].
      * simpl. apply Permutation_refl.
      * change (set_nth 0 moved (x :: y :: t')) with (moved :: y :: t').
        change (removelast (moved :: y :: t')) with (moved :: removelast (y :: t')).
        apply perm_skip.
        replace (List.length (x :: y :: t') - 1)%nat
          with (S (List.length (y :: t') - 1)) in Hlast by (simpl; lia).
        apply last_removelast_perm. exact Hlast.
    + simpl in Hj.
      destruct t as [|y t']; [destruct j; discriminate Hj|].
      replace (List.length (x :: y :: t') - 1)%nat
        with (S (List.length (y :: t') - 1)) in Hlast by (simpl; lia).
      simpl nth_error in Hlast.
      change (set_nth (S j) moved (x :: y :: t')) with (x :: set_nth j moved (y :: t')).
      assert (Hne : set_nth j moved (y :: t') <> [])
        by (apply set_nth_nonempty; discriminate).
      destruct (set_nth j moved (y :: t')) as [|z u] eqn:Hs; [congruence|].
      change (removelast (x :: z :: u)) with (x :: removelast (z :: u)).
      eapply perm_trans; [apply perm_swap|]. apply perm_skip.
      rewrite <- Hs. apply IH; assumption.
Qed.

Section Sampling.

Context {F : Type} {NF : Num F}.
Variable E : extern.

Lemma draws_sample_pool_perm A :
  forall k (pool : list A),
    (k <= List.length pool)%nat ->
    draws (sample_pool (F:=F) E pool k)
          (fun l => List.length l = k /\ exists rest, Permutation (l ++ rest) pool).
Proof.
  induction k as [|k IH]; intros pool Hk.
  - apply draws_ret. split; [reflexivity|]. exists pool. apply Permutation_refl.
  - simpl. eapply draws_bind; [apply draws_randbelow; lia|].
    intros j Hj. cbv beta in Hj. eapply draws_bind; [apply draws_index; exact Hj|].
    intros picked Hpicked. cbv beta in Hpicked.
    eapply draws_bind; [apply draws_index; lia|].
    intros moved Hmoved. cbv beta in Hmoved.
    replace (Z.to_nat (Z.of_nat (List.length pool) - 1))
      with (List.length pool - 1)%nat in Hmoved by lia.
    eapply draws_bind.
    + apply IH. rewrite removelast_len, set_nth_length. lia.
    + intros rest [Hlen [left Hperm]]. apply draws_ret. split.
      * simpl. rewrite Hlen. reflexivity.
      * exists left. simpl.
        eapply perm_trans; [apply perm_skip; exact Hperm|].
        apply pick_and_shrink; assumption.
Qed.

(** [random.sample(population, k)] returns [k] elements taken at distinct
    positions of the population. *)
Lemma draws_sample_perm A (population : list A) (k : Z) :
  0 <= k <= Z.of_nat (List.length population) ->
  draws (sample (F:=F) E population k)
        (fun l => List.length l = Z.to_nat k
                  /\ exists rest, Permutation (l ++ rest) population).
Proof.
  intros Hk. unfold sample.
  destruct (Z.ltb_spec k 0); [lia|].
  destruct (Z.ltb_spec (Z.of_nat (List.length population)) k); [lia|].
  simpl. apply draws_sample_pool_perm. lia.
Qed.

End Sampling.

(** What is sampled from a population without repeated keys has no
    repeated keys and lies in the population. *)
Lemma sampled_NoDup A B (f : A -> B) (l rest population : list A) :
  Permutation (l ++ rest) population -> NoDup (map f population) ->
  NoDup (map f l) /\ forall x, In x l -> In x population.
Proof.
  intros Hperm Hnd. split.
  - apply (Permutation_map f) in Hperm. rewrite map_app in Hperm.
    apply Permutation_sym in Hperm.
    apply (Permutation_NoDup Hperm) in Hnd.
    apply NoDup_app_remove_r in Hnd. exact Hnd.
  - intros x Hx. eapply Permutation_in; [exact Hperm|]. apply in_or_app. left. exact Hx.
Qed.
Lemma In_repeat_app A (x y : A) n l : In x (repeat y n ++ l) -> x = y \/ In x l.
Proof.
  intros H. apply in_app_or in H. destruct H as [H|H]; [|right; exact H].
  left. apply repeat_spec in H. exact H.
Qed.

Section MoreRows.

Context {F : Type} {NF : Num F}.
Variable E : extern.

(** *** Customers: score, income and the cluster address *)

Definition customer_more (i : Z) (c : customer F) : Prop :=
  300 <= c_credit_score c <= 850
  /\ (if i =? 249 then c_annual_income c = of_int 15000000
      else uniform_value (of_int 25000) (of_int 250000) (c_annual_income c))
  /\ (mem i [101; 102; 103] = true ->
      c_state c = "FL"%string
      /\ exists n, 100 <= n <= 105 /\ c_address c = (str_Z n ++ " Oak Street")%string).

Lemma customer_row_more i : draws (customer_row E i) (customer_more i).
Proof.
  unfold customer_row. repeat draw_step E.
  all: unfold customer_more; cbn [c_credit_score c_annual_income c_state c_address].
  all: split; [lia|]; split;
    [ match goal with
      | H : (_ =? 249) = _ |- _ => rewrite H; first [reflexivity | assumption]
      end
    | first [ intros _; split; [reflexivity|]; eexists; split; [eassumption | reflexivity]
            | intros Hm; congruence ] ].
Qed.

(** *** Users *)

Definition user_post (u : user) : Prop :=
  u_username u = ("user" ++ str_Z (u_customer_id u))%string
  /\ u_password_hash u = sha256_hex E ("password" ++ str_Z (u_customer_id u))%string
  /\ (if u_customer_id u =? 250
      then u_failed_login_attempts u = 47 /\ u_is_active u = false
      else 0 <= u_failed_login_attempts u <= 3 /\ u_is_active u = true).

Lemma user_row_more customer_id :
  draws (user_row (F:=F) E customer_id)
        (fun u => u_customer_id u = customer_id /\ user_post u).
Proof.
  unfold user_row. repeat draw_step E.
  all: split; [reflexivity|]; unfold user_post; cbn [u_username u_password_hash
         u_customer_id u_failed_login_attempts u_is_active].
  all: split; [reflexivity|]; split; [reflexivity|].
  all: match goal with H : (_ =? 250) = _ |- _ => rewrite H end.
  - split; reflexivity.
  - split; [|reflexivity].
    match goal with H : In _ (repeat 0 80 ++ _) |- _ =>
      apply In_repeat_app in H; destruct H as [->|H]; [lia|];
      apply In_repeat_app in H; destruct H as [->|H]; [lia|];
      apply In_repeat_app in H; destruct H as [->|H]; [lia|];
      destruct H as [<-|[]]; lia
    end.
Qed.

(** *** Accounts: number, bank, balance, rate and overdraft *)

Definition account_more (bank_ids : list Z) (i customer_id j : Z) (a : account F) : Prop :=
  a_account_number a = str_Z (1000000000 + i * 10 + j)
  /\ In (a_bank_id a) bank_ids
  /\ a_currency a = "USD"%string
  /\ (if customer_id =? 250
      then if j =? 0 then a_balance a = of_int 5000000
           else uniform_value (of_int 1000) (of_int 50000) (a_balance a)
      else uniform_value (of_int 100) (of_int 100000) (a_balance a))
  /\ match a_account_type a with
     | CHECKING => a_interest_rate a = of_int 0 /\ In (a_overdraft_limit a) [0; 500; 1000]
     | SAVINGS => uniform_value (dec 1 2) (dec 5 2) (a_interest_rate a)
                  /\ a_overdraft_limit a = 0
     | MONEY_MARKET => uniform_value (dec 2 2) (dec 6 2) (a_interest_rate a)
                       /\ a_overdraft_limit a = 0
     | CD => uniform_value (dec 3 2) (dec 7 2) (a_interest_rate a)
             /\ a_overdraft_limit a = 0
     end.

Lemma account_row_more bank_ids i customer_id j :
  bank_ids <> [] ->
  draws (account_row E bank_ids i customer_id j)
        (fun a => account_post a /\ account_more bank_ids i customer_id j a).
Proof.
  intros Hb. unfold account_row. repeat draw_step E.
  all: split; [split; reflexivity|].
  all: unfold account_more;
    cbn [a_account_number a_bank_id a_currency a_balance a_account_type
         a_interest_rate a_overdraft_limit].
  all: split; [reflexivity|]; split; [assumption|]; split; [reflexivity|].
  all: repeat match goal with
              | H : (_ =? _) = _ |- _ => rewrite H; clear H
              end.
  all: split; [first [reflexivity | assumption]|].
  all: split; first [reflexivity | assumption].
Qed.

(** The block of accounts of one customer: [num] rows, [num] between one
    and four, numbered by [j] in order. *)
Definition account_block (bank_ids : list Z) (ic : Z * Z) (new : list (account F)) : Prop :=
  exists num, 1 <= num <= 4
              /\ Forall2 (fun j a => account_post a
                                     /\ account_more bank_ids (fst ic) (snd ic) j a)
                         (range num) new.

Lemma customer_accounts_more bank_ids rows ic :
  bank_ids <> [] ->
  draws (customer_accounts E bank_ids rows ic)
        (fun out => exists new, out = rows ++ new /\ account_block bank_ids ic new).
Proof.
  intros Hb. destruct ic as [i customer_id]. unfold customer_accounts.
  eapply draws_bind; [draw_one E|]. intros n Hn. cbv beta in Hn.
  eapply draws_mono;
    [|apply draws_foldM_app
        with (P := fun j a => account_post a /\ account_more bank_ids i customer_id j a)].
  - intros out [new [-> Hnew]]. exists new. split; [reflexivity|].
    exists n. split; [|exact Hnew].
    simpl in Hn. destruct Hn as [<-|[<-|[<-|[<-|[]]]]]; lia.
  - intros j _. apply account_row_more; exact Hb.
Qed.

(** *** Loans: eligibility, terms, collateral *)

Definition loan_more (bank_ids : list Z) (c : Z * Z * F) (l : loan F) : Prop :=
  let '(customer_id, credit_score, _) := c in
  l_customer_id l = customer_id
  /\ In (l_bank_id l) bank_ids
  /\ l_maturity_date l = l_origination_date l + l_term_months l * 30
  /\ (exists base extra,
        l_interest_rate l = (base + extra)%num
        /\ base = (if 750 <=? credit_score then dec 3 2
                   else if 650 <=? credit_score then dec 5 2 else dec 8 2)
        /\ match l_loan_type l with
           | MORTGAGE =>
               750 <= credit_score
               /\ uniform_value (of_int 150000) (of_int 1000000) (l_principal_amount l)
               /\ In (l_term_months l) [180; 360]
               /\ uniform_value (of_int 0) (dec 2 2) extra
               /\ l_collateral_type l = Some REAL_ESTATE
               /\ l_collateral_value l = Some (l_principal_amount l * dec 12 1)%num
           | AUTO =>
               650 <= credit_score
               /\ uniform_value (of_int 15000) (of_int 75000) (l_principal_amount l)
               /\ In (l_term_months l) [36; 48; 60; 72]
               /\ uniform_value (dec 1 2) (dec 3 2) extra
               /\ l_collateral_type l = Some VEHICLE
               /\ l_collateral_value l = Some (l_principal_amount l * dec 12 1)%num
           | PERSONAL =>
               uniform_value (of_int 5000) (of_int 50000) (l_principal_amount l)
               /\ In (l_term_months l) [12; 24; 36; 48; 60]
               /\ uniform_value (dec 2 2) (dec 5 2) extra
               /\ l_collateral_type l = None
               /\ l_collateral_value l = None
           end)
  /\ (mem customer_id [101; 102; 103] = true ->
      l_remaining_balance l = (l_principal_amount l * dec 85 2)%num).

Lemma draws_conj A (c : M F A) (P Q : A -> Prop) :
  draws c P -> draws c Q -> draws c (fun a => P a /\ Q a).
Proof.
  intros HP HQ w. eapply wp_mono; [|apply wp_conj; [apply HP | apply HQ]].
  intros a w' [[Hdb Ha] [_ Hb]]. auto.
Qed.

Lemma loan_row_more bank_ids c :
  bank_ids <> [] -> draws (loan_row E bank_ids c) (loan_more bank_ids c).
Proof.
  intros Hb. destruct c as [[customer_id credit_score] annual_income].
  unfold loan_row.
  destruct (750 <=? credit_score) eqn:H750;
    [|destruct (650 <=? credit_score) eqn:H650].
  all: repeat draw_step E.
  all: try match goal with H : In _ _ |- _ => solve [simpl in H; intuition congruence] end.
  all: unfold loan_more;
    cbn [l_customer_id l_bank_id l_maturity_date l_origination_date l_term_months
         l_interest_rate l_loan_type l_principal_amount l_collateral_type
         l_collateral_value l_remaining_balance].
  all: split; [reflexivity|]; split; [assumption|]; split; [reflexivity|].
  all: split;
    [ eexists; eexists; split; [reflexivity|]; split;
      [ rewrite ?H750, ?H650; reflexivity |]
    | first [ intros _; reflexivity | intros Hm; congruence ] ].
  all: try apply Z.leb_le in H750.
  all: try apply Z.leb_le in H650.
  all: repeat split; first [assumption | lia].
Qed.

End MoreRows.
Section MoreRows2.

Context {F : Type} {NF : Num F}.
Variable E : extern.

(** *** Payments: dates, fee and the missing transaction link *)

Definition payment_timing (loan_id : Z) (origination_date : date) (customer_id month : Z)
    (p : payment F) : Prop :=
  p_loan_id p = loan_id
  /\ p_scheduled_date p = origination_date + month * 30
  /\ p_transaction_id p = None
  /\ (if (mem customer_id [101; 102; 103] && (12 <? month))%bool
      then 15 <= p_payment_date p - p_scheduled_date p <= 45
           /\ p_late_fee p = dec 5000 2
      else In (p_payment_date p - p_scheduled_date p) [0; 3; 7; 15]
           /\ p_late_fee p = (if 5 <? p_payment_date p - p_scheduled_date p
                              then dec 2500 2 else of_int 0)).

Lemma payment_row_timing loan_id monthly_payment origination_date customer_id month :
  draws (payment_row E loan_id monthly_payment origination_date customer_id month)
        (fun o => match o with
                  | Some p => payment_timing loan_id origination_date customer_id month p
                  | None => True
                  end).
Proof.
  unfold payment_row.
  destruct ((loan_id =? 150) && (month =? 15))%bool eqn:Hrev;
  destruct (mem customer_id [101; 102; 103] && (12 <? month))%bool eqn:Hirr.
  all: repeat draw_step E; try exact I.
  all: unfold payment_timing;
    cbn [p_loan_id p_scheduled_date p_transaction_id p_payment_date p_late_fee];
    rewrite Hirr;
    (split; [reflexivity|]); (split; [reflexivity|]); (split; [reflexivity|]).
  all: match goal with
       | |- context [?x + ?d - ?x] => replace (x + d - x) with d by lia
       end.
  all: split; first [lia | reflexivity | idtac].
  all: match goal with
       | H : In _ [0; 0; 0; 3; 7; 15] |- _ =>
           simpl in H; decompose [or] H; subst; try contradiction; simpl; tauto
       end.
Qed.

(** *** Service sessions *)

(** Sentiment and resolution by customer and topic. *)
Definition chat_mood (customer_id : Z) (t : topic) (s : F) (r : resolution) : Prop :=
  if mem customer_id [101; 102; 103]
  then In t [COMPLAINT; DISPUTE; LOAN; ACCOUNT_INQUIRY]
       /\ uniform_value (dec (-8) 1) (dec (-3) 1) s
       /\ In r [ESCALATED; PENDING]
  else match t with
       | COMPLAINT => uniform_value (dec (-9) 1) (dec (-3) 1) s
       | DISPUTE => uniform_value (dec (-5) 1) (dec 2 1) s
       | _ => uniform_value (dec (-2) 1) (dec 9 1) s /\ In r [RESOLVED; PENDING]
       end.

Definition chat_more (s : store F) (customer_ids : list Z) (c : chat F) : Prop :=
  In (ch_customer_id c) customer_ids
  /\ ch_user_id c = user_of_customer s (ch_customer_id c)
  /\ (exists d, 5 <= d <= 120
                /\ ch_session_end c = ch_session_start c + d * usec_per_minute)
  /\ (exists message, In message (topic_messages (ch_topic c))
                      /\ ch_transcript c = transcript_of E message (ch_session_start c))
  /\ (exists n, 100 <= n <= 999 /\ ch_agent_id c = ("AGENT_" ++ str_Z n)%string)
  /\ chat_mood (ch_customer_id c) (ch_topic c) (ch_sentiment_score c)
               (ch_resolution_status c).

Lemma chat_row_more s customer_ids :
  customer_ids <> [] ->
  draws (chat_row E s customer_ids) (chat_more s customer_ids).
Proof.
  intros Hc. unfold chat_row.
  eapply draws_bind; [apply draws_choice; exact Hc|]. intros customer_id Hcid.
  eapply draws_bind; [apply draws_choice; discriminate|]. intros drawn_topic _.
  eapply draws_bind
    with (P := fun tsr : topic * F * resolution =>
                 chat_mood customer_id (fst (fst tsr)) (snd (fst tsr)) (snd tsr)).
  - unfold chat_mood.
    destruct (mem customer_id [101; 102; 103]); [|destruct drawn_topic];
      repeat draw_step E; cbn [fst snd]; repeat split; try assumption.
    all: match goal with
         | H : In _ [RESOLVED; RESOLVED; PENDING] |- _ =>
             simpl in H; decompose [or] H; subst; try contradiction; simpl; tauto
         end.
  - intros [[topic sentiment_score] resolution_status] Hmood. cbn [fst snd] in Hmood.
    draw_step E. draw_step E.
    eapply draws_bind; [apply draws_choice; apply topic_messages_nonempty|].
    intros message Hmsg. cbv beta in Hmsg. repeat draw_step E.
    unfold chat_more;
      cbn [ch_customer_id ch_user_id ch_session_end ch_session_start ch_transcript
           ch_topic ch_agent_id ch_sentiment_score ch_resolution_status].
    split; [exact Hcid|]. split; [reflexivity|].
    split; [eexists; split; [eassumption | reflexivity]|].
    split; [exists message; split; [exact Hmsg | reflexivity]|].
    split; [eexists; split; [eassumption | reflexivity]|].
    exact Hmood.
Qed.

End MoreRows2.
(** *** Blocks of rows *)

Lemma concat_length_le A (ls : list (list A)) :
  Forall (fun l => (List.length l <= 1)%nat) ls ->
  (List.length (List.concat ls) <= List.length ls)%nat.
Proof.
  induction 1; simpl; [lia | rewrite length_app; lia].
Qed.

Lemma Forall2_concat_In A B (P : A -> list B -> Prop) (xs : list A)
    (news : list (list B)) (y : B) :
  Forall2 P xs news -> In y (List.concat news) ->
  exists x new, In x xs /\ In y new /\ P x new /\ In new news.
Proof.
  induction 1 as [|x new xs news Hx HF IH]; simpl; [intros []|].
  intros Hy. apply in_app_or in Hy. destruct Hy as [Hy|Hy].
  - exists x, new. auto.
  - destruct (IH Hy) as (x' & new' & H1 & H2 & H3 & H4). exists x', new'. auto.
Qed.

Lemma count_concat_le_n A B (n : nat) (f : B -> bool) (g : A -> bool) (xs : list A)
    (news : list (list B)) :
  Forall2 (fun x new => (List.length (filter f new) <= (if g x then n else 0))%nat)
          xs news ->
  (List.length (filter f (List.concat news)) <= n * List.length (filter g xs))%nat.
Proof.
  induction 1 as [|x new xs news Hx HF IH]; simpl; [lia|].
  rewrite filter_app, length_app. destruct (g x); simpl; lia.
Qed.

(** *** The stages, with the richer row properties *)

Section MoreStages.

Context {F : Type} {NF : Num F}.
Variable E : extern.

Lemma row_ids_nonempty A (rows : list A) : rows <> [] -> row_ids rows <> [].
Proof.
  intros Hne Hnil. apply (f_equal (@List.length Z)) in Hnil.
  rewrite row_ids_length in Hnil. destruct rows; [congruence | discriminate].
Qed.

Lemma generate_customers_more count w :
  wp (generate_customers E count)
     (fun _ w' => exists rows,
        db w' = add_customers (db w) rows
        /\ Forall2 (fun i c => customer_post i c /\ customer_more i c)
                   (range count) rows) w.
Proof.
  unfold generate_customers.
  eapply wp_bind_draws; [apply draws_Faker_seed|]. intros _ w1 Hw1 _.
  eapply wp_bind_draws.
  - apply draws_foldM_app with (P := fun i c => customer_post i c /\ customer_more i c).
    intros i _. apply draws_conj; [apply customer_row_spec | apply customer_row_more].
  - intros rows w2 Hw2 [new [-> Hnew]]. unfold insert_customers.
    apply wp_bind_get_db, wp_set_db. simpl.
    exists new. split; [congruence | exact Hnew].
Qed.

(** The user rows: one per sampled customer. *)
Definition users_post (n : nat) (k : Z) (rows : list user) : Prop :=
  List.length rows = Z.to_nat k
  /\ NoDup (map u_customer_id rows)
  /\ Forall (fun u => 1 <= u_customer_id u <= Z.of_nat n /\ user_post E u) rows.

Lemma generate_users_more w :
  0 <= to_int (of_int (Z.of_nat (List.length (customers (db w)))) * dec 8 1)%num
    <= Z.of_nat (List.length (customers (db w))) ->
  wp (generate_users E)
     (fun _ w' => exists rows,
        db w' = add_users (db w) rows
        /\ users_post (List.length (customers (db w)))
             (to_int (of_int (Z.of_nat (List.length (customers (db w)))) * dec 8 1)%num)
             rows) w.
Proof.
  intros Hk. unfold generate_users. apply wp_bind_get_db.
  rewrite row_ids_length.
  eapply wp_bind_draws.
  - apply draws_sample_perm. rewrite row_ids_length. exact Hk.
  - intros chosen w1 Hw1 [Hlen [rest Hperm]]. eapply wp_bind_draws.
    + apply draws_foldM_app with (P := fun c u => u_customer_id u = c /\ user_post E u).
      intros c _. apply user_row_more.
    + intros rows w2 Hw2 [new [-> Hnew]]. unfold insert_users.
      apply wp_bind_get_db, wp_set_db. simpl.
      exists new. split; [congruence|].
      destruct (@sampled_NoDup Z Z (fun c => c) chosen rest _ Hperm) as [Hnd Hin].
      { rewrite map_id. apply row_ids_NoDup. }
      rewrite map_id in Hnd.
      assert (Hids : map u_customer_id new = chosen).
      { rewrite <- (map_id chosen).
        apply (@Forall2_map_eq _ _ _ (fun c : Z => c) u_customer_id).
        eapply Forall2_weaken; [|exact Hnew]. intros c u _ [H _]. exact H. }
      split; [|split].
      * rewrite <- (Forall2_length Hnew). exact Hlen.
      * rewrite Hids. exact Hnd.
      * pose proof (Forall2_exists_l Hnew) as Hall.
        rewrite Forall_forall in Hall |- *. intros u Hu.
        destruct (Hall u Hu) as [c [_ Hpost]]. split; [|exact Hpost].
        assert (Hcin : In (u_customer_id u) chosen)
          by (rewrite <- Hids; apply in_map; exact Hu).
        apply Hin, row_ids_In in Hcin. exact Hcin.
Qed.

(** The accounts stage: one block of rows per customer, then the
    ownership rows. *)
Lemma generate_accounts_more w :
  banks (db w) <> [] ->
  accounts (db w) = [] ->
  (150 < List.length (customers (db w)))%nat ->
  wp (generate_accounts E)
     (fun _ w' => exists news owners,
        db w' = add_account_customers (add_accounts (db w) (List.concat news)) owners
        /\ Forall2 (account_block (row_ids (banks (db w))))
                   (enumerate (row_ids (customers (db w)))) news
        /\ map own_key owners
           = primary_keys (List.length (List.concat news))
                          (List.length (customers (db w)))
             ++ joint_keys 151) w.
Proof.
  intros Hbanks Haccs HN. unfold generate_accounts. apply wp_bind_get_db.
  assert (Hbids : row_ids (banks (db w)) <> []) by (apply row_ids_nonempty; exact Hbanks).
  eapply wp_bind_draws.
  { apply draws_foldM_ext with (P := account_block (row_ids (banks (db w)))).
    intros rows ic _. apply customer_accounts_more. exact Hbids. }
  intros rows w1 Hw1 [news [-> Hnews]]. simpl app.
  unfold insert_accounts.
  apply wp_bind, wp_bind_get_db, wp_set_db. apply wp_bind_get_db.
  cbn [db accounts add_accounts]. rewrite Hw1, Haccs. simpl app.
  set (accs := List.concat news).
  assert (Hlen : (List.length (customers (db w)) <= List.length accs)%nat).
  { apply Forall2_length in Hnews as Hl.
    unfold enumerate in Hl. rewrite length_combine, range_length, Nat2Z.id,
      row_ids_length, Nat.min_id in Hl.
    rewrite Hl. apply concat_length_ge.
    eapply Forall_impl; [|eapply Forall2_const_r with (P := fun new => exists ic, account_block (row_ids (banks (db w))) ic new)].
    - intros l [ic [num [Hnum Hrows]]].
      rewrite <- (Forall2_length Hrows), range_length. lia.
    - eapply Forall2_weaken; [|exact Hnews]. intros ic new _ H. exists ic. exact H. }
  assert (Hcs : customers (db w) <> [])
    by (destruct (customers (db w)); [simpl in HN; lia | discriminate]).
  eapply wp_bind_draws.
  { apply draws_foldM_snoc
      with (P := fun ia r => own_key r
                 = (snd ia, fst ia mod Z.of_nat (List.length (customers (db w))) + 1, PRIMARY)).
    intros rows [i aid] Hin. apply primary_row_spec; [exact Hcs|].
    simpl. unfold enumerate in Hin. apply in_combine_l in Hin.
    apply range_In in Hin. lia. }
  intros prim w2 Hw2 [new [-> Hprim]]. simpl app.
  eapply wp_bind_draws.
  { apply draws_index. rewrite row_ids_length. lia. }
  intros joint w3 Hw3 Hjoint. rewrite row_ids_nth_error in Hjoint by lia.
  inversion Hjoint; subst joint. clear Hjoint.
  eapply wp_bind_draws.
  { apply draws_foldM_snoc with (P := fun c r => own_key r = (151, c, JOINT)).
    intros rows c _. apply joint_row_spec. }
  intros owners w4 Hw4 [joints [-> Hjoints]].
  unfold insert_account_customers. apply wp_bind_get_db, wp_set_db. simpl.
  exists news, (new ++ joints). split; [|split].
  - rewrite Hw4, Hw3, Hw2. reflexivity.
  - exact Hnews.
  - rewrite map_app. f_equal.
    + rewrite (@Forall2_map_eq _ _ _
                 (fun ia : Z * Z =>
                    (snd ia, fst ia mod Z.of_nat (List.length (customers (db w))) + 1,
                     PRIMARY)) own_key _ _ Hprim).
      rewrite enumerate_row_ids, map_map. reflexivity.
    + apply (@Forall2_map_eq _ _ _ (fun c : Z => (151, c, JOINT)) own_key _ _ Hjoints).
Qed.

(** The loans stage: one row per sampled customer. *)
Lemma generate_loans_more w :
  banks (db w) <> [] ->
  (200 <= List.length (customers (db w)))%nat ->
  wp (generate_loans E)
     (fun _ w' => exists rows chosen,
        db w' = add_loans (db w) rows
        /\ List.length rows = 200%nat
        /\ Forall2 (fun c l => loan_post l /\ loan_more (row_ids (banks (db w))) c l)
                   chosen rows
        /\ NoDup (map (fun c : Z * Z * F => fst (fst c)) chosen)
        /\ (forall c, In c chosen -> In c (select_customer_scores (db w)))) w.
Proof.
  intros Hbanks HN. unfold generate_loans. apply wp_bind_get_db.
  assert (Hbids : row_ids (banks (db w)) <> []) by (apply row_ids_nonempty; exact Hbanks).
  eapply wp_bind_draws.
  { apply draws_sample_perm. unfold select_customer_scores, keyed.
    rewrite length_map, length_combine, row_ids_length, Nat.min_id. lia. }
  intros chosen w1 Hw1 [Hlen [rest Hperm]].
  eapply wp_bind_draws.
  { apply draws_foldM_app
      with (P := fun c l => loan_post l /\ loan_more (row_ids (banks (db w))) c l).
    intros c _. apply draws_conj.
    - eapply draws_mono; [|apply loan_row_spec; exact Hbids]. intros l [H _]. exact H.
    - apply loan_row_more. exact Hbids. }
  intros rows w2 Hw2 [new [-> Hnew]]. simpl app.
  unfold insert_loans. apply wp_bind_get_db, wp_set_db. simpl.
  exists new, chosen. split; [congruence|].
  destruct (@sampled_NoDup _ Z (fun c : Z * Z * F => fst (fst c)) chosen rest _ Hperm)
    as [Hnd Hin].
  { unfold select_customer_scores. rewrite map_map. simpl.
    change (map (fun x : Z * customer F => fst x) (keyed (customers (db w))))
      with (map fst (keyed (customers (db w)))).
    rewrite keyed_fst. apply row_ids_NoDup. }
  split; [|split; [|split]].
  - rewrite <- (Forall2_length Hnew). exact Hlen.
  - exact Hnew.
  - exact Hnd.
  - exact Hin.
Qed.

(** The sessions stage: 1000 rows. *)
Lemma generate_chat_history_more w :
  customers (db w) <> [] ->
  wp (generate_chat_history E)
     (fun _ w' => exists rows,
        db w' = add_chats (db w) rows
        /\ List.length rows = 1000%nat
        /\ Forall (chat_more E (db w) (row_ids (customers (db w)))) rows) w.
Proof.
  intros Hc. unfold generate_chat_history. apply wp_bind_get_db.
  assert (Hids : row_ids (customers (db w)) <> []) by (apply row_ids_nonempty; exact Hc).
  eapply wp_bind_draws.
  - apply draws_foldM_app
      with (P := fun _ c => chat_more E (db w) (row_ids (customers (db w))) c).
    intros i _. apply chat_row_more. exact Hids.
  - intros rows w1 Hw1 [new [-> Hnew]]. simpl app.
    unfold insert_chats. apply wp_bind_get_db, wp_set_db. simpl.
    exists new. split; [congruence|]. split.
    + rewrite <- (Forall2_length Hnew). apply range_length.
    + eapply Forall2_const_r. exact Hnew.
Qed.

Lemma loan_payments_more rows loan_id l :
  draws (loan_payments E rows (loan_id, l))
        (fun out => exists new, out = rows ++ new
           /\ ((List.length new <= 36)%nat
               /\ Forall (fun p => exists month,
                            0 <= month < 36
                            /\ payment_timing loan_id (l_origination_date l)
                                              (l_customer_id l) month p) new)).
Proof.
  unfold loan_payments. eapply draws_bind; [draw_one E|]. intros d _.
  set (months := range (Z.min ((d - l_origination_date l) / 30) 36)).
  eapply draws_mono.
  2: { apply draws_foldM_ext
         with (P := fun month new =>
                      Forall (payment_timing loan_id (l_origination_date l)
                                (l_customer_id l) month) new
                      /\ (List.length new <= 1)%nat).
       intros rows' month _. eapply draws_bind; [apply payment_row_timing|].
       intros [p|] Hp; apply draws_ret.
       - exists [p]. split; [reflexivity|].
         split; [constructor; [exact Hp | constructor] | simpl; lia].
       - exists []. split; [symmetry; apply app_nil_r|]. split; [constructor | simpl; lia]. }
  intros out [news [-> Hnews]]. exists (List.concat news). split; [reflexivity|]. split.
  - etransitivity.
    + apply concat_length_le.
      eapply Forall2_const_r with (P := fun new : list (payment F) => (List.length new <= 1)%nat).
      eapply Forall2_weaken; [|exact Hnews]. intros month new _ [_ H]. exact H.
    + rewrite <- (Forall2_length Hnews). unfold months. rewrite range_length. lia.
  - apply Forall_forall. intros p Hp.
    destruct (Forall2_concat_In p Hnews Hp) as (month & new & Hmonth & Hin & [Hpost _] & _).
    exists month. split.
    + unfold months in Hmonth. apply range_In in Hmonth. lia.
    + rewrite Forall_forall in Hpost. apply Hpost. exact Hin.
Qed.

(** The payments stage: every row belongs to a loan of the table, and no
    loan has more than 36 rows. *)
Definition payments_more (loan_rows : list (loan F)) (rows : list (payment F)) : Prop :=
  Forall (fun p => exists l month,
            In (p_loan_id p, l) (keyed loan_rows)
            /\ 0 <= month < 36
            /\ payment_timing (p_loan_id p) (l_origination_date l)
                              (l_customer_id l) month p) rows
  /\ forall k : Z,
       (List.length (filter (fun p => (p_loan_id p =? k)%Z) rows) <= 36)%nat.

Lemma generate_payments_more w :
  wp (generate_payments E)
     (fun _ w' => exists rows,
        db w' = add_payments (db w) rows /\ payments_more (loans (db w)) rows) w.
Proof.
  unfold generate_payments. apply wp_bind_get_db.
  eapply wp_bind_draws.
  { apply draws_foldM_ext
      with (P := fun (kl : Z * loan F) new =>
                   (List.length new <= 36)%nat
                   /\ Forall (fun p => exists month,
                                0 <= month < 36
                                /\ payment_timing (fst kl) (l_origination_date (snd kl))
                                                  (l_customer_id (snd kl)) month p) new).
    intros rows [loan_id l] _. apply loan_payments_more. }
  intros rows w1 Hw1 [news [-> Hnews]]. simpl app.
  unfold insert_payments. apply wp_bind_get_db, wp_set_db. simpl.
  exists (List.concat news). split; [congruence|]. split.
  - apply Forall_forall. intros p Hp.
    destruct (Forall2_concat_In p Hnews Hp) as ([loan_id l] & new & Hkl & Hin & [_ Hpost] & _).
    rewrite Forall_forall in Hpost. destruct (Hpost p Hin) as [month [Hm Ht]].
    cbn [fst snd] in Ht.
    assert (Hid : p_loan_id p = loan_id) by (destruct Ht as [H _]; exact H).
    exists l, month. rewrite Hid. split; [|split; assumption].
    unfold select_open_loans in Hkl. apply filter_In in Hkl. tauto.
  - intros k. etransitivity.
    + apply count_concat_le_n with (n := 36%nat) (g := fun kl : Z * loan F => (fst kl =? k)%Z).
      eapply Forall2_weaken; [|exact Hnews]. intros kl new _ [Hlen Hpost]. cbv beta.
      destruct (Z.eqb_spec (fst kl) k) as [Hk|Hk].
      * etransitivity; [apply filter_length_le | exact Hlen].
      * rewrite filter_nil_none; [simpl; lia|].
        intros p Hp. rewrite Forall_forall in Hpost.
        destruct (Hpost p Hp) as [month [_ [Hid _]]]. apply Z.eqb_neq. congruence.
    + assert (Hone : (List.length (filter (fun kl : Z * loan F => (fst kl =? k)%Z)
                                          (select_open_loans (db w))) <= 1)%nat).
      { apply count_key_le_1. unfold select_open_loans.
        apply NoDup_map_filter. rewrite keyed_fst. apply row_ids_NoDup. }
      lia.
Qed.

End MoreStages.
(** *** The whole run, table by table *)

Lemma blocks_rows {F} {NF : Num F} bank_ids (P : account F -> Prop)
    (ics : list (Z * Z)) (news : list (list (account F))) :
  (forall i customer_id j a,
     account_post a -> account_more bank_ids i customer_id j a -> P a) ->
  Forall2 (account_block bank_ids) ics news -> Forall P (List.concat news).
Proof.
  intros HP H. apply Forall_concat.
  induction H as [|ic new ics news [num [_ Hrows]] _ IH]; constructor; [|exact IH].
  clear - HP Hrows. induction Hrows as [|j acct js rows [Hpost Hmore] _ IH2];
    constructor; [|exact IH2].
  eapply HP; eassumption.
Qed.

Lemma blocks_post {F} {NF : Num F} bank_ids (ics : list (Z * Z))
    (news : list (list (account F))) :
  Forall2 (account_block bank_ids) ics news ->
  Forall (fun a => account_post a
                   /\ In (a_bank_id a) bank_ids
                   /\ a_currency a = "USD"%string) (List.concat news).
Proof.
  apply blocks_rows. intros i customer_id j a Hpost (_ & Hbank & Hcur & _). auto.
Qed.

Lemma blocks_length {F} {NF : Num F} bank_ids (ics : list (Z * Z))
    (news : list (list (account F))) :
  Forall2 (account_block bank_ids) ics news ->
  (List.length ics <= List.length (List.concat news) <= 4 * List.length ics)%nat.
Proof.
  induction 1 as [|ic new ics news [num [Hnum Hrows]] _ IH]; simpl; [lia|].
  rewrite length_app, <- (Forall2_length Hrows), range_length. lia.
Qed.

Lemma enumerate_length A (xs : list A) : List.length (enumerate xs) = List.length xs.
Proof.
  unfold enumerate. rewrite length_combine, range_length, Nat2Z.id. apply Nat.min_id.
Qed.

Lemma user_of_customer_users {F} (s s' : store F) customer_id :
  users s = users s' -> user_of_customer s customer_id = user_of_customer s' customer_id.
Proof. unfold user_of_customer. intros ->. reflexivity. Qed.

Section Detail.

Context {F : Type} {NF : Num F}.
Variable E : extern.

(** [SELECT customer_id, credit_score, annual_income] on a customers table. *)
Definition scores_of (cs : list (customer F)) : list (Z * Z * F) :=
  map (fun kc => (fst kc, c_credit_score (snd kc), c_annual_income (snd kc))) (keyed cs).

(** What every run of [main] leaves in the database, table by table:
    [blocks] are the accounts grouped by the customer iteration that created
    them, [chosen] the customers sampled for a loan. *)
Definition generated_in_detail (s : store F) : Prop :=
  exists cs us blocks owners ts ls chosen ps chs,
    s = built cs us (List.concat blocks) owners ts ls ps chs
    /\ Forall2 (fun i c => customer_post i c /\ customer_more i c) (range 500) cs
    /\ users_post E 500 (to_int (of_int 500 * dec 8 1)%num) us
    /\ Forall2 (account_block (row_ids bank_rows)) (enumerate (row_ids cs)) blocks
    /\ map own_key owners
       = primary_keys (List.length (List.concat blocks)) 500 ++ joint_keys 151
    /\ Forall2 (txn_post E (balances (List.concat blocks)) 250) (range 5000) ts
    /\ List.length ls = 200%nat
    /\ Forall2 (fun c l => loan_post l /\ loan_more (row_ids bank_rows) c l) chosen ls
    /\ NoDup (map (fun c : Z * Z * F => fst (fst c)) chosen)
    /\ (forall c, In c chosen -> In c (scores_of cs))
    /\ payments_more ls ps
    /\ List.length chs = 1000%nat
    /\ Forall (chat_more E s (row_ids cs)) chs.

Theorem main_run_in_detail w :
  sample_fits (F:=F) -> wp (main E) (fun _ w' => generated_in_detail (db w')) w.
Proof.
  intros Hfit. unfold main.
  eapply wp_bind_draws; [apply draws_reset_seeds|]. intros _ w0 _ _.
  apply wp_bind, wp_set_db.
  apply wp_bind. eapply wp_mono; [|apply generate_banks_spec].
  intros ? w1 H1. cbn [db] in H1.
  apply wp_bind. eapply wp_mono; [|apply generate_customers_more].
  intros ? w2 [cs [H2 Hcs]]. rewrite H1 in H2.
  assert (Hlen_cs : List.length cs = 500%nat).
  { rewrite <- (Forall2_length Hcs), range_length. reflexivity. }
  apply wp_bind. eapply wp_mono; [|apply generate_users_more].
  2: { rewrite H2. cbn [customers add_customers add_banks empty_store app].
       rewrite Hlen_cs. exact Hfit. }
  intros ? w3 [us [H3 Hus]]. rewrite H2 in H3, Hus.
  cbn [customers add_customers add_banks empty_store app] in Hus.
  rewrite Hlen_cs in Hus. change (Z.of_nat 500) with 500 in Hus.
  apply wp_bind. eapply wp_mono; [|apply generate_accounts_more].
  2: { rewrite H3. discriminate. }
  2: { rewrite H3. reflexivity. }
  2: { rewrite H3. cbn [customers add_users add_customers add_banks empty_store app].
       rewrite Hlen_cs. lia. }
  intros ? w4 (blocks & owners & H4 & Hblocks & Hkeys). rewrite H3 in H4, Hblocks, Hkeys.
  cbn [customers banks add_users add_customers add_banks empty_store app fold_left]
    in Hblocks, Hkeys.
  change (fold_left insert_bank bank_rows []) with bank_rows in Hblocks.
  rewrite Hlen_cs in Hkeys.
  set (accs := List.concat blocks) in *.
  assert (Hn : (500 <= List.length accs)%nat).
  { pose proof (blocks_length Hblocks) as Hb.
    rewrite enumerate_length, row_ids_length, Hlen_cs in Hb. unfold accs. lia. }
  assert (Haccs : Forall account_post accs).
  { eapply Forall_impl; [|apply (blocks_post Hblocks)]. intros acct [Ha _]. exact Ha. }
  assert (Hown : fold_left insert_ownership owners [] = owners).
  { apply (insert_ownership_fresh owners []). simpl app.
    replace (map own_key2 owners) with (map drop_rel (map own_key owners))
      by (rewrite map_map; reflexivity).
    rewrite Hkeys. apply generated_keys_NoDup. }
  assert (H4' : db w4 = built cs us accs owners [] [] [] []).
  { rewrite H4. unfold built, add_account_customers, add_accounts, add_users,
      add_customers, add_banks, empty_store. cbn. rewrite Hown. reflexivity. }
  clear H4.
  assert (Hactive : select_active_accounts (db w4) = balances accs).
  { rewrite H4'. apply select_active_all. exact Haccs. }
  destruct (customer_250_first Hn) as [rest Hrest].
  assert (H250 : select_customer_250_accounts (db w4) = 250 :: rest).
  { rewrite select_customer_250_keys, H4'. cbn [accounts account_customers built].
    rewrite Hkeys. exact Hrest. }
  apply wp_bind.
  eapply wp_mono; [|apply generate_transactions_spec with (first := 250) (rest := rest)].
  2: { rewrite Hactive. intros Hnil. apply (f_equal (map fst)) in Hnil.
       rewrite balances_fst in Hnil. apply (f_equal (@List.length Z)) in Hnil.
       rewrite row_ids_length in Hnil. simpl in Hnil. lia. }
  2: exact H250.
  2: { rewrite Hactive.
       assert (Hin : In 250 (map fst (balances accs)))
         by (rewrite balances_fst; apply row_ids_In; lia).
       apply in_map_iff in Hin. destruct Hin as [p [Hp Hin]].
       apply (find_exists _ _ p Hin). rewrite Hp. reflexivity. }
  intros ? w5 (ts & H5 & Hts). rewrite Hactive, H4' in *.
  apply wp_bind. eapply wp_mono; [|apply generate_loans_more].
  2: { rewrite H5. discriminate. }
  2: { rewrite H5. cbn. rewrite Hlen_cs. lia. }
  intros ? w6 (ls & chosen & H6 & Hls_len & Hls & Hnd & Hchosen).
  rewrite H5 in H6, Hls, Hchosen.
  cbn [banks customers add_transactions built] in Hls, Hchosen.
  apply wp_bind. eapply wp_mono; [|apply generate_payments_more].
  intros ? w7 (ps & H7 & Hps). rewrite H6 in H7, Hps.
  cbn [loans add_loans add_transactions built app] in Hps.
  eapply wp_mono; [|apply generate_chat_history_more].
  2: { rewrite H7. cbn. intros Hnil. rewrite Hnil in Hlen_cs. discriminate. }
  intros ? w8 (chs & H8 & Hchs_len & Hchs). rewrite H7 in H8, Hchs.
  cbn [customers add_payments add_loans add_transactions built] in Hchs.
  exists cs, us, blocks, owners, ts, ls, chosen, ps, chs.
  split; [exact H8|].
  repeat (split; [assumption|]).
  rewrite H8. eapply Forall_impl; [|exact Hchs].
  intros c (Hc1 & Hc2 & Hrest'). split; [exact Hc1|]. split; [|exact Hrest'].
  rewrite Hc2. apply user_of_customer_users. reflexivity.
Qed.

End Detail.
(** *** Decimal text *)

(** [int(s)] on decimal text. *)
Definition parse_Z (s : string) : option Z :=
  option_map Z.of_int (DecimalString.NilZero.int_of_string s).

Lemma parse_str_Z z : parse_Z (str_Z z) = Some z.
Proof.
  unfold parse_Z, str_Z.
  rewrite DecimalString.NilZero.isi.
  - simpl. rewrite DecimalZ.of_to. reflexivity.
  - intros H. pose proof (DecimalZ.of_to z) as Hz. rewrite H in Hz.
    simpl in Hz. subst z. discriminate H.
  - intros H. pose proof (DecimalZ.of_to z) as Hz. rewrite H in Hz.
    simpl in Hz. subst z. discriminate H.
Qed.

Lemma str_Z_inj a b : str_Z a = str_Z b -> a = b.
Proof.
  intros H. apply (f_equal parse_Z) in H. rewrite !parse_str_Z in H.
  inversion H. reflexivity.
Qed.

(** Leading zeros do not change the number read. *)
Lemma parse_leading_zero s :
  s <> EmptyString -> (forall t, s <> String "-" t) ->
  parse_Z (String "0" s) = parse_Z s.
Proof.
  intros Hne Hminus. destruct s as [|c t]; [congruence|].
  unfold parse_Z, DecimalString.NilZero.int_of_string.
  destruct (Ascii.eqb_spec c "-"%char) as [->|Hc]; [exfalso; eapply Hminus; reflexivity|].
  change (Ascii.eqb "0" "-") with false. cbv iota.
  unfold DecimalString.NilZero.uint_of_string.
  change (DecimalString.NilEmpty.uint_of_string (String "0" (String c t)))
    with (option_map Decimal.D0 (DecimalString.NilEmpty.uint_of_string (String c t))).
  destruct (DecimalString.NilEmpty.uint_of_string (String c t)); reflexivity.
Qed.

Lemma str_Z_digits z :
  0 <= z -> str_Z z <> EmptyString /\ forall t, str_Z z <> String "-" t.
Proof.
  intros Hz. unfold str_Z. destruct z as [|p|p]; [split; intros; discriminate| |lia].
  simpl. destruct (Pos.to_uint p) eqn:Hp; simpl; split; intros; discriminate.
Qed.

Lemma parse_zeros n s :
  s <> EmptyString -> (forall t, s <> String "-" t) ->
  parse_Z (zeros n ++ s) = parse_Z s.
Proof.
  intros Hne Hminus. induction n as [|n IH]; [reflexivity|].
  simpl. rewrite parse_leading_zero; [exact IH | |].
  - destruct n; simpl; [exact Hne | discriminate].
  - intros t. destruct n; simpl; [apply Hminus | discriminate].
Qed.

(** Reading [f'{i:06d}'] gives [i] back. *)
Lemma parse_pad6 i : 0 <= i -> parse_Z (pad6 i) = Some i.
Proof.
  intros Hi. unfold pad6. destruct (str_Z_digits Hi) as [Hne Hminus].
  rewrite parse_zeros by assumption. apply parse_str_Z.
Qed.

Lemma pad6_inj i j : 0 <= i -> 0 <= j -> pad6 i = pad6 j -> i = j.
Proof.
  intros Hi Hj H. apply (f_equal parse_Z) in H. rewrite !parse_pad6 in H by assumption.
  inversion H. reflexivity.
Qed.

Lemma append_inj_length (a b x y : string) :
  String.length a = String.length b -> (a ++ x)%string = (b ++ y)%string ->
  a = b /\ x = y.
Proof.
  revert b. induction a as [|c a IH]; intros [|d b] Hlen H; simpl in *;
    try discriminate; [auto|].
  inversion H; subst. destruct (IH b) as [-> ->]; [lia | assumption | auto].
Qed.

(** *** Lists without repetition *)

Lemma NoDup_map_injective A B (f : A -> B) (l : list A) :
  (forall x y, f x = f y -> x = y) -> NoDup l -> NoDup (map f l).
Proof.
  intros Hinj. induction 1 as [|a t Hnotin Hnd IH]; simpl; constructor; [|exact IH].
  intros Hin. apply in_map_iff in Hin. destruct Hin as [b [Hb Hin]].
  apply Hinj in Hb. subst b. contradiction.
Qed.

(** Rows built from pairwise distinct indices, with a column that
    determines the index, differ in that column. *)
Lemma NoDup_column A B C (R : A -> B -> Prop) (f : B -> C) (xs : list A) (ys : list B) :
  Forall2 R xs ys -> NoDup xs ->
  (forall x x' y y', In x xs -> In x' xs -> R x y -> R x' y' -> f y = f y' -> x = x') ->
  NoDup (map f ys).
Proof.
  intros HF. induction HF as [|x y xs ys Hxy HF IH]; intros Hnd Hdet; simpl;
    [constructor|].
  inversion Hnd as [|? ? Hnotin Hnd']; subst. constructor.
  - intros Hin. apply in_map_iff in Hin. destruct Hin as [y' [Hy' Hin]].
    apply In_nth_error in Hin. destruct Hin as [n Hn].
    destruct (Forall2_nth_error_r _ HF Hn) as [x' [Hx' Hxy']].
    apply nth_error_In in Hx'.
    assert (x = x').
    { apply (Hdet x x' y y'); simpl; auto. }
    subst x'. contradiction.
  - apply IH; [exact Hnd'|].
    intros a a' b b' Ha Ha'. apply Hdet; simpl; auto.
Qed.

Lemma Forall2_filter_length A B (f : A -> bool) (g : B -> bool) (xs : list A)
    (ys : list B) :
  Forall2 (fun x y => g y = f x) xs ys ->
  List.length (filter g ys) = List.length (filter f xs).
Proof.
  induction 1 as [|x y xs ys Hxy _ IH]; simpl; [reflexivity|].
  rewrite Hxy. destruct (f x); simpl; congruence.
Qed.

(** *** Account numbers and positions *)

Section Blocks.

Context {F : Type} {NF : Num F}.

(** The numbers of the accounts of consecutive customers, as integers:
    pairwise distinct, block after block. *)
Lemma blocks_numbers bank_ids :
  forall n a (news : list (list (account F))),
    Forall2 (account_block bank_ids)
            (map (fun k => (Z.of_nat k, Z.of_nat k + 1)) (seq a n)) news ->
    exists keys, map (@a_account_number F) (List.concat news) = map str_Z keys
                 /\ NoDup keys
                 /\ Forall (fun k => 1000000000 + Z.of_nat a * 10 <= k) keys.
Proof.
  induction n as [|n IH]; intros a news H; cbn [seq map] in H.
  - inversion H; subst. exists []. repeat split; constructor.
  - inversion H as [|ic new ics news' [num [Hnum Hrows]] Hrest]; subst.
    destruct (IH (S a) news' Hrest) as (keys & Hkeys & Hnd & Hlow).
    cbn [fst snd] in Hrows.
    exists (map (fun j => 1000000000 + Z.of_nat a * 10 + j) (range num) ++ keys).
    split; [|split].
    + cbn [List.concat]. rewrite !map_app, Hkeys. f_equal. rewrite map_map.
      apply Forall2_map_eq.
      eapply Forall2_weaken; [|exact Hrows].
      intros j acct _ [_ (Hnum' & _)]. exact Hnum'.
    + apply NoDup_app.
      * apply NoDup_map_injective; [intros x y; lia | apply range_NoDup].
      * exact Hnd.
      * intros k Hk Hk'. apply in_map_iff in Hk. destruct Hk as [j [<- Hj]].
        apply range_In in Hj. rewrite Forall_forall in Hlow.
        specialize (Hlow _ Hk'). lia.
    + apply Forall_app. split.
      * apply Forall_forall. intros k Hk. apply in_map_iff in Hk.
        destruct Hk as [j [<- Hj]]. apply range_In in Hj. lia.
      * eapply Forall_impl; [|exact Hlow]. intros k Hk. cbv beta in Hk. lia.
Qed.

Lemma account_numbers_NoDup bank_ids (cs : list (customer F))
    (news : list (list (account F))) :
  Forall2 (account_block bank_ids) (enumerate (row_ids cs)) news ->
  NoDup (map (@a_account_number F) (List.concat news)).
Proof.
  rewrite enumerate_row_ids. intros H.
  destruct (blocks_numbers _ _ H) as (keys & -> & Hnd & _).
  apply NoDup_map_injective; [apply str_Z_inj | exact Hnd].
Qed.


End Blocks.
(** ** Properties of every run, table by table *)

Lemma combine_seq_nth_In A (rows : list A) :
  forall a n x, nth_error rows n = Some x ->
                In (Z.of_nat (a + n), x)
                   (combine (map Z.of_nat (seq a (List.length rows))) rows).
Proof.
  induction rows as [|r rows IH]; intros a [|n] x Hn; simpl in Hn; try discriminate.
  - inversion Hn; subst. left. rewrite Nat.add_0_r. reflexivity.
  - right. replace (a + S n)%nat with (S a + n)%nat by lia. apply IH. exact Hn.
Qed.

Lemma keyed_nth_In A (rows : list A) n x :
  nth_error rows n = Some x -> In (Z.of_nat n + 1, x) (keyed rows).
Proof.
  intros Hn. unfold keyed, row_ids.
  replace (Z.of_nat n + 1) with (Z.of_nat (1 + n)) by lia.
  apply combine_seq_nth_In. exact Hn.
Qed.

(** [user_mappings.get(customer_id)] returns the key of a user row of the
    customer, or nothing when the customer has no user row. *)
Lemma user_of_customer_spec {F} (s : store F) customer_id :
  match user_of_customer s customer_id with
  | Some uid => 1 <= uid
                /\ exists u, nth_error (users s) (Z.to_nat (uid - 1)) = Some u
                             /\ u_customer_id u = customer_id
  | None => forall u, In u (users s) -> u_customer_id u <> customer_id
  end.
Proof.
  unfold user_of_customer.
  assert (Hgen : forall (l : list (Z * user)) acc,
            let r := fold_left (fun found ku => if u_customer_id (snd ku) =? customer_id
                                                then Some (fst ku) else found) l acc in
            (r = acc /\ forall ku, In ku l -> u_customer_id (snd ku) <> customer_id)
            \/ (exists ku, In ku l /\ u_customer_id (snd ku) = customer_id
                           /\ r = Some (fst ku))).
  { induction l as [|ku l IH]; intros acc; simpl.
    - left. split; [reflexivity | intros ? []].
    - destruct (Z.eqb_spec (u_customer_id (snd ku)) customer_id) as [Heq|Hne].
      + destruct (IH (Some (fst ku))) as [[Hr Hnone]|[ku' [Hin [Hc Hr]]]].
        * right. exists ku. auto.
        * right. exists ku'. auto.
      + destruct (IH acc) as [[Hr Hnone]|[ku' [Hin [Hc Hr]]]].
        * left. split; [exact Hr|]. intros ku' [<-|Hin]; auto.
        * right. exists ku'. auto. }
  destruct (Hgen (keyed (users s)) None) as [[Hr Hnone]|[[uid u] [Hin [Hc Hr]]]].
  - cbv zeta in Hr. rewrite Hr. intros u Hu.
    apply In_nth_error in Hu. destruct Hu as [n Hn].
    apply (Hnone _ (keyed_nth_In _ _ Hn)).
  - cbv zeta in Hr. rewrite Hr. simpl fst. apply keyed_In in Hin.
    destruct Hin as [H1 Hn]. split; [exact H1|]. exists u. auto.
Qed.

Section TableProperties.

Context {F : Type} {NF : Num F}.
Variable E : extern.

Ltac in_detail Hfit :=
  eapply wp_mono; [|apply (main_run_in_detail E); exact Hfit];
  intros [] ? (cs & us & blocks & owners & ts & ls & chosen & ps & chs & -> & Hcs & Hus
              & Hblocks & Hkeys & Hts & Hls_len & Hls & Hnd & Hchosen & Hps
              & Hchs_len & Hchs);
  cbn [built banks customers users accounts account_customers transactions loans
       payments chat_history] in *.

Ltac tables :=
  cbn [built banks customers users accounts account_customers transactions loans
       payments chat_history].

(** *** Customers *)

(** Credit scores lie in 300..850; the record of ordinal 249 has income
    15000000 and every other an income drawn by [uniform(25000, 250000)];
    the records of ordinals 101 to 103 live in FL on Oak Street, numbers 100
    to 105. *)
Definition customers_profiled (s : store F) : Prop :=
  Forall2 (fun i c =>
             300 <= c_credit_score c <= 850
             /\ (i = 249 -> c_annual_income c = of_int 15000000)
             /\ (i <> 249 ->
                 uniform_value (of_int 25000) (of_int 250000) (c_annual_income c))
             /\ (In i [101; 102; 103] ->
                 c_state c = "FL"%string
                 /\ exists n, 100 <= n <= 105
                              /\ c_address c = (str_Z n ++ " Oak Street")%string))
          (range 500) (customers s).

Theorem customers_scores_income_address w :
  sample_fits -> wp (main E) (fun _ w' => customers_profiled (db w')) w.
Proof.
  intros Hfit. in_detail Hfit. unfold customers_profiled. tables.
  eapply Forall2_weaken; [|exact Hcs]. intros i c _ [_ (Hscore & Hincome & Hcluster)].
  split; [exact Hscore|]. split; [|split].
  - intros ->. exact Hincome.
  - intros Hi. destruct (Z.eqb_spec i 249); [contradiction | exact Hincome].
  - intros Hi. apply Hcluster. simpl in Hi.
    destruct Hi as [<-|[<-|[<-|[]]]]; reflexivity.
Qed.

(** *** Users *)

(** 400 user rows, for pairwise distinct customers of the table, with
    pairwise distinct user names. *)
Definition users_sampled (s : store F) : Prop :=
  List.length (users s) = 400%nat
  /\ NoDup (map u_customer_id (users s))
  /\ NoDup (map u_username (users s))
  /\ Forall (fun u => 1 <= u_customer_id u <= 500
                      /\ u_username u = ("user" ++ str_Z (u_customer_id u))%string)
            (users s).

Theorem users_sampled_without_repetition w :
  to_int (of_int 500 * dec 8 1)%num = 400 ->
  wp (main E) (fun _ w' => users_sampled (db w')) w.
Proof.
  intros H400.
  assert (Hfit : sample_fits (F:=F)) by (unfold sample_fits; rewrite H400; lia).
  in_detail Hfit. rewrite H400 in Hus. destruct Hus as (Hlen & Hids & Hrows).
  unfold users_sampled. tables. split; [exact Hlen|]. split; [exact Hids|]. split.
  - assert (Hnames : map u_username us
                     = map (fun c => ("user" ++ str_Z c)%string) (map u_customer_id us)).
    { rewrite map_map. apply map_ext_in. intros u Hu.
      rewrite Forall_forall in Hrows. destruct (Hrows u Hu) as [_ [Hname _]]. exact Hname. }
    rewrite Hnames. apply NoDup_map_injective; [|exact Hids].
    intros x y Hxy. injection Hxy as Hxy. apply str_Z_inj. exact Hxy.
  - eapply Forall_impl; [|exact Hrows]. intros u [Hid [Hname _]]. auto.
Qed.

(** The user row of customer 250 has 47 failed logins and is inactive;
    every other user row is active with at most 3 failed logins. *)
Definition user_flags (s : store F) : Prop :=
  Forall (fun u => if u_customer_id u =? 250
                   then u_failed_login_attempts u = 47 /\ u_is_active u = false
                   else 0 <= u_failed_login_attempts u <= 3 /\ u_is_active u = true)
         (users s).

Theorem compromised_user_is_customer_250 w :
  sample_fits -> wp (main E) (fun _ w' => user_flags (db w')) w.
Proof.
  intros Hfit. in_detail Hfit. destruct Hus as (_ & _ & Hrows).
  unfold user_flags. tables. eapply Forall_impl; [|exact Hrows].
  intros u [_ (_ & _ & Hflags)]. exact Hflags.
Qed.

(** *** Accounts *)

(** Between 500 and 2000 accounts, with pairwise distinct account numbers,
    each at one of the five banks and in USD. *)
Definition accounts_keyed (s : store F) : Prop :=
  (500 <= List.length (accounts s) <= 2000)%nat
  /\ NoDup (map (@a_account_number F) (accounts s))
  /\ Forall (fun a => 1 <= a_bank_id a <= 5 /\ a_currency a = "USD"%string) (accounts s).

Theorem account_numbers_are_unique w :
  sample_fits -> wp (main E) (fun _ w' => accounts_keyed (db w')) w.
Proof.
  intros Hfit. in_detail Hfit.
  assert (Hlen_cs : List.length cs = 500%nat).
  { rewrite <- (Forall2_length Hcs), range_length. reflexivity. }
  unfold accounts_keyed. tables. split; [|split].
  - pose proof (blocks_length Hblocks) as Hb.
    rewrite enumerate_length, row_ids_length, Hlen_cs in Hb. lia.
  - eapply account_numbers_NoDup. exact Hblocks.
  - eapply Forall_impl; [|apply (blocks_post Hblocks)].
    intros a (_ & Hbank & Hcur). split; [|exact Hcur].
    apply row_ids_In in Hbank. exact Hbank.
Qed.

(** Rate and overdraft by account type. *)
Definition account_products (s : store F) : Prop :=
  Forall (fun a =>
            match a_account_type a with
            | CHECKING => a_interest_rate a = of_int 0
                          /\ In (a_overdraft_limit a) [0; 500; 1000]
            | SAVINGS => uniform_value (dec 1 2) (dec 5 2) (a_interest_rate a)
                         /\ a_overdraft_limit a = 0
            | MONEY_MARKET => uniform_value (dec 2 2) (dec 6 2) (a_interest_rate a)
                              /\ a_overdraft_limit a = 0
            | CD => uniform_value (dec 3 2) (dec 7 2) (a_interest_rate a)
                    /\ a_overdraft_limit a = 0
            end)
         (accounts s).

Theorem only_checking_has_overdraft w :
  sample_fits -> wp (main E) (fun _ w' => account_products (db w')) w.
Proof.
  intros Hfit. in_detail Hfit. unfold account_products. tables.
  eapply blocks_rows; [|exact Hblocks].
  intros i customer_id j a _ (_ & _ & _ & _ & Hprod). exact Hprod.
Qed.





(** *** Transactions *)

(** 5000 rows, of which the 51 of the window 2000..2050 are flagged. *)
Definition flagged_rows (s : store F) : Prop :=
  List.length (transactions s) = 5000%nat
  /\ List.length (filter (@t_is_flagged F) (transactions s)) = 51%nat.

Theorem exactly_51_flagged_transactions w :
  sample_fits -> wp (main E) (fun _ w' => flagged_rows (db w')) w.
Proof.
  intros Hfit. in_detail Hfit. unfold flagged_rows. tables. split.
  - rewrite <- (Forall2_length Hts). apply range_length.
  - rewrite (@Forall2_filter_length _ _
               (fun i => ((2000 <=? i) && (i <=? 2050))%bool) (@t_is_flagged F)
               (range 5000) ts).
    + vm_compute. reflexivity.
    + eapply Forall2_weaken; [|exact Hts]. intros i t _ (_ & Hin & Hout & _).
      destruct (Z.leb_spec 2000 i); destruct (Z.leb_spec i 2050); simpl;
        first [ apply Hout; lia | apply Hin; lia ].
Qed.

(** When the clock prints every date in the same number of characters,
    the reference numbers of a run are pairwise distinct. *)
Definition references_distinct (s : store F) : Prop :=
  NoDup (map (@t_reference_number F) (transactions s)).

Theorem reference_numbers_are_unique w :
  (forall k k', String.length (strftime_Ymd E (wall_clock E k))
                = String.length (strftime_Ymd E (wall_clock E k'))) ->
  sample_fits ->
  wp (main E) (fun _ w' => references_distinct (db w')) w.
Proof.
  intros Hwidth Hfit. in_detail Hfit. unfold references_distinct. tables.
  eapply NoDup_column; [exact Hts | apply range_NoDup |].
  intros i i' t t' Hi Hi' (_ & _ & _ & [k Hk]) (_ & _ & _ & [k' Hk']) Heq.
  rewrite Hk, Hk' in Heq. injection Heq as Heq.
  apply append_inj_length in Heq; [|apply Hwidth].
  apply range_In in Hi, Hi'. apply pad6_inj; [lia | lia | tauto].
Qed.

(** *** Loans *)

(** 200 loans, of pairwise distinct customers of the table, each at one
    of the five banks. *)
Definition loans_keyed (s : store F) : Prop :=
  List.length (loans s) = 200%nat
  /\ NoDup (map (@l_customer_id F) (loans s))
  /\ Forall (fun l => 1 <= l_customer_id l <= 500 /\ 1 <= l_bank_id l <= 5) (loans s).

Lemma scores_of_In (cs : list (customer F)) customer_id credit_score annual_income :
  In (customer_id, credit_score, annual_income) (scores_of cs) ->
  1 <= customer_id <= Z.of_nat (List.length cs)
  /\ exists c, nth_error cs (Z.to_nat (customer_id - 1)) = Some c
               /\ credit_score = c_credit_score c
               /\ annual_income = c_annual_income c.
Proof.
  unfold scores_of. intros Hin. apply in_map_iff in Hin.
  destruct Hin as [[k c] [Heq Hin]]. simpl in Heq. inversion Heq; subst.
  pose proof (keyed_In _ _ _ Hin) as [H1 Hn]. split.
  - split; [exact H1|].
    assert (Hlt : (Z.to_nat (customer_id - 1) < List.length cs)%nat)
      by (apply nth_error_Some; congruence).
    lia.
  - exists c. auto.
Qed.

Theorem one_loan_per_sampled_customer w :
  sample_fits -> wp (main E) (fun _ w' => loans_keyed (db w')) w.
Proof.
  intros Hfit. in_detail Hfit.
  assert (Hlen_cs : List.length cs = 500%nat).
  { rewrite <- (Forall2_length Hcs), range_length. reflexivity. }
  unfold loans_keyed. tables. split; [exact Hls_len|]. split.
  - rewrite (@Forall2_map_eq _ _ _ (fun c : Z * Z * F => fst (fst c))
               (@l_customer_id F) chosen ls); [exact Hnd|].
    eapply Forall2_weaken; [|exact Hls].
    intros [[cid score] income] l _ [_ Hmore]. destruct Hmore as [Hid _]. exact Hid.
  - apply Forall_forall. intros l Hl.
    apply In_nth_error in Hl. destruct Hl as [n Hn].
    destruct (Forall2_nth_error_r _ Hls Hn) as [[[cid score] income] [Hc [_ Hmore]]].
    destruct Hmore as (Hid & Hbank & _).
    apply nth_error_In, Hchosen, scores_of_In in Hc. destruct Hc as [Hrange _].
    rewrite Hlen_cs in Hrange. split; [rewrite Hid; exact Hrange|].
    apply row_ids_In in Hbank. exact Hbank.
Qed.

(** The loan type follows the credit score of the borrower: a MORTGAGE
    needs 750, an AUTO loan 650; the base of the rate is 0.03 from 750, 0.05
    from 650 and 0.08 below. *)
Definition loans_by_score (s : store F) : Prop :=
  Forall (fun l =>
            exists c extra,
              nth_error (customers s) (Z.to_nat (l_customer_id l - 1)) = Some c
              /\ (l_loan_type l = MORTGAGE -> 750 <= c_credit_score c)
              /\ (l_loan_type l = AUTO -> 650 <= c_credit_score c)
              /\ l_interest_rate l
                 = ((if (750 <=? c_credit_score c)%Z then dec 3 2
                     else if (650 <=? c_credit_score c)%Z then dec 5 2 else dec 8 2)
                    + extra)%num)
         (loans s).

Theorem loan_type_follows_credit_score w :
  sample_fits -> wp (main E) (fun _ w' => loans_by_score (db w')) w.
Proof.
  intros Hfit. in_detail Hfit. unfold loans_by_score. tables.
  apply Forall_forall. intros l Hl.
  apply In_nth_error in Hl. destruct Hl as [n Hn].
  destruct (Forall2_nth_error_r _ Hls Hn) as [[[cid score] income] [Hc [_ Hmore]]].
  destruct Hmore as (Hid & _ & _ & (base & extra & Hrate & Hbase & Htype) & _).
  apply nth_error_In, Hchosen, scores_of_In in Hc.
  destruct Hc as [_ (c & Hnth & -> & _)].
  exists c, extra. rewrite Hid. split; [exact Hnth|]. split; [|split].
  - intros Ht. rewrite Ht in Htype. tauto.
  - intros Ht. rewrite Ht in Htype. tauto.
  - rewrite Hrate, Hbase. reflexivity.
Qed.

(** Term, maturity and collateral by loan type. *)
Definition loan_terms (s : store F) : Prop :=
  Forall (fun l =>
            l_maturity_date l = l_origination_date l + l_term_months l * 30
            /\ match l_loan_type l with
               | MORTGAGE =>
                   In (l_term_months l) [180; 360]
                   /\ l_collateral_type l = Some REAL_ESTATE
                   /\ l_collateral_value l = Some (l_principal_amount l * dec 12 1)%num
               | AUTO =>
                   In (l_term_months l) [36; 48; 60; 72]
                   /\ l_collateral_type l = Some VEHICLE
                   /\ l_collateral_value l = Some (l_principal_amount l * dec 12 1)%num
               | PERSONAL =>
                   In (l_term_months l) [12; 24; 36; 48; 60]
                   /\ l_collateral_type l = None
                   /\ l_collateral_value l = None
               end)
         (loans s).

Theorem collateral_only_for_mortgage_and_auto w :
  sample_fits -> wp (main E) (fun _ w' => loan_terms (db w')) w.
Proof.
  intros Hfit. in_detail Hfit. unfold loan_terms. tables.
  apply Forall_forall. intros l Hl.
  apply In_nth_error in Hl. destruct Hl as [n Hn].
  destruct (Forall2_nth_error_r _ Hls Hn) as [[[cid score] income] [_ [_ Hmore]]].
  destruct Hmore as (_ & _ & Hmat & (base & extra & _ & _ & Htype) & _).
  split; [exact Hmat|].
  destruct (l_loan_type l); tauto.
Qed.

(** A loan of a customer other than 101, 102 and 103 has delinquency 0,
    15 or 30 and is ACTIVE, never DEFAULTED; a loan of one of these three has
    delinquency 30 to 90 and a remaining balance of 85% of the principal. *)
Definition loan_delinquency (s : store F) : Prop :=
  Forall (fun l =>
            if mem (l_customer_id l) [101; 102; 103]
            then 30 <= l_delinquency_days l <= 90
                 /\ l_remaining_balance l = (l_principal_amount l * dec 85 2)%num
            else In (l_delinquency_days l) [0; 15; 30] /\ l_status l = ACTIVE)
         (loans s).

Theorem only_cluster_ids_can_default w :
  sample_fits -> wp (main E) (fun _ w' => loan_delinquency (db w')) w.
Proof.
  intros Hfit. in_detail Hfit. unfold loan_delinquency. tables.
  apply Forall_forall. intros l Hl.
  apply In_nth_error in Hl. destruct Hl as [n Hn].
  destruct (Forall2_nth_error_r _ Hls Hn) as [[[cid score] income] [_ [Hpost Hmore]]].
  destruct Hpost as (_ & Hstatus & Hdays).
  destruct Hmore as (Hid & _ & _ & _ & Hrem).
  destruct (mem (l_customer_id l) [101; 102; 103]) eqn:Hm.
  - split; [exact Hdays|]. apply Hrem. rewrite <- Hid. exact Hm.
  - split; [exact Hdays|]. rewrite Hstatus.
    simpl in Hdays. destruct Hdays as [<-|[<-|[<-|[]]]]; reflexivity.
Qed.

(** *** Payments *)

(** Every payment belongs to a loan of the table and is one of its first
    36 monthly instalments, scheduled every 30 days from the origination
    date; no loan has more than 36 payments; no payment is linked to a
    transaction. *)
Definition payments_keyed (s : store F) : Prop :=
  Forall (fun p => exists l month,
            1 <= p_loan_id p
            /\ nth_error (loans s) (Z.to_nat (p_loan_id p - 1)) = Some l
            /\ 0 <= month < 36
            /\ p_scheduled_date p = l_origination_date l + month * 30
            /\ p_transaction_id p = None)
         (payments s)
  /\ forall k : Z,
       (List.length (filter (fun p => (p_loan_id p =? k)%Z) (payments s)) <= 36)%nat.

Theorem at_most_36_payments_per_loan w :
  sample_fits -> wp (main E) (fun _ w' => payments_keyed (db w')) w.
Proof.
  intros Hfit. in_detail Hfit. unfold payments_keyed. tables.
  destruct Hps as [Hrows Hcount]. split; [|exact Hcount].
  eapply Forall_impl; [|exact Hrows].
  intros p (l & month & Hin & Hmonth & _ & Hsched & Hnone & _).
  apply keyed_In in Hin. destruct Hin as [H1 Hnth].
  exists l, month. auto.
Qed.

(** A payment is made 0, 3, 7 or 15 to 45 days after its scheduled date;
    the late fee is 0 up to 3 days, 25.00 at 7 days, 50.00 beyond 15 days,
    and one of the three otherwise. *)
Definition payment_lateness (s : store F) : Prop :=
  Forall (fun p =>
            let late := p_payment_date p - p_scheduled_date p in
            (In late [0; 3; 7] \/ 15 <= late <= 45)
            /\ (late <= 3 -> p_late_fee p = of_int 0)
            /\ (late = 7 -> p_late_fee p = dec 2500 2)
            /\ (15 < late -> p_late_fee p = dec 5000 2)
            /\ (p_late_fee p = of_int 0 \/ p_late_fee p = dec 2500 2
                \/ p_late_fee p = dec 5000 2))
         (payments s).

Theorem late_fee_follows_lateness w :
  sample_fits -> wp (main E) (fun _ w' => payment_lateness (db w')) w.
Proof.
  intros Hfit. in_detail Hfit. unfold payment_lateness. tables.
  destruct Hps as [Hrows _].
  eapply Forall_impl; [|exact Hrows].
  intros p (l & month & _ & _ & _ & _ & _ & Hbranch). cbv zeta.
  destruct (mem (l_customer_id l) [101; 102; 103] && (12 <? month))%bool.
  - destruct Hbranch as [Hlate Hfee]. rewrite Hfee.
    split; [right; exact Hlate|]. split; [lia|]. split; [lia|]. split; [reflexivity|].
    right. right. reflexivity.
  - destruct Hbranch as [Hlate Hfee]. rewrite Hfee. simpl in Hlate.
    destruct Hlate as [<-|[<-|[<-|[<-|[]]]]]; simpl;
      (split; [first [left; simpl; tauto | right; lia]|]);
      (split; [first [reflexivity | lia]|]);
      (split; [first [reflexivity | lia]|]);
      (split; [first [reflexivity | lia]|]); tauto.
Qed.

(** *** Service sessions *)

(** 1000 sessions, each of a customer of the table; the user id of a
    session is the key of a user row of that customer, and is null exactly
    when the customer has no user row. *)
Definition chats_keyed (s : store F) : Prop :=
  List.length (chat_history s) = 1000%nat
  /\ Forall (fun c =>
               1 <= ch_customer_id c <= 500
               /\ match ch_user_id c with
                  | Some uid =>
                      1 <= uid
                      /\ exists u, nth_error (users s) (Z.to_nat (uid - 1)) = Some u
                                   /\ u_customer_id u = ch_customer_id c
                  | None => forall u, In u (users s) -> u_customer_id u <> ch_customer_id c
                  end)
            (chat_history s).

Theorem session_user_belongs_to_customer w :
  sample_fits -> wp (main E) (fun _ w' => chats_keyed (db w')) w.
Proof.
  intros Hfit. in_detail Hfit.
  assert (Hlen_cs : List.length cs = 500%nat).
  { rewrite <- (Forall2_length Hcs), range_length. reflexivity. }
  unfold chats_keyed. tables. split; [exact Hchs_len|].
  eapply Forall_impl; [|exact Hchs].
  intros c (Hin & Huser & _). split.
  - apply row_ids_In in Hin. rewrite Hlen_cs in Hin. exact Hin.
  - rewrite Huser.
    exact (user_of_customer_spec (built cs us (List.concat blocks) owners ts ls ps chs)
                                 (ch_customer_id c)).
Qed.

(** A session lasts 5 to 120 minutes and opens with a message of its
    topic; a session of customer 101, 102 or 103 is never TECHNICAL and never
    RESOLVED; a session of another customer on a topic other than COMPLAINT
    and DISPUTE is never ESCALATED. *)
Definition chat_sessions (s : store F) : Prop :=
  Forall (fun c =>
            (exists d, 5 <= d <= 120
                       /\ ch_session_end c = ch_session_start c + d * usec_per_minute)
            /\ (exists message,
                  In message (topic_messages (ch_topic c))
                  /\ ch_transcript c = transcript_of E message (ch_session_start c))
            /\ (if mem (ch_customer_id c) [101; 102; 103]
                then ch_topic c <> TECHNICAL /\ ch_resolution_status c <> RESOLVED
                else ch_topic c = COMPLAINT \/ ch_topic c = DISPUTE
                     \/ ch_resolution_status c <> ESCALATED))
         (chat_history s).

Theorem cluster_sessions_are_never_resolved w :
  sample_fits -> wp (main E) (fun _ w' => chat_sessions (db w')) w.
Proof.
  intros Hfit. in_detail Hfit. unfold chat_sessions. tables.
  eapply Forall_impl; [|exact Hchs].
  intros c (_ & _ & Hdur & Hmsg & _ & Hmood).
  split; [exact Hdur|]. split; [exact Hmsg|].
  unfold chat_mood in Hmood.
  destruct (mem (ch_customer_id c) [101; 102; 103]).
  - destruct Hmood as (Ht & _ & Hr). split.
    + simpl in Ht. intros Heq. rewrite Heq in Ht. intuition discriminate.
    + simpl in Hr. intros Heq. rewrite Heq in Hr. intuition discriminate.
  - destruct (ch_topic c); try (left; reflexivity); try (right; left; reflexivity);
      right; right; destruct Hmood as [_ Hr]; simpl in Hr;
      intros Heq; rewrite Heq in Hr; intuition discriminate.
Qed.

End TableProperties.
(** ** Stages on other databases *)

(** [raises c e w]: from [w] the computation [c] raises [e]. *)
Definition raises {F A} (c : M F A) (e : exn) (w : world F) : Prop := c w = Raise e.

Lemma raises_bind F A B (c : M F A) (k : A -> M F B) e w :
  wp c (fun a w' => raises (k a) e w') w -> raises (bind c k) e w.
Proof.
  unfold wp, raises, bind. destruct (c w) as [[a w']|e']; [auto | contradiction].
Qed.

Lemma raises_first F A B (c : M F A) (k : A -> M F B) e w :
  raises c e w -> raises (bind c k) e w.
Proof. unfold raises, bind. intros ->. reflexivity. Qed.

Lemma raises_index F A (xs : list A) i (w : world F) :
  Z.of_nat (List.length xs) <= i -> raises (index xs i) IndexError w.
Proof.
  intros Hi. unfold raises, index. destruct (Z.ltb_spec i 0); [reflexivity|].
  destruct (nth_error xs (Z.to_nat i)) eqn:Hn; [|reflexivity].
  assert (Z.to_nat i < List.length xs)%nat by (apply nth_error_Some; congruence). lia.
Qed.

(** *** Banks: [INSERT OR IGNORE] *)

Definition same_swift (b r : bank) : bool := String.eqb (b_swift_code r) (b_swift_code b).

Lemma insert_bank_keeps x tbl b :
  existsb (same_swift x) tbl = true -> existsb (same_swift x) (insert_bank tbl b) = true.
Proof.
  intros H. unfold insert_bank.
  destruct (existsb (fun r => String.eqb (b_swift_code r) (b_swift_code b)) tbl);
    [exact H|].
  rewrite existsb_app, H. reflexivity.
Qed.

Lemma insert_banks_keep x rows :
  forall tbl, existsb (same_swift x) tbl = true ->
              existsb (same_swift x) (fold_left insert_bank rows tbl) = true.
Proof.
  induction rows as [|b rows IH]; intros tbl H; simpl; [exact H|].
  apply IH, insert_bank_keeps, H.
Qed.

Lemma insert_bank_present tbl b : existsb (same_swift b) (insert_bank tbl b) = true.
Proof.
  unfold insert_bank.
  destruct (existsb (fun r => String.eqb (b_swift_code r) (b_swift_code b)) tbl) eqn:H;
    [exact H|].
  rewrite existsb_app. simpl. unfold same_swift at 2. rewrite String.eqb_refl.
  apply orb_true_iff. right. reflexivity.
Qed.

Lemma insert_banks_present x rows :
  forall tbl, In x rows -> existsb (same_swift x) (fold_left insert_bank rows tbl) = true.
Proof.
  induction rows as [|b rows IH]; intros tbl Hin; simpl in *; [contradiction|].
  destruct Hin as [->|Hin].
  - apply insert_banks_keep, insert_bank_present.
  - apply IH. exact Hin.
Qed.

Lemma insert_banks_again rows :
  forall tbl, (forall x, In x rows -> existsb (same_swift x) tbl = true) ->
              fold_left insert_bank rows tbl = tbl.
Proof.
  induction rows as [|b rows IH]; intros tbl H; simpl; [reflexivity|].
  assert (Hb : insert_bank tbl b = tbl).
  { unfold insert_bank. specialize (H b (or_introl eq_refl)).
    unfold same_swift in H. rewrite H. reflexivity. }
  rewrite Hb. apply IH. intros x Hx. apply H. right. exact Hx.
Qed.

(** Running [generate_banks] a second time changes nothing, whatever the
    banks table held before the first run; on an empty table the first run
    leaves the five banks. *)
Theorem generate_banks_twice F (w : world F) :
  exists w1 w2,
    generate_banks w = Ok (tt, w1)
    /\ generate_banks w1 = Ok (tt, w2)
    /\ db w2 = db w1
    /\ (banks (db w) = [] -> banks (db w1) = bank_rows).
Proof.
  eexists. eexists. split; [reflexivity|]. split; [reflexivity|]. split.
  - cbn [db]. unfold add_banks at 1. cbn [banks customers users accounts
      account_customers transactions loans payments chat_history add_banks].
    rewrite insert_banks_again; [reflexivity|].
    intros x Hx. apply insert_banks_present. exact Hx.
  - intros Hnil. cbn [db add_banks banks]. rewrite Hnil. reflexivity.
Qed.

Section Failures.

Context {F : Type} {NF : Num F}.
Variable E : extern.

(** *** Loans need 200 customers *)

(** With fewer than 200 customers [random.sample(customers, 200)] raises
    [ValueError] and no loan is written. *)
Theorem generate_loans_raises_under_200_customers (w : world F) :
  (List.length (customers (db w)) < 200)%nat ->
  raises (generate_loans E) ValueError w.
Proof.
  intros Hn. unfold raises, generate_loans, bind, get_db, sample.
  assert (Hlen : List.length (select_customer_scores (db w))
                 = List.length (customers (db w))).
  { unfold select_customer_scores, keyed.
    rewrite length_map, length_combine, row_ids_length. apply Nat.min_id. }
  rewrite Hlen.
  destruct (Z.ltb_spec (Z.of_nat (List.length (customers (db w)))) 200); [|lia].
  reflexivity.
Qed.

(** *** Accounts need a 151st account *)

(** On a database without accounts and with at most 37 customers, the
    stage writes at most 148 accounts and [account_ids[150]] raises
    [IndexError] before any ownership row is written. *)
Theorem generate_accounts_raises_under_151_accounts (w : world F) :
  banks (db w) <> [] ->
  accounts (db w) = [] ->
  (4 * List.length (customers (db w)) <= 150)%nat ->
  raises (generate_accounts E) IndexError w.
Proof.
  intros Hbanks Haccs HN. unfold generate_accounts.
  apply raises_bind, wp_get_db.
  assert (Hbids : row_ids (banks (db w)) <> []) by (apply row_ids_nonempty; exact Hbanks).
  apply raises_bind. eapply wp_draws.
  { apply draws_foldM_ext with (P := account_block (row_ids (banks (db w)))).
    intros rows ic _. apply customer_accounts_more. exact Hbids. }
  intros rows w1 Hw1 [news [-> Hnews]]. simpl app.
  apply raises_bind. unfold insert_accounts. apply wp_bind_get_db, wp_set_db.
  apply raises_bind, wp_get_db.
  cbn [db accounts add_accounts]. rewrite Hw1, Haccs. simpl app.
  pose proof (blocks_length Hnews) as Hlen.
  rewrite enumerate_length, row_ids_length in Hlen.
  apply raises_bind. eapply wp_draws.
  { apply draws_foldM_snoc
      with (P := fun ia r => own_key r
                 = (snd ia, fst ia mod Z.of_nat (List.length (customers (db w))) + 1, PRIMARY)).
    intros rows [i aid] Hin.
    assert (Hcs : customers (db w) <> []).
    { intros Hnil. rewrite Hnil in Hlen. simpl in Hlen.
      destruct (List.concat news); [destruct Hin | simpl in Hlen; lia]. }
    apply primary_row_spec; [exact Hcs|].
    simpl. unfold enumerate in Hin. apply in_combine_l in Hin.
    apply range_In in Hin. lia. }
  intros prim w2 Hw2 _.
  apply raises_first, raises_index. rewrite row_ids_length. lia.
Qed.

(** *** Transactions need an account *)

(** Without an ACTIVE account the first iteration calls
    [random.choice] on an empty list, which raises [IndexError]. *)
Theorem generate_transactions_raises_without_accounts count (w : world F) :
  select_active_accounts (db w) = [] -> 0 < count ->
  raises (generate_transactions E count) IndexError w.
Proof.
  intros Hnone Hcount. unfold generate_transactions.
  apply raises_bind, wp_get_db. rewrite Hnone.
  apply raises_first.
  assert (Hr : exists rest, range count = 0 :: rest).
  { unfold range. destruct (Z.to_nat count) as [|m] eqn:Hm; [lia|].
    eexists. reflexivity. }
  destruct Hr as [rest ->]. reflexivity.
Qed.

(** *** Sessions need a customer *)

(** Without customers the first iteration calls [random.choice] on an
    empty list, which raises [IndexError]. *)
Theorem generate_chat_history_raises_without_customers (w : world F) :
  customers (db w) = [] -> raises (generate_chat_history E) IndexError w.
Proof.
  intros Hnone. unfold generate_chat_history.
  apply raises_bind, wp_get_db. rewrite Hnone.
  apply raises_first. reflexivity.
Qed.

End Failures.
(** ** The amortization formula in exact arithmetic *)

Lemma Qmult_gt_1 (x y : Q) : (1 < x)%Q -> (1 < y)%Q -> (1 < x * y)%Q.
Proof.
  intros Hx Hy.
  assert (H : (x * 1 < x * y)%Q) by (apply Qmult_lt_l; lra).
  lra.
Qed.

Lemma pow_pos_gt_1 (x : Q) (p : positive) : (1 < x)%Q -> (1 < pow_pos Qmult x p)%Q.
Proof.
  intros Hx. induction p as [p IH|p IH|]; simpl.
  - apply Qmult_gt_1; [exact Hx|]. apply Qmult_gt_1; exact IH.
  - apply Qmult_gt_1; exact IH.
  - exact Hx.
Qed.

(** With a positive principal and rate and a positive term, the
    denominator of the formula is positive and the instalment exceeds the
    interest of the first month. *)
Lemma amortized_payment_exceeds_interest (P r : Q) (n : Z) :
  (0 < P)%Q -> (0 < r)%Q -> 0 < n ->
  (0 < (1 + r) ^ n - 1)%Q /\ (P * r < amortized_payment (F:=Q) P r n)%Q.
Proof.
  intros HP Hr Hn. destruct n as [|p|p]; try lia.
  assert (Hpow : (1 < (1 + r) ^ Z.pos p)%Q).
  { unfold Qpower, Qpower_positive. apply pow_pos_gt_1. lra. }
  split; [lra|].
  unfold amortized_payment. cbn [fmul fadd fsub fdiv fpow of_int Num_Q].
  change (inject_Z 1) with 1%Q.
  set (pw := ((1 + r) ^ Z.pos p)%Q) in *.
  apply Qlt_shift_div_l; [lra|].
  assert (HPr : (0 < P * r)%Q) by (apply Qmult_lt_0_compat; assumption).
  assert (H : (P * r * (pw - 1) < P * r * pw)%Q) by (apply Qmult_lt_l; [exact HPr | lra]).
  exact H.
Qed.

(** In exact arithmetic every loan has a principal of at least 5000, an
    annual rate in [[0.03, 0.13)], a positive denominator in the
    amortization formula, and a monthly payment above the interest of the
    first month. *)
Definition loans_amortize (s : store Q) : Prop :=
  Forall (fun l =>
            let r := (l_interest_rate l / 12)%Q in
            (5000 <= l_principal_amount l)%Q
            /\ (3 # 100 <= l_interest_rate l)%Q /\ (l_interest_rate l < 13 # 100)%Q
            /\ (0 < (1 + r) ^ l_term_months l - 1)%Q
            /\ (l_principal_amount l * r < l_monthly_payment l)%Q)
         (loans s).

Ltac uniform_bounds :=
  repeat match goal with
         | H : uniform_value _ _ _ |- _ =>
             apply uniform_Q_range in H; [destruct H | reflexivity]
         end.

Theorem loans_amortize_in_exact_arithmetic (E : extern) (w : world Q) :
  wp (main E) (fun _ w' => loans_amortize (db w')) w.
Proof.
  eapply wp_mono; [|apply (main_run_in_detail E); exact sample_fits_Q].
  intros [] ? (cs & us & blocks & owners & ts & ls & chosen & ps & chs & -> & _ & _
               & _ & _ & _ & _ & Hls & _).
  unfold loans_amortize. cbn [built loans].
  apply Forall_forall. intros l Hl.
  apply In_nth_error in Hl. destruct Hl as [n Hn].
  destruct (Forall2_nth_error_r _ Hls Hn) as [[[cid score] income] [_ [Hpost Hmore]]].
  destruct Hpost as (Hpay & _).
  destruct Hmore as (_ & _ & _ & (base & extra & Hrate & Hbase & Htype) & _).
  assert (Hb : (3 # 100 <= base)%Q /\ (base <= 8 # 100)%Q).
  { rewrite Hbase. destruct (750 <=? score); [|destruct (650 <=? score)];
      split; vm_compute; discriminate. }
  destruct Hb as [Hb1 Hb2].
  cbn [fadd Num_Q] in Hrate.
  assert (Hfacts : (5000 <= l_principal_amount l)%Q
                   /\ (0 <= extra)%Q /\ (extra < 5 # 100)%Q /\ 0 < l_term_months l).
  { destruct (l_loan_type l).
    - destruct Htype as (HP & Hterm & Hextra & _). uniform_bounds.
      change (of_int 5000) with 5000%Q in *. change (dec 2 2) with (2 # 100) in *.
      change (dec 5 2) with (5 # 100) in *.
      repeat split; try lra.
      simpl in Hterm. decompose [or] Hterm; subst; try contradiction; lia.
    - destruct Htype as (_ & HP & Hterm & Hextra & _). uniform_bounds.
      change (of_int 150000) with 150000%Q in *. change (of_int 0) with 0%Q in *.
      change (dec 2 2) with (2 # 100) in *.
      repeat split; try lra.
      simpl in Hterm. decompose [or] Hterm; subst; try contradiction; lia.
    - destruct Htype as (_ & HP & Hterm & Hextra & _). uniform_bounds.
      change (of_int 15000) with 15000%Q in *. change (dec 1 2) with (1 # 100) in *.
      change (dec 3 2) with (3 # 100) in *.
      repeat split; try lra.
      simpl in Hterm. decompose [or] Hterm; subst; try contradiction; lia. }
  destruct Hfacts as (HP & He1 & He2 & Hterm).
  cbv zeta. split; [exact HP|]. split; [rewrite Hrate; lra|]. split; [rewrite Hrate; lra|].
  assert (Hr : (0 < l_interest_rate l / 12)%Q).
  { apply Qlt_shift_div_l; [reflexivity|]. rewrite Hrate. lra. }
  rewrite Hpay.
  change (l_interest_rate l / of_int 12)%num with (l_interest_rate l / 12)%Q.
  apply amortized_payment_exceeds_interest; [lra | exact Hr | exact Hterm].
Qed.
(** ** The further properties on concrete inputs *)

Lemma sample_is_400_float : to_int (F:=float) (of_int 500 * dec 8 1)%num = 400.
Proof. vm_compute. reflexivity. Qed.

Lemma customers_scores_income_address_witness :
  sample_fits (F:=float)
  /\ wp (main (demo_extern demo_words))
        (fun _ w' => customers_profiled (db w')) (fresh_world float 0).
Proof.
  exact (conj sample_fits_float
           (customers_scores_income_address (demo_extern demo_words) (fresh_world float 0)
              sample_fits_float)).
Defined.

Lemma compromised_user_is_customer_250_witness :
  sample_fits (F:=float)
  /\ wp (main (demo_extern demo_words))
        (fun _ w' => user_flags (db w')) (fresh_world float 0).
Proof.
  exact (conj sample_fits_float
           (compromised_user_is_customer_250 (demo_extern demo_words) (fresh_world float 0)
              sample_fits_float)).
Defined.

Lemma account_numbers_are_unique_witness :
  sample_fits (F:=float)
  /\ wp (main (demo_extern demo_words))
        (fun _ w' => accounts_keyed (db w')) (fresh_world float 0).
Proof.
  exact (conj sample_fits_float
           (account_numbers_are_unique (demo_extern demo_words) (fresh_world float 0)
              sample_fits_float)).
Defined.

Lemma only_checking_has_overdraft_witness :
  sample_fits (F:=float)
  /\ wp (main (demo_extern demo_words))
        (fun _ w' => account_products (db w')) (fresh_world float 0).
Proof.
  exact (conj sample_fits_float
           (only_checking_has_overdraft (demo_extern demo_words) (fresh_world float 0)
              sample_fits_float)).
Defined.



Lemma exactly_51_flagged_transactions_witness :
  sample_fits (F:=float)
  /\ wp (main (demo_extern demo_words))
        (fun _ w' => flagged_rows (db w')) (fresh_world float 0).
Proof.
  exact (conj sample_fits_float
           (exactly_51_flagged_transactions (demo_extern demo_words) (fresh_world float 0)
              sample_fits_float)).
Defined.

Lemma one_loan_per_sampled_customer_witness :
  sample_fits (F:=float)
  /\ wp (main (demo_extern demo_words))
        (fun _ w' => loans_keyed (db w')) (fresh_world float 0).
Proof.
  exact (conj sample_fits_float
           (one_loan_per_sampled_customer (demo_extern demo_words) (fresh_world float 0)
              sample_fits_float)).
Defined.

Lemma loan_type_follows_credit_score_witness :
  sample_fits (F:=float)
  /\ wp (main (demo_extern demo_words))
        (fun _ w' => loans_by_score (db w')) (fresh_world float 0).
Proof.
  exact (conj sample_fits_float
           (loan_type_follows_credit_score (demo_extern demo_words) (fresh_world float 0)
              sample_fits_float)).
Defined.

Lemma collateral_only_for_mortgage_and_auto_witness :
  sample_fits (F:=float)
  /\ wp (main (demo_extern demo_words))
        (fun _ w' => loan_terms (db w')) (fresh_world float 0).
Proof.
  exact (conj sample_fits_float
           (collateral_only_for_mortgage_and_auto (demo_extern demo_words) (fresh_world float 0)
              sample_fits_float)).
Defined.

Lemma only_cluster_ids_can_default_witness :
  sample_fits (F:=float)
  /\ wp (main (demo_extern demo_words))
        (fun _ w' => loan_delinquency (db w')) (fresh_world float 0).
Proof.
  exact (conj sample_fits_float
           (only_cluster_ids_can_default (demo_extern demo_words) (fresh_world float 0)
              sample_fits_float)).
Defined.

Lemma at_most_36_payments_per_loan_witness :
  sample_fits (F:=float)
  /\ wp (main (demo_extern demo_words))
        (fun _ w' => payments_keyed (db w')) (fresh_world float 0).
Proof.
  exact (conj sample_fits_float
           (at_most_36_payments_per_loan (demo_extern demo_words) (fresh_world float 0)
              sample_fits_float)).
Defined.

Lemma late_fee_follows_lateness_witness :
  sample_fits (F:=float)
  /\ wp (main (demo_extern demo_words))
        (fun _ w' => payment_lateness (db w')) (fresh_world float 0).
Proof.
  exact (conj sample_fits_float
           (late_fee_follows_lateness (demo_extern demo_words) (fresh_world float 0)
              sample_fits_float)).
Defined.

Lemma session_user_belongs_to_customer_witness :
  sample_fits (F:=float)
  /\ wp (main (demo_extern demo_words))
        (fun _ w' => chats_keyed (db w')) (fresh_world float 0).
Proof.
  exact (conj sample_fits_float
           (session_user_belongs_to_customer (demo_extern demo_words) (fresh_world float 0)
              sample_fits_float)).
Defined.

Lemma cluster_sessions_are_never_resolved_witness :
  sample_fits (F:=float)
  /\ wp (main (demo_extern demo_words))
        (fun _ w' => chat_sessions (demo_extern demo_words) (db w')) (fresh_world float 0).
Proof.
  exact (conj sample_fits_float
           (cluster_sessions_are_never_resolved (demo_extern demo_words) (fresh_world float 0)
              sample_fits_float)).
Defined.

Lemma users_sampled_without_repetition_witness :
  to_int (F:=float) (of_int 500 * dec 8 1)%num = 400
  /\ wp (main (demo_extern demo_words))
        (fun _ w' => users_sampled (db w')) (fresh_world float 0).
Proof.
  exact (conj sample_is_400_float
           (users_sampled_without_repetition (demo_extern demo_words)
              (fresh_world float 0) sample_is_400_float)).
Defined.

(** Collaborators whose clock prints every date as the same eight
    characters. *)
Definition fixed_date_extern : extern :=
  {| mt_word := demo_words;
     fk_text := fun _ _ => "x"%string;
     fk_num := fun _ _ => 19700;
     wall_clock := fun k => 20000 * usec_per_day + Z.of_N k;
     sha256_hex := fun s => s;
     strftime_Ymd := fun _ => "20240101"%string;
     str_datetime := fun t => str_Z t |}.

Lemma fixed_date_width k k' :
  String.length (strftime_Ymd fixed_date_extern (wall_clock fixed_date_extern k))
  = String.length (strftime_Ymd fixed_date_extern (wall_clock fixed_date_extern k')).
Proof. reflexivity. Qed.

Lemma reference_numbers_are_unique_witness :
  (forall k k',
     String.length (strftime_Ymd fixed_date_extern (wall_clock fixed_date_extern k))
     = String.length (strftime_Ymd fixed_date_extern (wall_clock fixed_date_extern k')))
  /\ sample_fits (F:=float)
  /\ wp (main fixed_date_extern)
        (fun _ w' => references_distinct (db w')) (fresh_world float 0).
Proof.
  exact (conj fixed_date_width
           (conj sample_fits_float
              (reference_numbers_are_unique fixed_date_extern (fresh_world float 0)
                 fixed_date_width sample_fits_float))).
Defined.

(** A database that holds the five banks and nothing else. *)
Definition banks_only_world : world float :=
  {| rnd := {| seed_of := 42; taken := 0 |};
     fk := {| seed_of := 42; taken := 0 |};
     ticks := 0;
     db := add_banks (empty_store float) bank_rows |}.

Lemma fresh_world_has_no_customers :
  (List.length (customers (db (fresh_world float 0))) < 200)%nat.
Proof. simpl. lia. Qed.

Lemma generate_loans_raises_under_200_customers_witness :
  (List.length (customers (db (fresh_world float 0))) < 200)%nat
  /\ raises (generate_loans (demo_extern demo_words)) ValueError (fresh_world float 0).
Proof.
  exact (conj fresh_world_has_no_customers
           (generate_loans_raises_under_200_customers (demo_extern demo_words)
              (fresh_world float 0) fresh_world_has_no_customers)).
Defined.

Lemma banks_only_world_has_banks : banks (db banks_only_world) <> [].
Proof. discriminate. Qed.

Lemma banks_only_world_is_small :
  (4 * List.length (customers (db banks_only_world)) <= 150)%nat.
Proof. simpl. lia. Qed.

Lemma generate_accounts_raises_under_151_accounts_witness :
  (banks (db banks_only_world) <> []
   /\ accounts (db banks_only_world) = []
   /\ (4 * List.length (customers (db banks_only_world)) <= 150)%nat)
  /\ raises (generate_accounts (demo_extern demo_words)) IndexError banks_only_world.
Proof.
  exact (conj (conj banks_only_world_has_banks (conj eq_refl banks_only_world_is_small))
           (generate_accounts_raises_under_151_accounts (demo_extern demo_words)
              banks_only_world banks_only_world_has_banks eq_refl
              banks_only_world_is_small)).
Defined.

Lemma generate_transactions_raises_without_accounts_witness :
  (select_active_accounts (db (fresh_world float 0)) = [] /\ 0 < 5000)
  /\ raises (generate_transactions (demo_extern demo_words) 5000) IndexError
            (fresh_world float 0).
Proof.
  exact (conj (conj eq_refl eq_refl)
           (generate_transactions_raises_without_accounts (demo_extern demo_words)
              (count := 5000) (fresh_world float 0) eq_refl eq_refl)).
Defined.

Lemma generate_chat_history_raises_without_customers_witness :
  customers (db (fresh_world float 0)) = []
  /\ raises (generate_chat_history (demo_extern demo_words)) IndexError
            (fresh_world float 0).
Proof.
  exact (conj eq_refl
           (generate_chat_history_raises_without_customers (demo_extern demo_words)
              (fresh_world float 0) eq_refl)).
Defined.
